(** * LoadSphere: Hours-of-Service planner, duty-log validator, alert
      evaluator, trip orchestration and background jobs.

    A shallow embedding of the Python services of the [planner] Django
    application, followed by the properties proved about them.

    Conventions of the embedding:
    - Python [float] hour values are exact rationals ([Q]); the integer
      minute totals are [Z].  Comparisons and [min]/[max] follow Python's
      evaluation order.  The code computes in binary64, where a sum, a
      product or a quotient is the exact one rounded to the nearest double,
      a constant such as [14 * 0.95] is the double next to the rational
      one, and a not-a-number input makes every comparison false.  The
      embedding differs from the code in exactly these places: a product
      that lands within one rounding of a half minute may round to the
      other minute, a value within one rounding of a threshold may fall
      on the other side, and not-a-number inputs are not represented.  The
      properties of the scheduler and of the evaluator are stated so that
      they hold of the binary64 code as well: for inputs that are numbers
      (a hypothesis compares them with a bound), with bounds that monotone
      rounding keeps, and for values clear of a threshold by [margin].
    - An exception is a value of the [Raise] constructor of [result].
    - Database tables are finite maps from primary key to row; a
      [transaction.atomic] block that exits with an exception restores the
      database it started from. *)

From Stdlib Require Import QArith Qround Qabs Qminmax Lqa ZArith Lia Ascii.
From stdpp Require Import gmap strings pretty list fin_maps sorting.

Set Default Proof Using "Type".

(** ** Python preliminaries *)

Inductive result (E A : Type) : Type :=
| Ok (a : A)
| Raise (e : E).
Arguments Ok {E A} a.
Arguments Raise {E A} e.

Module Py.

Definition Qlt_bool (a b : Q) : bool := negb (Qle_bool b a).

(** [min(a, b)]: the later argument wins only when strictly smaller. *)
Definition min2 (a b : Q) : Q := if Qlt_bool b a then b else a.

Definition min3 (a b c : Q) : Q := min2 (min2 a b) c.

(** [max(a, b)]: the later argument wins only when strictly greater. *)
Definition max2 (a b : Q) : Q := if Qlt_bool a b then b else a.

(** [round(x)] on a float: nearest integer, ties to the even one. *)
Definition round (q : Q) : Z :=
  let f := Qfloor q in
  match Qcompare (q - inject_Z f) (1 # 2) with
  | Lt => f
  | Gt => (f + 1)%Z
  | Eq => if Z.even f then f else (f + 1)%Z
  end.

(** [round(x, 2)]. *)
Definition round2 (q : Q) : Q := inject_Z (round (q * 100)) / 100.

End Py.

(** ** services/hos.py *)

Module Hos.

Local Open Scope Q_scope.

Inductive HOSComputationError : Type :=
| HOSError (message : string).

Definition MSG_NEGATIVE : string := "Trip duration must be non-negative.".
Definition MSG_CYCLE_EXHAUSTED : string :=
  "Driver has exhausted the 70-hour cycle. Trip cannot be scheduled.".
Definition MSG_NO_HOURS : string :=
  "No remaining hours available to schedule this trip.".

Record Segment : Type := mkSegment {
  seg_status : string;
  seg_minutes : Z;
  seg_remarks : string
}.

Record DailyHosSummary : Type := mkSummary {
  day_number : Z;
  total_driving_minutes : Z;
  total_on_duty_minutes : Z;
  total_off_duty_minutes : Z;
  total_sleeper_minutes : Z;
  remaining_cycle_hours : Q;
  segments : list Segment
}.

(** The dictionary built by [DailyHosSummary.as_payload]. *)
Record Payload : Type := mkPayload {
  p_day_number : Z;
  p_total_driving_minutes : Z;
  p_total_on_duty_minutes : Z;
  p_total_off_duty_minutes : Z;
  p_total_sleeper_minutes : Z;
  p_remaining_cycle_hours : Q;
  p_segments : list Segment;
  p_notes : list string
}.

Definition as_payload (s : DailyHosSummary) : Payload :=
  {| p_day_number := day_number s;
     p_total_driving_minutes := total_driving_minutes s;
     p_total_on_duty_minutes := total_on_duty_minutes s;
     p_total_off_duty_minutes := total_off_duty_minutes s;
     p_total_sleeper_minutes := total_sleeper_minutes s;
     p_remaining_cycle_hours := Py.round2 (remaining_cycle_hours s);
     p_segments := segments s;
     p_notes :=
       [ "Automatic HOS plan generated. Review before dispatch.";
         "Adjustments required for real-world constraints (traffic, loading)." ]%string
  |}.

Definition DRIVING_LIMIT_PER_DAY : Q := 11.
Definition ON_DUTY_LIMIT_PER_DAY : Q := 14.
Definition CYCLE_LIMIT_HOURS : Q := 70.
Definition MANDATORY_OFF_DUTY_HOURS : Q := 10.
Definition ON_DUTY_BUFFER_HOURS : Q := 2.

(** One pass of the [while] body: the two local hour values the day was
    planned with, next to the summary appended for it. *)
Record DayPlan : Type := mkDayPlan {
  planned_driving : Q;
  planned_on_duty : Q;
  summary : DailyHosSummary
}.

Definition plan_day (day : Z) (remaining_hours remaining_cycle : Q) : DayPlan :=
  let planned_driving :=
    Py.min3 DRIVING_LIMIT_PER_DAY remaining_hours remaining_cycle in
  let planned_on_duty :=
    Py.min3 (planned_driving + ON_DUTY_BUFFER_HOURS) ON_DUTY_LIMIT_PER_DAY
            remaining_cycle in
  let driving_minutes := Py.round (planned_driving * 60) in
  let on_duty_minutes := Py.round (planned_on_duty * 60) in
  let off_duty_minutes := Py.round (MANDATORY_OFF_DUTY_HOURS * 60) in
  let sleeper_minutes := 0%Z in
  let segments :=
    [ mkSegment "ON_DUTY" (on_duty_minutes - driving_minutes)
                "Pre/post-trip activities";
      mkSegment "DRIVING" driving_minutes "Planned driving";
      mkSegment "OFF_DUTY" off_duty_minutes "Rest" ] in
  let remaining_cycle' := remaining_cycle - planned_on_duty in
  {| planned_driving := planned_driving;
     planned_on_duty := planned_on_duty;
     summary :=
       {| day_number := day;
          total_driving_minutes := driving_minutes;
          total_on_duty_minutes := on_duty_minutes;
          total_off_duty_minutes := off_duty_minutes;
          total_sleeper_minutes := sleeper_minutes;
          remaining_cycle_hours := Py.max2 remaining_cycle' 0;
          segments := segments |} |}.

(** The [while remaining_hours > 0 and remaining_cycle > 0] loop.  The
    guard is tested before the fuel, so [None] means that the fuel ran
    out while the guard still held. *)
Fixpoint schedule_loop (fuel : nat) (day : Z)
         (remaining_hours remaining_cycle : Q) : option (list DayPlan) :=
  if Py.Qlt_bool 0 remaining_hours && Py.Qlt_bool 0 remaining_cycle then
    match fuel with
    | O => None
    | S fuel' =>
        let d := plan_day day remaining_hours remaining_cycle in
        match schedule_loop fuel' (day + 1)
                (remaining_hours - planned_driving d)
                (remaining_cycle - planned_on_duty d) with
        | Some rest => Some (d :: rest)
        | None => None
        end
    end
  else Some [].

(** [generate_driver_logs] up to the end of the loop. *)
Definition schedule (fuel : nat) (total_trip_hours cycle_hours_used : Q)
  : option (result HOSComputationError (list DayPlan)) :=
  if Py.Qlt_bool total_trip_hours 0 then
    Some (Raise (HOSError MSG_NEGATIVE))
  else
    let cycle_hours_remaining :=
      Py.max2 (CYCLE_LIMIT_HOURS - cycle_hours_used) 0 in
    if Qle_bool cycle_hours_remaining 0 then
      Some (Raise (HOSError MSG_CYCLE_EXHAUSTED))
    else
      let hours_to_schedule :=
        Py.min2 total_trip_hours cycle_hours_remaining in
      if Qle_bool hours_to_schedule 0 then
        Some (Raise (HOSError MSG_NO_HOURS))
      else
        match schedule_loop fuel 1 hours_to_schedule cycle_hours_remaining with
        | Some days => Some (Ok days)
        | None => None
        end.

Definition generate_driver_logs (fuel : nat)
           (total_trip_hours cycle_hours_used : Q)
  : option (result HOSComputationError (list Payload)) :=
  match schedule fuel total_trip_hours cycle_hours_used with
  | Some (Ok days) => Some (Ok (map (fun d => as_payload (summary d)) days))
  | Some (Raise e) => Some (Raise e)
  | None => None
  end.

Definition total_planned_driving (days : list DayPlan) : Q :=
  fold_right (fun d acc => planned_driving d + acc) 0 days.

End Hos.

(** ** services/trip_planner.py: [_evaluate_hos_alerts] *)

Module Alerts.

Local Open Scope Q_scope.

(** A log payload as the evaluator reads it: each field is the value of
    [payload.get(key)], [None] for a key that is absent. *)
Record LogPayload : Type := mkLogPayload {
  day_number : option Z;
  total_driving_minutes : option Q;
  total_driving_hours : option Q;
  total_on_duty_minutes : option Q;
  total_on_duty_hours : option Q;
  remaining_cycle_hours : option Q
}.

Definition of_payload (p : Hos.Payload) : LogPayload :=
  {| day_number := Some (Hos.p_day_number p);
     total_driving_minutes := Some (inject_Z (Hos.p_total_driving_minutes p));
     total_driving_hours := None;
     total_on_duty_minutes := Some (inject_Z (Hos.p_total_on_duty_minutes p));
     total_on_duty_hours := None;
     remaining_cycle_hours := Some (Hos.p_remaining_cycle_hours p) |}.

Record Alert : Type := mkAlert {
  level : string;
  rule : string;
  message : string;
  alert_day_number : option Z
}.

Definition RULE_DRIVING : string := "11-hour driving limit".
Definition RULE_ON_DUTY : string := "14-hour on-duty window".
Definition RULE_CYCLE : string := "70-hour/8-day cycle".

Definition EPSILON : Q := 1 # 1000000.

(** [f"{x:.1f}"]. *)
Definition fmt1 (q : Q) : string :=
  let t := Py.round (Qabs q * 10) in
  ((if Py.Qlt_bool q 0 then "-" else "")
     +:+ pretty (t / 10)%Z +:+ "." +:+ pretty (t mod 10)%Z)%string.

(** [f"{day_number}"] for an [int | None]. *)
Definition fmt_day (d : option Z) : string :=
  match d with
  | Some z => pretty z
  | None => "None"
  end.

Definition _add_alert (alerts : list Alert) (level rule message : string)
           (day : option Z) : list Alert :=
  alerts ++ [mkAlert level rule message day].

(** [x or 0.0] for an optional number. *)
Definition or_zero (x : option Q) : Q :=
  match x with
  | Some q => if Qeq_bool q 0 then 0 else q
  | None => 0
  end.

Definition minutes_raw (minutes hours : option Q) : option Q :=
  match minutes with
  | Some m => Some m
  | None =>
      match hours with
      | Some h => Some (h * 60)
      | None => None
      end
  end.

Definition driving_hours (p : LogPayload) : Q :=
  or_zero (minutes_raw (total_driving_minutes p) (total_driving_hours p)) / 60.

Definition on_duty_hours (p : LogPayload) : Q :=
  or_zero (minutes_raw (total_on_duty_minutes p) (total_on_duty_hours p)) / 60.

(** The body of [for payload in log_payloads]. *)
Definition evaluate_day (alerts : list Alert) (payload : LogPayload)
  : list Alert :=
  let day_number :=
    match default 0%Z (day_number payload) with
    | 0%Z => None
    | z => Some z
    end in
  let remaining_cycle := remaining_cycle_hours payload in
  let driving := driving_hours payload in
  let on_duty := on_duty_hours payload in
  let alerts :=
    if Py.Qlt_bool (Hos.DRIVING_LIMIT_PER_DAY + EPSILON) driving then
      _add_alert alerts "danger" RULE_DRIVING
        ("Day " +:+ fmt_day day_number +:+ ": planned driving of "
           +:+ fmt1 driving +:+ " hrs exceeds FMCSA 11-hour limit.")
        day_number
    else if Qle_bool (Hos.DRIVING_LIMIT_PER_DAY * (95 # 100)) driving then
      _add_alert alerts "warning" RULE_DRIVING
        ("Day " +:+ fmt_day day_number +:+ ": driving scheduled for "
           +:+ fmt1 driving +:+ " hrs is near the 11-hour limit.")
        day_number
    else alerts in
  let alerts :=
    if Py.Qlt_bool (Hos.ON_DUTY_LIMIT_PER_DAY + EPSILON) on_duty then
      _add_alert alerts "danger" RULE_ON_DUTY
        ("Day " +:+ fmt_day day_number +:+ ": on-duty time of "
           +:+ fmt1 on_duty +:+ " hrs exceeds FMCSA 14-hour limit.")
        day_number
    else if Qle_bool (Hos.ON_DUTY_LIMIT_PER_DAY * (95 # 100)) on_duty then
      _add_alert alerts "warning" RULE_ON_DUTY
        ("Day " +:+ fmt_day day_number +:+ ": on-duty plan "
           +:+ fmt1 on_duty +:+ " hrs is near the 14-hour limit.")
        day_number
    else alerts in
  match remaining_cycle with
  | Some remaining_cycle =>
      if Py.Qlt_bool remaining_cycle (- EPSILON) then
        _add_alert alerts "danger" RULE_CYCLE
          "Cycle hours exceeded. Schedule requires reset before completion."
          day_number
      else if Qle_bool remaining_cycle 8 then
        _add_alert alerts "warning" RULE_CYCLE
          ("Cycle hours low: " +:+ fmt1 remaining_cycle
             +:+ " hrs remain after day " +:+ fmt_day day_number +:+ ".")
          day_number
      else alerts
  | None => alerts
  end.

Definition entry_on_duty_hours (entry : LogPayload) : Q :=
  match total_on_duty_minutes entry with
  | Some m => m / 60
  | None => default 0 (total_on_duty_hours entry)
  end.

Definition _evaluate_hos_alerts (log_payloads : list LogPayload)
           (cycle_hours_used : Q) : list Alert :=
  let alerts := fold_left evaluate_day log_payloads [] in
  let projected_cycle_usage :=
    cycle_hours_used
    + fold_left (fun acc entry => acc + entry_on_duty_hours entry)
                log_payloads 0 in
  if Qle_bool Hos.CYCLE_LIMIT_HOURS projected_cycle_usage then
    _add_alert alerts "danger" RULE_CYCLE
      "Trip plan consumes entire 70-hour cycle. Driver must reset before additional duty."
      None
  else if Qle_bool (Hos.CYCLE_LIMIT_HOURS * (9 # 10)) projected_cycle_usage then
    _add_alert alerts "warning" RULE_CYCLE
      "Trip plan uses over 90% of the 70-hour cycle. Monitor remaining hours closely."
      None
  else alerts.

(** The alerts raised for one rule. *)
Definition alerts_for (r : string) (alerts : list Alert) : list Alert :=
  filter (fun a => rule a = r) alerts.

End Alerts.

(** ** models.py *)

Inductive Exception : Type :=
| ValidationError (message : string)
| PermissionDenied (message : string)
| RoutePlannerError (message : string)
| TripPlanningError (message : string)
| OtherException (message : string).

Module Models.

Definition TRIP_STATUS_PLANNED : string := "PLANNED".
Definition TRIP_STATUS_IN_PROGRESS : string := "IN_PROGRESS".
Definition TRIP_STATUS_COMPLETED : string := "COMPLETED".
Definition TRIP_STATUS_CANCELLED : string := "CANCELLED".

(** A location dictionary [{lat, lng, address}]; [None] for a missing key. *)
Record Location : Type := mkLocation {
  lat : option Q;
  lng : option Q;
  address : option string
}.

Record Leg : Type := mkLeg {
  leg_sequence : Z;
  from_stop_type : string;
  to_stop_type : string;
  from_location : Location;
  to_location : Location;
  leg_distance_miles : Q;
  leg_duration_hours : Q
}.

Record ItinerarySummary : Type := mkItinerary {
  legs : list Leg;
  total_distance_miles : Q;
  total_duration_hours : Q;
  hos_alerts : list Alerts.Alert
}.

Record Trip : Type := mkTrip {
  trip_user : Z;
  start_location : Location;
  pickup_location : Location;
  dropoff_location : Location;
  tractor_number : string;
  trailer_numbers : list string;
  carrier_names : list string;
  main_office_address : string;
  home_terminal_address : string;
  co_driver_name : string;
  shipper_name : string;
  commodity : string;
  trip_status : string;
  cycle_hours_used : Q;
  total_miles : Q;
  total_hours : Q;
  itinerary_summary : option ItinerarySummary
}.

Definition set_trip_status (t : Trip) (s : string) : Trip :=
  {| trip_user := trip_user t;
     start_location := start_location t;
     pickup_location := pickup_location t;
     dropoff_location := dropoff_location t;
     tractor_number := tractor_number t;
     trailer_numbers := trailer_numbers t;
     carrier_names := carrier_names t;
     main_office_address := main_office_address t;
     home_terminal_address := home_terminal_address t;
     co_driver_name := co_driver_name t;
     shipper_name := shipper_name t;
     commodity := commodity t;
     trip_status := s;
     cycle_hours_used := cycle_hours_used t;
     total_miles := total_miles t;
     total_hours := total_hours t;
     itinerary_summary := itinerary_summary t |}.

Definition set_trip_totals (t : Trip) (miles hours : Q)
           (summary : ItinerarySummary) : Trip :=
  {| trip_user := trip_user t;
     start_location := start_location t;
     pickup_location := pickup_location t;
     dropoff_location := dropoff_location t;
     tractor_number := tractor_number t;
     trailer_numbers := trailer_numbers t;
     carrier_names := carrier_names t;
     main_office_address := main_office_address t;
     home_terminal_address := home_terminal_address t;
     co_driver_name := co_driver_name t;
     shipper_name := shipper_name t;
     commodity := commodity t;
     trip_status := trip_status t;
     cycle_hours_used := cycle_hours_used t;
     total_miles := miles;
     total_hours := hours;
     itinerary_summary := Some summary |}.

Record Route : Type := mkRoute {
  route_trip : Z;
  polyline : string;
  total_distance : Q;
  estimated_duration : Q
}.

Record Stop : Type := mkStop {
  stop_route : Z;
  stop_type : string;
  stop_location : Location;
  stop_duration_minutes : Z;
  stop_sequence : Z;
  distance_from_previous : Q;
  duration_from_previous : Q
}.

Definition STATUS_OFF_DUTY : string := "OFF_DUTY".
Definition STATUS_SLEEPER : string := "SLEEPER_BERTH".
Definition STATUS_DRIVING : string := "DRIVING".
Definition STATUS_ON_DUTY : string := "ON_DUTY".

Record DriverLog : Type := mkDriverLog {
  log_trip : Z;
  log_day_number : Z;
  log_date : Z;
  total_off_duty_minutes : Z;
  total_sleeper_minutes : Z;
  total_driving_minutes : Z;
  total_on_duty_minutes : Z;
  total_distance_miles_log : Q;
  notes : string
}.

(** A [datetime.time] with zero seconds. *)
Record time : Type := mkTime {
  hour : Z;
  minute : Z
}.

Record DutyStatusSegment : Type := mkDutySegment {
  segment_log : Z;
  segment_status : string;
  segment_start_time : time;
  segment_end_time : time;
  segment_location : string;
  segment_activity : string;
  segment_remarks : string
}.

Definition JOB_TYPE_PLAN_TRIP : string := "PLAN_TRIP".
Definition STATUS_PENDING : string := "PENDING".
Definition STATUS_RUNNING : string := "RUNNING".
Definition STATUS_SUCCESS : string := "SUCCESS".
Definition STATUS_FAILED : string := "FAILED".

(** The optional carrier fields of a planning request. *)
Record CarrierFields : Type := mkCarrierFields {
  cf_tractor_number : option string;
  cf_trailer_numbers : option (list string);
  cf_carrier_names : option (list string);
  cf_main_office_address : option string;
  cf_home_terminal_address : option string;
  cf_co_driver_name : option string;
  cf_shipper_name : option string;
  cf_commodity : option string
}.

(** The payload dictionary written by [enqueue_trip_job]. *)
Record JobPayload : Type := mkJobPayload {
  jp_start_location : Location;
  jp_pickup_location : Location;
  jp_dropoff_location : Location;
  jp_cycle_hours_used : option Q;
  jp_carrier : CarrierFields
}.

Record BackgroundJob : Type := mkJob {
  job_user : option Z;
  job_type : string;
  job_status : string;
  job_payload : JobPayload;
  job_result : option string;
  error_message : string;
  created_at : Z;
  started_at : option Z;
  completed_at : option Z
}.

(** [self.save(update_fields=[...])] writes the listed fields of the
    in-memory instance over the stored row. *)
Definition mark_running (now : Z) (j : BackgroundJob) : BackgroundJob :=
  {| job_user := job_user j; job_type := job_type j;
     job_status := STATUS_RUNNING;
     job_payload := job_payload j; job_result := job_result j;
     error_message := error_message j; created_at := created_at j;
     started_at := Some now; completed_at := completed_at j |}.

Definition mark_success (now : Z) (res : string) (j : BackgroundJob)
  : BackgroundJob :=
  {| job_user := job_user j; job_type := job_type j;
     job_status := STATUS_SUCCESS;
     job_payload := job_payload j; job_result := Some res;
     error_message := error_message j; created_at := created_at j;
     started_at := started_at j; completed_at := Some now |}.

Definition mark_failed (now : Z) (msg : string) (j : BackgroundJob)
  : BackgroundJob :=
  {| job_user := job_user j; job_type := job_type j;
     job_status := STATUS_FAILED;
     job_payload := job_payload j; job_result := job_result j;
     error_message := String.substring 0 2048 msg;
     created_at := created_at j;
     started_at := started_at j; completed_at := Some now |}.

(** The tables, keyed by primary key. *)
Record DB : Type := mkDB {
  trips : gmap Z Trip;
  routes : gmap Z Route;
  stops : gmap Z Stop;
  driver_logs : gmap Z DriverLog;
  duty_segments : gmap Z DutyStatusSegment;
  jobs : gmap Z BackgroundJob
}.

Definition with_trips (db : DB) (m : gmap Z Trip) : DB :=
  mkDB m (routes db) (stops db) (driver_logs db) (duty_segments db) (jobs db).
Definition with_routes (db : DB) (m : gmap Z Route) : DB :=
  mkDB (trips db) m (stops db) (driver_logs db) (duty_segments db) (jobs db).
Definition with_stops (db : DB) (m : gmap Z Stop) : DB :=
  mkDB (trips db) (routes db) m (driver_logs db) (duty_segments db) (jobs db).
Definition with_driver_logs (db : DB) (m : gmap Z DriverLog) : DB :=
  mkDB (trips db) (routes db) (stops db) m (duty_segments db) (jobs db).
Definition with_duty_segments (db : DB) (m : gmap Z DutyStatusSegment) : DB :=
  mkDB (trips db) (routes db) (stops db) (driver_logs db) m (jobs db).
Definition with_jobs (db : DB) (m : gmap Z BackgroundJob) : DB :=
  mkDB (trips db) (routes db) (stops db) (driver_logs db) (duty_segments db) m.

(** The key the database assigns to a new row. *)
Definition new_pk {A : Type} (table : gmap Z A) : Z := fresh (dom table).

(** [with transaction.atomic(): body]. *)
Definition atomic {A : Type} (body : DB -> result Exception A * DB) (db : DB)
  : result Exception A * DB :=
  match body db with
  | (Ok a, db') => (Ok a, db')
  | (Raise e, _) => (Raise e, db)
  end.

End Models.

(** ** services/logs.py *)

Module Logs.

Import Models.
Local Open Scope Z_scope.

Definition FIFTEEN_MINUTES : Z := 15.
Definition MINUTES_PER_DAY : Z := 24 * 60.
Definition VALID_STATUSES : list string :=
  [STATUS_OFF_DUTY; STATUS_SLEEPER; STATUS_DRIVING; STATUS_ON_DUTY].

(** The values found in a raw segment dictionary. *)
Inductive PyVal : Type :=
| PyNone
| PyStr (s : string).

(** [f"{v}"]. *)
Definition py_str (v : PyVal) : string :=
  match v with
  | PyNone => "None"
  | PyStr s => s
  end.

Record SegmentInput : Type := mkSegmentInput {
  status : PyVal;
  start_time : time;
  end_time : time;
  location : string;
  activity : string;
  remarks : string
}.

(** Comparison of [datetime.time] values: by hour, then by minute. *)
Definition time_lt (a b : time) : bool :=
  (hour a <? hour b) || ((hour a =? hour b) && (minute a <? minute b)).

Definition time_le (a b : time) : bool :=
  (hour a <? hour b) || ((hour a =? hour b) && (minute a <=? minute b)).

(** [duration_minutes]: both times are placed on today's date, and the
    difference in seconds is floor-divided by 60. *)
Definition duration_minutes_of (start_time end_time : time) : Z :=
  let start_dt := 3600 * hour start_time + 60 * minute start_time in
  let end_dt := 3600 * hour end_time + 60 * minute end_time in
  let delta := end_dt - start_dt in
  delta / 60.

Definition duration_minutes (s : SegmentInput) : Z :=
  duration_minutes_of (start_time s) (end_time s).

Definition status_valid (v : PyVal) : bool :=
  match v with
  | PyStr s => bool_decide (s ∈ VALID_STATUSES)
  | PyNone => false
  end.

Definition validate (s : SegmentInput) : result Exception unit :=
  if negb (status_valid (status s)) then
    Raise (ValidationError
             ("Unsupported duty status '" +:+ py_str (status s) +:+ "'"))
  else if time_le (end_time s) (start_time s) then
    Raise (ValidationError "Segment end_time must be after start_time")
  else
    let minutes := duration_minutes s in
    if negb (minutes mod FIFTEEN_MINUTES =? 0) then
      Raise (ValidationError "Duty segments must be in 15-minute increments")
    else Ok tt.

(** [datetime.strptime(value, "%H:%M")] on ASCII text: the hour is
    [2[0-3]|[0-1]\d|\d], the minute [[0-5]\d|\d], and no text may remain. *)
Definition digit (c : ascii) : option Z :=
  let n := Z.of_nat (nat_of_ascii c) in
  if (48 <=? n) && (n <=? 57) then Some (n - 48) else None.

Definition parse_hour (s : list ascii) : option (Z * list ascii) :=
  match s with
  | [] => None
  | c1 :: rest =>
      match digit c1 with
      | None => None
      | Some d1 =>
          match rest with
          | c2 :: rest' =>
              match digit c2 with
              | Some d2 =>
                  if ((d1 =? 2) && (d2 <=? 3)) || (d1 <=? 1)
                  then Some (10 * d1 + d2, rest')
                  else Some (d1, rest)
              | None => Some (d1, rest)
              end
          | [] => Some (d1, rest)
          end
      end
  end.

Definition parse_minute (s : list ascii) : option (Z * list ascii) :=
  match s with
  | [] => None
  | c1 :: rest =>
      match digit c1 with
      | None => None
      | Some d1 =>
          match rest with
          | c2 :: rest' =>
              match digit c2 with
              | Some d2 =>
                  if d1 <=? 5 then Some (10 * d1 + d2, rest')
                  else Some (d1, rest)
              | None => Some (d1, rest)
              end
          | [] => Some (d1, rest)
          end
      end
  end.

Definition strptime_HM (value : string) : option time :=
  match parse_hour (String.list_ascii_of_string value) with
  | Some (h, c :: rest) =>
      if Ascii.eqb c ":"%char then
        match parse_minute rest with
        | Some (m, []) => Some (mkTime h m)
        | _ => None
        end
      else None
  | _ => None
  end.

Definition _parse_time (label : string) (value : option PyVal)
  : result Exception time :=
  match value with
  | None | Some PyNone | Some (PyStr "") =>
      Raise (ValidationError ("Missing " +:+ label))
  | Some (PyStr v) =>
      match strptime_HM v with
      | Some t => Ok t
      | None =>
          Raise (ValidationError
                   ("Invalid " +:+ label +:+ " format; expected HH:MM"))
      end
  end.

(** [raw.get(key) or ""]. *)
Definition get_or_empty (raw : gmap string PyVal) (key : string) : string :=
  match raw !! key with
  | Some (PyStr s) => s
  | _ => ""
  end.

(** The body of the loop of [_normalise_segments] for one dictionary. *)
Definition normalise_segment (raw : gmap string PyVal)
  : result Exception SegmentInput :=
  let status := default (PyStr STATUS_OFF_DUTY) (raw !! "status") in
  match _parse_time "startTime" (raw !! "startTime") with
  | Raise e => Raise e
  | Ok start_time =>
      match _parse_time "endTime" (raw !! "endTime") with
      | Raise e => Raise e
      | Ok end_time =>
          let segment :=
            {| status := status;
               start_time := start_time;
               end_time := end_time;
               location := String.substring 0 255 (get_or_empty raw "location");
               activity := String.substring 0 255 (get_or_empty raw "activity");
               remarks := get_or_empty raw "remarks" |} in
          match validate segment with
          | Raise e => Raise e
          | Ok _ => Ok segment
          end
      end
  end.

Fixpoint _normalise_segments (raw_segments : list (gmap string PyVal))
  : result Exception (list SegmentInput) :=
  match raw_segments with
  | [] => Ok []
  | raw :: rest =>
      match normalise_segment raw with
      | Raise e => Raise e
      | Ok segment =>
          match _normalise_segments rest with
          | Raise e => Raise e
          | Ok segments => Ok (segment :: segments)
          end
      end
  end.

Definition initial_totals : gmap string Z :=
  {[ STATUS_OFF_DUTY := 0; STATUS_SLEEPER := 0;
     STATUS_DRIVING := 0; STATUS_ON_DUTY := 0 ]}.

(** [totals[segment.status] += minutes]; every validated status is a key. *)
Definition add_total (totals : gmap string Z) (s : PyVal) (minutes : Z)
  : gmap string Z :=
  alter (Z.add minutes) (py_str s) totals.

(** The accumulation loop of [upsert_driver_log]: totals, minute cursor
    and the end of the previous segment. *)
Fixpoint accumulate (segments : list SegmentInput) (totals : gmap string Z)
         (minutes_cursor : Z) (last_segment_end : option time)
  : result Exception (gmap string Z * Z) :=
  match segments with
  | [] => Ok (totals, minutes_cursor)
  | segment :: rest =>
      let minutes := duration_minutes segment in
      let totals := add_total totals (status segment) minutes in
      let minutes_cursor := minutes_cursor + minutes in
      match last_segment_end with
      | Some last_end =>
          if time_lt (start_time segment) last_end then
            Raise (ValidationError "Duty segments may not overlap")
          else accumulate rest totals minutes_cursor (Some (end_time segment))
      | None => accumulate rest totals minutes_cursor (Some (end_time segment))
      end
  end.

(** [DriverLog.objects.get_or_create(trip=, day_number=, defaults=)]. *)
Definition find_log (logs : gmap Z DriverLog) (trip_id day_number : Z)
  : option (Z * DriverLog) :=
  head (filter (fun kv => log_trip kv.2 = trip_id
                          ∧ log_day_number kv.2 = day_number)
               (map_to_list logs)).

(** [DutyStatusSegment.objects.bulk_create]. *)
Fixpoint bulk_create_segments (rows : list DutyStatusSegment)
         (table : gmap Z DutyStatusSegment) : gmap Z DutyStatusSegment :=
  match rows with
  | [] => table
  | row :: rest => bulk_create_segments rest (<[new_pk table := row]> table)
  end.

Definition upsert_body (user : Z) (trip_id : Z) (day_number : Z)
           (log_date : option Z) (notes : option string)
           (segments : list (gmap string PyVal))
           (total_distance_miles : option Q) (today : Z) (db : DB)
  : result Exception (Z * DriverLog) * DB :=
  if day_number <=? 0 then
    (Raise (ValidationError "dayNumber must be 1 or greater"), db)
  else
    match trips db !! trip_id with
    | Some trip =>
        if bool_decide (trip_user trip = user) then
          match _normalise_segments segments with
          | Raise e => (Raise e, db)
          | Ok [] =>
              (Raise (ValidationError "At least one duty segment is required"), db)
          | Ok parsed_segments =>
              match accumulate parsed_segments initial_totals 0 None with
              | Raise e => (Raise e, db)
              | Ok (totals, minutes_cursor) =>
                  if MINUTES_PER_DAY <? minutes_cursor then
                    (Raise (ValidationError "Daily duty segments exceed 24 hours"), db)
                  else
                    let log_date := default today log_date in
                    let '(log_id, existing) :=
                      match find_log (driver_logs db) trip_id day_number with
                      | Some (k, l) => (k, l)
                      | None =>
                          (new_pk (driver_logs db),
                           mkDriverLog trip_id day_number log_date 0 0 0 0 0%Q "")
                      end in
                    let driver_log :=
                      {| log_trip := log_trip existing;
                         log_day_number := log_day_number existing;
                         log_date := log_date;
                         notes := default "" notes;
                         total_off_duty_minutes :=
                           default 0 (totals !! STATUS_OFF_DUTY);
                         total_sleeper_minutes :=
                           default 0 (totals !! STATUS_SLEEPER);
                         total_driving_minutes :=
                           default 0 (totals !! STATUS_DRIVING);
                         total_on_duty_minutes :=
                           default 0 (totals !! STATUS_ON_DUTY);
                         total_distance_miles_log :=
                           default (total_distance_miles_log existing)
                                   total_distance_miles |} in
                    let db := with_driver_logs db
                                (<[log_id := driver_log]> (driver_logs db)) in
                    let kept :=
                      filter (fun kv => segment_log kv.2 ≠ log_id)
                             (duty_segments db) in
                    let duty_segments :=
                      map (fun segment =>
                             mkDutySegment log_id
                               (py_str (status segment))
                               (start_time segment) (end_time segment)
                               (location segment) (activity segment)
                               (remarks segment))
                          parsed_segments in
                    let db := with_duty_segments db
                                (bulk_create_segments duty_segments kept) in
                    (Ok (log_id, driver_log), db)
              end
          end
        else (Raise (PermissionDenied "Trip not found"), db)
    | None => (Raise (PermissionDenied "Trip not found"), db)
    end.

(** [@transaction.atomic def upsert_driver_log]. *)
Definition upsert_driver_log (user : Z) (trip_id : Z) (day_number : Z)
           (log_date : option Z) (notes : option string)
           (segments : list (gmap string PyVal))
           (total_distance_miles : option Q) (today : Z) (db : DB)
  : result Exception (Z * DriverLog) * DB :=
  atomic (upsert_body user trip_id day_number log_date notes segments
                      total_distance_miles today) db.

Definition delete_body (user : Z) (log_id : Z) (db : DB)
  : result Exception bool * DB :=
  match driver_logs db !! log_id with
  | None => (Ok false, db)
  | Some log =>
      (* select_related("trip") joins the trip row *)
      match trips db !! log_trip log with
      | None => (Ok false, db)
      | Some trip =>
          if bool_decide (trip_user trip ≠ user) then
            (Raise (PermissionDenied "Not allowed to modify this log"), db)
          else
            (* log.delete() cascades to the segments of the log *)
            let db := with_duty_segments db
                        (filter (fun kv => segment_log kv.2 ≠ log_id)
                                (duty_segments db)) in
            let db := with_driver_logs db (delete log_id (driver_logs db)) in
            (Ok true, db)
      end
  end.

(** [@transaction.atomic def delete_driver_log]. *)
Definition delete_driver_log (user : Z) (log_id : Z) (db : DB)
  : result Exception bool * DB :=
  atomic (delete_body user log_id) db.

End Logs.

(** ** services/openroute.py: [plan_route] *)

Module OpenRoute.

Import Models.
Local Open Scope Q_scope.

(** One route of the provider's JSON reply. *)
Record OrsSegment : Type := mkOrsSegment {
  ors_distance : option Q;
  ors_duration : option Q
}.

Record OrsRoute : Type := mkOrsRoute {
  summary_distance : option Q;
  summary_duration : option Q;
  ors_segments : list OrsSegment;
  geometry : option string
}.

(** What [requests.post] does: it raises a [RequestException], or returns
    a response with a status code, a text body and what [response.json()]
    makes of the body: its list of routes, or the message of the decoding
    error it raises when the body is not JSON. *)
Inductive HttpResult : Type :=
| NetworkError (exc : string)
| Response (status_code : Z) (text : string)
           (json : result string (list OrsRoute)).

(** The configuration and the network the service runs against. *)
Record Env : Type := mkEnv {
  api_key : option string;
  http_post : list (Q * Q) -> list Q -> HttpResult
}.

Record SegmentDetail : Type := mkSegmentDetail {
  distance_miles : Q;
  duration_minutes : Q;
  duration_hours : Q
}.

Record RouteData : Type := mkRouteData {
  rd_polyline : string;
  rd_total_distance_miles : Q;
  rd_total_duration_hours : Q;
  rd_segments : list SegmentDetail
}.

Definition _get_api_key (env : Env) : result Exception string :=
  match api_key env with
  | None | Some "" =>
      Raise (RoutePlannerError
               "OpenRouteService API key is not configured. Set OPENROUTESERVICE_API_KEY in the environment.")
  | Some k => Ok k
  end.

Fixpoint _build_coordinates (locations : list Location)
  : result Exception (list (Q * Q)) :=
  match locations with
  | [] => Ok []
  | location :: rest =>
      match lat location, lng location with
      | Some lat, Some lng =>
          match _build_coordinates rest with
          | Ok coordinates => Ok ((lng, lat) :: coordinates)
          | Raise e => Raise e
          end
      | _, _ =>
          Raise (RoutePlannerError
                   "Each location must include 'lat' and 'lng' values.")
      end
  end.

(** [_normalise_radiuses] for a single number. *)
Definition _normalise_radiuses (radius : Q) (count : nat) : list Q :=
  replicate count (Py.min2 radius 10000).

Definition plan_route (env : Env) (locations : list Location)
           (search_radius_meters : Q) : result Exception RouteData :=
  match _get_api_key env with
  | Raise e => Raise e
  | Ok _ =>
      match _build_coordinates locations with
      | Raise e => Raise e
      | Ok coordinates =>
          match http_post env coordinates
                  (_normalise_radiuses search_radius_meters
                                       (length coordinates)) with
          | NetworkError exc =>
              Raise (RoutePlannerError
                       ("Failed to contact OpenRouteService: " +:+ exc))
          | Response status_code text json =>
              if negb (status_code =? 200)%Z then
                Raise (RoutePlannerError
                         ("OpenRouteService error (" +:+ pretty status_code
                            +:+ "): " +:+ text))
              else
                match json with
                | Raise message =>
                    (* response.json() raises the decoder's error *)
                    Raise (OtherException message)
                | Ok [] =>
                    Raise (RoutePlannerError
                             "OpenRouteService returned no routes for the given coordinates.")
                | Ok (route :: _) =>
                    let segment_details :=
                      map (fun segment =>
                             {| distance_miles := default 0 (ors_distance segment);
                                duration_minutes :=
                                  default 0 (ors_duration segment) / 60;
                                duration_hours :=
                                  default 0 (ors_duration segment) / 3600 |})
                          (ors_segments route) in
                    Ok {| rd_polyline := default "" (geometry route);
                          rd_total_distance_miles :=
                            default 0 (summary_distance route);
                          rd_total_duration_hours :=
                            default 0 (summary_duration route) / 3600;
                          rd_segments := segment_details |}
                end
          end
      end
  end.

End OpenRoute.

(** ** services/trip_planner.py: planning and background jobs *)

Module TripPlanner.

Import Models.
Local Open Scope Q_scope.

(** [str(exc)]. *)
Definition exception_str (e : Exception) : string :=
  match e with
  | ValidationError m | PermissionDenied m | RoutePlannerError m
  | TripPlanningError m | OtherException m => m
  end.

Record StopDefinition : Type := mkStopDefinition {
  sd_type : string;
  sd_location : Location;
  sd_distance_from_previous : Q;
  sd_duration_from_previous : Q
}.

Definition _build_stop_definitions (locations : list Location)
  : list StopDefinition :=
  map (fun '(label, location) => mkStopDefinition label location 0 0)
      (zip ["START"; "PICKUP"; "DROPOFF"]%string locations).

(** The [for idx in range(1, len(stop_definitions))] loop: [previous] is
    [stop_definitions[idx - 1]], [pending] the stops from [idx] on.  It
    returns the updated stops from [idx] on and the legs. *)
Fixpoint build_legs (idx : nat) (segments : list OpenRoute.SegmentDetail)
         (previous : StopDefinition) (pending : list StopDefinition)
  : list StopDefinition * list Leg :=
  match pending with
  | [] => ([], [])
  | current :: rest =>
      (* segments[idx - 1] if idx - 1 < len(segments) else {} *)
      let segment := segments !! (idx - 1)%nat in
      let distance :=
        match segment with
        | Some s => OpenRoute.distance_miles s
        | None => 0
        end in
      let duration_hours :=
        match segment with
        | Some s => OpenRoute.duration_hours s
        | None => 0 / 60
        end in
      let current :=
        mkStopDefinition (sd_type current) (sd_location current)
                         distance duration_hours in
      let leg :=
        {| leg_sequence := Z.of_nat idx;
           from_stop_type := sd_type previous;
           to_stop_type := sd_type current;
           from_location := sd_location previous;
           to_location := sd_location current;
           leg_distance_miles := distance;
           leg_duration_hours := duration_hours |} in
      let '(stops, legs) := build_legs (S idx) segments current rest in
      (current :: stops, leg :: legs)
  end.

(** [Stop.objects.bulk_create] of the enumerated definitions. *)
Fixpoint bulk_create_stops (route_id : Z) (index : Z)
         (definitions : list StopDefinition) (table : gmap Z Stop)
  : gmap Z Stop :=
  match definitions with
  | [] => table
  | definition :: rest =>
      bulk_create_stops route_id (index + 1) rest
        (<[new_pk table :=
             {| stop_route := route_id;
                stop_type := sd_type definition;
                stop_location := sd_location definition;
                stop_duration_minutes := 0;
                stop_sequence := index;
                distance_from_previous := sd_distance_from_previous definition;
                duration_from_previous := sd_duration_from_previous definition
             |}]> table)
  end.

(** The body of the [with transaction.atomic():] block. *)
Definition plan_trip_body (env : OpenRoute.Env) (user : Z)
           (start_location pickup_location dropoff_location : Location)
           (cycle_hours_used : Q) (carrier : CarrierFields) (db : DB)
  : result Exception (Z * Trip) * DB :=
  let trip_id := new_pk (trips db) in
  let trip :=
    {| trip_user := user;
       start_location := start_location;
       pickup_location := pickup_location;
       dropoff_location := dropoff_location;
       cycle_hours_used := cycle_hours_used;
       trip_status := "PLANNED";
       tractor_number := default "" (cf_tractor_number carrier);
       trailer_numbers := default [] (cf_trailer_numbers carrier);
       carrier_names := default [] (cf_carrier_names carrier);
       main_office_address := default "" (cf_main_office_address carrier);
       home_terminal_address := default "" (cf_home_terminal_address carrier);
       co_driver_name := default "" (cf_co_driver_name carrier);
       shipper_name := default "" (cf_shipper_name carrier);
       commodity := default "" (cf_commodity carrier);
       total_miles := 0;
       total_hours := 0;
       itinerary_summary := None |} in
  let db := with_trips db (<[trip_id := trip]> (trips db)) in
  match OpenRoute.plan_route env
          [start_location; pickup_location; dropoff_location] 5000 with
  | Raise (RoutePlannerError msg) => (Raise (TripPlanningError msg), db)
  | Raise e => (Raise e, db)
  | Ok route_data =>
      let route_id := new_pk (routes db) in
      let route :=
        {| route_trip := trip_id;
           polyline := OpenRoute.rd_polyline route_data;
           total_distance := OpenRoute.rd_total_distance_miles route_data;
           estimated_duration := OpenRoute.rd_total_duration_hours route_data
        |} in
      let db := with_routes db (<[route_id := route]> (routes db)) in
      let stop_definitions :=
        _build_stop_definitions
          [start_location; pickup_location; dropoff_location] in
      let segments := OpenRoute.rd_segments route_data in
      let '(stop_definitions, legs_payload) :=
        match stop_definitions with
        | [] => ([], [])
        | first :: rest =>
            let '(stops, legs) := build_legs 1 segments first rest in
            (first :: stops, legs)
        end in
      let db := with_stops db
                  (bulk_create_stops route_id 1 stop_definitions (stops db)) in
      let trip :=
        set_trip_totals trip (total_distance route) (estimated_duration route)
          {| legs := legs_payload;
             total_distance_miles := total_distance route;
             total_duration_hours := estimated_duration route;
             hos_alerts := [] |} in
      let db := with_trips db (<[trip_id := trip]> (trips db)) in
      (Ok (trip_id, trip), db)
  end.

Definition plan_trip_for_user (env : OpenRoute.Env) (user : option Z)
           (start_location pickup_location dropoff_location : Location)
           (cycle_hours_used : Q) (carrier : CarrierFields) (db : DB)
  : result Exception (Z * Trip) * DB :=
  match user with
  | None =>
      (Raise (TripPlanningError "A valid user is required to plan a trip."), db)
  | Some user =>
      atomic (plan_trip_body env user start_location pickup_location
                             dropoff_location cycle_hours_used carrier) db
  end.

(** [value if value else absent], for the optional payload keys. *)
Definition truthy_str (v : option string) : option string :=
  match v with
  | Some "" => None
  | _ => v
  end.

Definition truthy_list (v : option (list string)) : option (list string) :=
  match v with
  | Some [] => None
  | _ => v
  end.

Definition enqueue_trip_job (now : Z) (user : Z)
           (start_location pickup_location dropoff_location : Location)
           (cycle_hours_used : Q) (carrier : CarrierFields) (db : DB)
  : (Z * BackgroundJob) * DB :=
  let payload :=
    {| jp_start_location := start_location;
       jp_pickup_location := pickup_location;
       jp_dropoff_location := dropoff_location;
       jp_cycle_hours_used := Some cycle_hours_used;
       jp_carrier :=
         {| cf_tractor_number := truthy_str (cf_tractor_number carrier);
            cf_trailer_numbers := truthy_list (cf_trailer_numbers carrier);
            cf_carrier_names := truthy_list (cf_carrier_names carrier);
            cf_main_office_address :=
              truthy_str (cf_main_office_address carrier);
            cf_home_terminal_address :=
              truthy_str (cf_home_terminal_address carrier);
            cf_co_driver_name := truthy_str (cf_co_driver_name carrier);
            cf_shipper_name := truthy_str (cf_shipper_name carrier);
            cf_commodity := truthy_str (cf_commodity carrier) |} |} in
  let job :=
    {| job_user := Some user;
       job_type := JOB_TYPE_PLAN_TRIP;
       job_status := STATUS_PENDING;
       job_payload := payload;
       job_result := None;
       error_message := "";
       created_at := now;
       started_at := None;
       completed_at := None |} in
  let job_id := new_pk (jobs db) in
  ((job_id, job), with_jobs db (<[job_id := job]> (jobs db))).

Definition _run_trip_job (env : OpenRoute.Env) (job : BackgroundJob) (db : DB)
  : result Exception (Z * Trip) * DB :=
  let payload := job_payload job in
  let user := job_user job in
  let cycle_hours_used := default 0 (jp_cycle_hours_used payload) in
  match user with
  | None =>
      (Raise (TripPlanningError
                "Associated user no longer exists for this job."), db)
  | Some _ =>
      plan_trip_for_user env user (jp_start_location payload)
        (jp_pickup_location payload) (jp_dropoff_location payload)
        cycle_hours_used (jp_carrier payload) db
  end.

(** [instance.save(update_fields=...)] after one of the [mark_*] methods:
    the same field update lands on the stored row. *)
Definition save_job (job_id : Z) (f : BackgroundJob -> BackgroundJob) (db : DB)
  : DB :=
  with_jobs db (alter f job_id (jobs db)).

(** What the [try] statement of the job runners does with one job. *)
Definition run_and_mark (env : OpenRoute.Env) (now : Z) (job_id : Z)
           (job : BackgroundJob) (db : DB) : BackgroundJob * DB :=
  let job := mark_running now job in
  let db := save_job job_id (mark_running now) db in
  match _run_trip_job env job db with
  | (Ok (trip_id, _), db) =>
      (mark_success now (pretty trip_id) job,
       save_job job_id (mark_success now (pretty trip_id)) db)
  | (Raise (TripPlanningError message), db) =>
      (mark_failed now message job, save_job job_id (mark_failed now message) db)
  | (Raise exc, db) =>
      (mark_failed now (exception_str exc) job,
       save_job job_id (mark_failed now (exception_str exc)) db)
  end.

(** [filter(job_type=PLAN_TRIP, status=PENDING).order_by('created_at')[:limit]]. *)
Definition created_le (a b : Z * BackgroundJob) : Prop :=
  (created_at a.2 <= created_at b.2)%Z.

#[export] Instance created_le_dec : RelDecision created_le :=
  fun a b => Z_le_dec (created_at a.2) (created_at b.2).

Definition pending_jobs (limit : nat) (db : DB) : list (Z * BackgroundJob) :=
  take limit
    (merge_sort created_le
       (filter (fun kv : Z * BackgroundJob =>
                  job_type kv.2 = JOB_TYPE_PLAN_TRIP
                  ∧ job_status kv.2 = STATUS_PENDING)
               (map_to_list (jobs db)))).

Fixpoint process_jobs (env : OpenRoute.Env) (now : Z)
         (pending : list (Z * BackgroundJob)) (processed : list (Z * BackgroundJob))
         (db : DB) : list (Z * BackgroundJob) * DB :=
  match pending with
  | [] => (processed, db)
  | (job_id, job) :: rest =>
      let '(job, db) := run_and_mark env now job_id job db in
      process_jobs env now rest (processed ++ [(job_id, job)]) db
  end.

Definition process_pending_trip_jobs (env : OpenRoute.Env) (now : Z)
           (limit : nat) (db : DB) : list (Z * BackgroundJob) * DB :=
  process_jobs env now (pending_jobs limit db) [] db.

Definition run_job (env : OpenRoute.Env) (now : Z) (job_id : Z) (db : DB)
  : result Exception BackgroundJob * DB :=
  match jobs db !! job_id with
  | None => (Raise (OtherException "BackgroundJob matching query does not exist."), db)
  | Some job =>
      if bool_decide (job_status job ∉ [STATUS_PENDING; STATUS_RUNNING]) then
        (Ok job, db)
      else
        let '(job, db) := run_and_mark env now job_id job db in
        (Ok job, db)
  end.

End TripPlanner.

(** ** schema/mutations.py: [UpdateTripStatus] and [DeleteDriverLog] *)

Module Mutations.

Import Models.

(** [str.strip()] and [str.upper()] on ASCII text. *)
Definition is_space (c : ascii) : bool :=
  let n := nat_of_ascii c in
  ((9 <=? n)%nat && (n <=? 13)%nat) || ((28 <=? n)%nat && (n <=? 32)%nat).

Fixpoint lstrip (s : list ascii) : list ascii :=
  match s with
  | [] => []
  | c :: rest => if is_space c then lstrip rest else s
  end.

Definition strip (s : string) : string :=
  String.string_of_list_ascii
    (rev (lstrip (rev (lstrip (String.list_ascii_of_string s))))).

Definition upper_char (c : ascii) : ascii :=
  let n := nat_of_ascii c in
  if (97 <=? n)%nat && (n <=? 122)%nat then ascii_of_nat (n - 32) else c.

Definition upper (s : string) : string :=
  String.string_of_list_ascii (map upper_char (String.list_ascii_of_string s)).

Record UpdateTripStatusPayload : Type := mkUpdateTripStatus {
  success : bool;
  trip : option (Z * Trip);
  errors : list string
}.

(** [Trip.objects.filter(user=user, status=IN_PROGRESS).exclude(pk=pk)]. *)
Definition existing_active (db : DB) (user pk : Z) : gmap Z Trip :=
  filter (fun kv : Z * Trip =>
            trip_user kv.2 = user
            ∧ trip_status kv.2 = TRIP_STATUS_IN_PROGRESS
            ∧ kv.1 ≠ pk)
         (trips db).

(** [trip.save(update_fields=["status", "updated_at"])] under the
    constraint [unique_active_trip_per_user] of [Trip.Meta]: the update is
    refused when it would leave two IN_PROGRESS rows for one user. *)
Definition save_status (pk : Z) (t : Trip) (db : DB)
  : result Exception unit * DB :=
  if bool_decide (trip_status t = TRIP_STATUS_IN_PROGRESS
                  ∧ existing_active db (trip_user t) pk ≠ ∅) then
    (Raise (OtherException
              "UNIQUE constraint failed: unique_active_trip_per_user"), db)
  else
    (Ok tt,
     with_trips db
       (alter (fun row => set_trip_status row (trip_status t)) pk (trips db))).

Definition mutate (user : Z) (trip_id : Z) (status : string) (db : DB)
  : result Exception UpdateTripStatusPayload * DB :=
  match trips db !! trip_id with
  | None => (Ok (mkUpdateTripStatus false None ["Trip not found"]), db)
  | Some trip =>
      if bool_decide (trip_user trip ≠ user) then
        (Ok (mkUpdateTripStatus false None ["Trip not found"]), db)
      else
        let normalised_status := upper (strip status) in
        let valid_statuses :=
          [TRIP_STATUS_PLANNED; TRIP_STATUS_IN_PROGRESS;
           TRIP_STATUS_COMPLETED; TRIP_STATUS_CANCELLED] in
        if bool_decide (normalised_status ∉ valid_statuses) then
          (Ok (mkUpdateTripStatus false None ["Invalid status value"]), db)
        else if bool_decide (normalised_status = TRIP_STATUS_IN_PROGRESS
                             ∧ existing_active db user trip_id ≠ ∅) then
          (Ok (mkUpdateTripStatus false None
                 ["Another trip is already in progress"]), db)
        else if bool_decide
                  (trip_status trip = TRIP_STATUS_IN_PROGRESS
                   ∧ normalised_status
                       ∉ [TRIP_STATUS_IN_PROGRESS; TRIP_STATUS_COMPLETED]) then
          (Ok (mkUpdateTripStatus false None
                 ["Routes already in progress can only be marked as completed."]),
           db)
        else if bool_decide (trip_status trip ≠ TRIP_STATUS_PLANNED
                             ∧ normalised_status = TRIP_STATUS_PLANNED) then
          (Ok (mkUpdateTripStatus false None
                 ["Only routes still in planning can be marked as planned."]),
           db)
        else
          let trip := set_trip_status trip normalised_status in
          match save_status trip_id trip db with
          | (Raise e, db) => (Raise e, db)
          | (Ok _, db) => (Ok (mkUpdateTripStatus true (Some (trip_id, trip)) []), db)
          end
  end.

Record DeleteDriverLogPayload : Type := mkDeleteDriverLog {
  delete_success : bool;
  delete_errors : list string
}.

(** [DeleteDriverLog.mutate].  The module never imports [PermissionDenied],
    so when [delete_driver_log] raises, looking the name up for the [except]
    clause raises a NameError, and that is what the caller gets. *)
Definition delete_driver_log_mutate (user : Z) (log_id : Z) (db : DB)
  : result Exception DeleteDriverLogPayload * DB :=
  match Logs.delete_driver_log user log_id db with
  | (Raise _, db) =>
      (Raise (OtherException "name 'PermissionDenied' is not defined"), db)
  | (Ok false, db) =>
      (Ok (mkDeleteDriverLog false ["Driver log not found"]), db)
  | (Ok true, db) => (Ok (mkDeleteDriverLog true []), db)
  end.

(** At most one IN_PROGRESS trip per user. *)
Definition one_active_trip_per_user (db : DB) : Prop :=
  forall k1 k2 t1 t2,
    trips db !! k1 = Some t1 -> trips db !! k2 = Some t2 ->
    trip_user t1 = trip_user t2 ->
    trip_status t1 = TRIP_STATUS_IN_PROGRESS ->
    trip_status t2 = TRIP_STATUS_IN_PROGRESS ->
    k1 = k2.

End Mutations.

(** ** views/reports.py: how a stored time is printed *)

Module Reports.

Import Models.

Definition digit_char (d : Z) : ascii := ascii_of_nat (Z.to_nat (48 + d)).

(** [%H] and [%M] of [strftime]: two digits, zero-padded. *)
Definition two_digits (n : Z) : list ascii :=
  [digit_char (n / 10); digit_char (n mod 10)].

(** [segment.start_time.strftime("%H:%M")]. *)
Definition strftime_HM (t : time) : string :=
  String.string_of_list_ascii
    (two_digits (hour t) ++ ":"%char :: two_digits (minute t)).

End Reports.

(** ** schema/mutations.py: segments, trip planning and trip deletion *)

Module TripMutations.

Import Models Logs.

(** [d.get(key)]: the value, [None] when the key is absent. *)
Definition get (d : gmap string PyVal) (key : string) : PyVal :=
  default PyNone (d !! key).

(** [a or b] on values that are [None] or strings. *)
Definition py_or (a b : PyVal) : PyVal :=
  match a with
  | PyStr (String _ _) => a
  | _ => b
  end.

(** The dictionary that [_serialise_segments] builds for one segment. *)
Definition serialise_segment (segment : gmap string PyVal)
  : gmap string PyVal :=
  {[ "status" := get segment "status";
     "startTime" := py_or (get segment "start_time") (get segment "startTime");
     "endTime" := py_or (get segment "end_time") (get segment "endTime");
     "location" := get segment "location";
     "activity" := get segment "activity";
     "remarks" := get segment "remarks" ]}.

Definition _serialise_segments (segments : list (gmap string PyVal))
  : list (gmap string PyVal) :=
  map serialise_segment segments.

(** The fields of [PlanTripInput]; [_location_to_dict] keeps the fields of
    a location that are not [None], which is how [Location] stores them. *)
Record PlanTripInput : Type := mkPlanTripInput {
  in_start_location : Location;
  in_pickup_location : Location;
  in_dropoff_location : Location;
  in_cycle_hours_used : Q;
  in_carrier : CarrierFields;
  run_async : bool
}.

Record PlanTripPayload : Type := mkPlanTrip {
  plan_success : bool;
  plan_trip : option (Z * Trip);
  plan_job : option (Z * BackgroundJob);
  plan_errors : list string
}.

(** The [for key, value in optional_kwargs.items(): if value:] loop: the
    keyword arguments that are passed on. *)
Definition optional_kwargs (carrier : CarrierFields) : CarrierFields :=
  {| cf_tractor_number := TripPlanner.truthy_str (cf_tractor_number carrier);
     cf_trailer_numbers := TripPlanner.truthy_list (cf_trailer_numbers carrier);
     cf_carrier_names := TripPlanner.truthy_list (cf_carrier_names carrier);
     cf_main_office_address :=
       TripPlanner.truthy_str (cf_main_office_address carrier);
     cf_home_terminal_address :=
       TripPlanner.truthy_str (cf_home_terminal_address carrier);
     cf_co_driver_name := TripPlanner.truthy_str (cf_co_driver_name carrier);
     cf_shipper_name := TripPlanner.truthy_str (cf_shipper_name carrier);
     cf_commodity := TripPlanner.truthy_str (cf_commodity carrier) |}.

(** [PlanTrip.mutate] for the authenticated [user]. *)
Definition plan_trip_mutate (env : OpenRoute.Env) (now : Z) (user : Z)
           (input : PlanTripInput) (db : DB) : PlanTripPayload * DB :=
  if run_async input then
    let '(job, db) :=
      TripPlanner.enqueue_trip_job now user (in_start_location input)
        (in_pickup_location input) (in_dropoff_location input)
        (in_cycle_hours_used input) (optional_kwargs (in_carrier input)) db in
    (mkPlanTrip true None (Some job) [], db)
  else
    match TripPlanner.plan_trip_for_user env (Some user)
            (in_start_location input) (in_pickup_location input)
            (in_dropoff_location input) (in_cycle_hours_used input)
            (in_carrier input) db with
    | (Ok trip, db) => (mkPlanTrip true (Some trip) None [], db)
    | (Raise (TripPlanningError message), db) =>
        (mkPlanTrip false None None [message], db)
    | (Raise exc, db) =>
        (mkPlanTrip false None None [TripPlanner.exception_str exc], db)
    end.

Record DeleteTripPayload : Type := mkDeleteTrip {
  delete_trip_success : bool;
  delete_trip_errors : list string
}.

(** Whether a stop or a segment hangs from the trip, through its route or
    its log: the rows that [trip.delete()] removes through the CASCADE
    foreign keys, beside the routes and the logs of the trip. *)
Definition stop_of_trip (db : DB) (trip_id : Z) (s : Stop) : Prop :=
  match routes db !! stop_route s with
  | Some r => route_trip r = trip_id
  | None => False
  end.

Definition segment_of_trip (db : DB) (trip_id : Z) (s : DutyStatusSegment)
  : Prop :=
  match driver_logs db !! segment_log s with
  | Some l => log_trip l = trip_id
  | None => False
  end.

#[export] Instance stop_of_trip_dec db trip_id s :
  Decision (stop_of_trip db trip_id s).
Proof. unfold stop_of_trip. destruct (routes db !! stop_route s); apply _. Defined.

#[export] Instance segment_of_trip_dec db trip_id s :
  Decision (segment_of_trip db trip_id s).
Proof.
  unfold segment_of_trip. destruct (driver_logs db !! segment_log s); apply _.
Defined.

(** [trip.delete()]. *)
Definition delete_trip (trip_id : Z) (db : DB) : DB :=
  mkDB (delete trip_id (trips db))
       (filter (fun kv => route_trip kv.2 <> trip_id) (routes db))
       (filter (fun kv => ~ stop_of_trip db trip_id kv.2) (stops db))
       (filter (fun kv => log_trip kv.2 <> trip_id) (driver_logs db))
       (filter (fun kv => ~ segment_of_trip db trip_id kv.2) (duty_segments db))
       (jobs db).

(** [DeleteTrip.mutate] for the authenticated [user]. *)
Definition delete_trip_mutate (user : Z) (trip_id : Z) (db : DB)
  : DeleteTripPayload * DB :=
  match trips db !! trip_id with
  | Some trip =>
      if bool_decide (trip_user trip = user) then
        if bool_decide (trip_status trip <> TRIP_STATUS_PLANNED) then
          (mkDeleteTrip false ["Only planned routes can be deleted."], db)
        else (mkDeleteTrip true [], delete_trip trip_id db)
      else (mkDeleteTrip false ["Trip not found"], db)
  | None => (mkDeleteTrip false ["Trip not found"], db)
  end.

End TripMutations.

(** * Vocabulary of the properties, and sample data *)

(** The bounds a planned day must meet: the hour values it was planned
    with, and the minute totals written to its payload. *)
Definition day_within_limits (d : Hos.DayPlan) : Prop :=
  (Hos.planned_driving d <= Hos.DRIVING_LIMIT_PER_DAY)%Q
  /\ (Hos.planned_on_duty d <= Hos.ON_DUTY_LIMIT_PER_DAY)%Q
  /\ (Hos.total_driving_minutes (Hos.summary d) <= 660)%Z
  /\ (Hos.total_on_duty_minutes (Hos.summary d) <= 840)%Z.

(** The levels of the alerts that the evaluator raises for the 11-hour
    driving rule on a plan of the single day [p]. *)
Definition driving_alert_levels (p : Alerts.LogPayload) (cycle_hours_used : Q)
  : list string :=
  map Alerts.level
      (Alerts.alerts_for Alerts.RULE_DRIVING
         (Alerts._evaluate_hos_alerts [p] cycle_hours_used)).

(** A day of 660 driving minutes and 780 on-duty minutes, as the scheduler
    emits it for a long trip. *)
Definition day_660 : Alerts.LogPayload :=
  Alerts.mkLogPayload (Some 1%Z) (Some 660%Q) None (Some 780%Q) None (Some 57%Q).

(** The start and end time of a raw segment, when both parse. *)
Definition raw_times (raw : gmap string Logs.PyVal)
  : option (Models.time * Models.time) :=
  match Logs._parse_time "startTime" (raw !! "startTime"),
        Logs._parse_time "endTime" (raw !! "endTime") with
  | Ok s, Ok e => Some (s, e)
  | _, _ => None
  end.

Definition raw_duration (raw : gmap string Logs.PyVal) : Z :=
  match raw_times raw with
  | Some (s, e) => Logs.duration_minutes_of s e
  | None => 0
  end.

(** Some segment starts strictly before the end of the segment before it. *)
Definition has_overlap (segments : list (gmap string Logs.PyVal)) : Prop :=
  exists before r1 r2 after s1 e1 s2 e2,
    segments = before ++ r1 :: r2 :: after
    /\ raw_times r1 = Some (s1, e1) /\ raw_times r2 = Some (s2, e2)
    /\ Logs.time_lt s2 e1 = true.

(** Some segment lasts a number of minutes that 15 does not divide. *)
Definition has_off_grid_duration (segments : list (gmap string Logs.PyVal))
  : Prop :=
  exists r s e,
    r ∈ segments /\ raw_times r = Some (s, e)
    /\ (Logs.duration_minutes_of s e mod 15 <> 0)%Z.

(** The segment durations add up to more than 1440 minutes. *)
Definition exceeds_a_day (segments : list (gmap string Logs.PyVal)) : Prop :=
  (1440 < foldr (fun r acc => raw_duration r + acc) 0 segments)%Z.

Definition rejected_segments (segments : list (gmap string Logs.PyVal))
  : Prop :=
  has_overlap segments \/ has_off_grid_duration segments
  \/ exceeds_a_day segments.

(** The trip exists and belongs to the user. *)
Definition owns_trip (db : Models.DB) (user trip_id : Z) : Prop :=
  exists t, Models.trips db !! trip_id = Some t /\ Models.trip_user t = user.

(** The trip exists and belongs to somebody else. *)
Definition foreign_trip (db : Models.DB) (user trip_id : Z) : Prop :=
  exists t, Models.trips db !! trip_id = Some t /\ Models.trip_user t <> user.

(** The log exists, on a trip that belongs to somebody else. *)
Definition foreign_log (db : Models.DB) (user log_id : Z) : Prop :=
  exists l t,
    Models.driver_logs db !! log_id = Some l
    /\ Models.trips db !! Models.log_trip l = Some t
    /\ Models.trip_user t <> user.

Definition sample_location : Models.Location :=
  Models.mkLocation (Some (3405 # 100)) (Some (- (11824 # 100))) (Some "Los Angeles").

Definition sample_trip (user : Z) (status : string) : Models.Trip :=
  Models.mkTrip user sample_location sample_location sample_location
    "" [] [] "" "" "" "" "" status 0 0 0 None.

(** Trip 1 of user 1, with the log 5 of its first day. *)
Definition sample_db : Models.DB :=
  Models.mkDB {[ 1%Z := sample_trip 1 "PLANNED" ]} ∅ ∅
    {[ 5%Z := Models.mkDriverLog 1 1 100 0 0 0 0 0 "" ]} ∅ ∅.

Definition raw_segment (status start_time end_time : string)
  : gmap string Logs.PyVal :=
  {[ "status" := Logs.PyStr status;
     "startTime" := Logs.PyStr start_time;
     "endTime" := Logs.PyStr end_time ]}.

(** Two segments, the second starting an hour before the first ends. *)
Definition overlapping_segments : list (gmap string Logs.PyVal) :=
  [ raw_segment "DRIVING" "08:00" "10:00";
    raw_segment "OFF_DUTY" "09:00" "10:30" ].

(** A segment dictionary without a "status" key. *)
Definition segment_without_status : gmap string Logs.PyVal :=
  {[ "startTime" := Logs.PyStr "08:00"; "endTime" := Logs.PyStr "10:00" ]}.

(** A job that reached one of the two final statuses. *)
Definition finished (j : Models.BackgroundJob) : Prop :=
  Models.job_status j = Models.STATUS_SUCCESS
  \/ Models.job_status j = Models.STATUS_FAILED.

(** Another trip of the user is IN_PROGRESS. *)
Definition other_active (db : Models.DB) (user trip_id : Z) : Prop :=
  exists k t,
    k <> trip_id /\ Models.trips db !! k = Some t
    /\ Models.trip_user t = user
    /\ Models.trip_status t = Models.TRIP_STATUS_IN_PROGRESS.

(** A configured service whose network is down. *)
Definition env_down : OpenRoute.Env :=
  OpenRoute.mkEnv (Some "key") (fun _ _ => OpenRoute.NetworkError "timed out").

(** User 1 with trip 1 IN_PROGRESS and trip 2 PLANNED. *)
Definition two_trips_db : Models.DB :=
  Models.mkDB {[ 1%Z := sample_trip 1 "IN_PROGRESS"; 2%Z := sample_trip 1 "PLANNED" ]}
    ∅ ∅ ∅ ∅ ∅.




(** What a successful normalisation says about a raw segment: its times
    parsed to those of the segment, and the segment passed [validate]. *)
Definition normalised (raw : gmap string Logs.PyVal) (seg : Logs.SegmentInput)
  : Prop :=
  raw_times raw = Some (Logs.start_time seg, Logs.end_time seg)
  /\ Logs.validate seg = Ok tt.

(** A configured service that answers every request with one route of 100
    miles and 20 hours in two legs. *)
Definition env_up : OpenRoute.Env :=
  OpenRoute.mkEnv (Some "key")
    (fun _ _ =>
       OpenRoute.Response 200 ""
         (Ok [OpenRoute.mkOrsRoute (Some 100%Q) (Some 72000%Q)
                  [OpenRoute.mkOrsSegment (Some 50%Q) (Some 36000%Q);
                   OpenRoute.mkOrsSegment (Some 50%Q) (Some 36000%Q)]
                  (Some "encoded")])).

Definition sample_payload : Models.JobPayload :=
  Models.mkJobPayload sample_location sample_location sample_location (Some 0%Q)
    (Models.mkCarrierFields None None None None None None None None).

Definition pending_job (user : option Z) (created : Z) : Models.BackgroundJob :=
  Models.mkJob user Models.JOB_TYPE_PLAN_TRIP Models.STATUS_PENDING
    sample_payload None "" created None None.

(** Two pending jobs: the older one lost its user, the newer one is of
    user 1. *)
Definition two_jobs_db : Models.DB :=
  Models.mkDB ∅ ∅ ∅ ∅ ∅
    {[ 1%Z := pending_job None 10; 2%Z := pending_job (Some 1%Z) 20 ]}.

(** The on-duty hours the days of a plan were planned with, added up. *)
Definition total_planned_on_duty (days : list Hos.DayPlan) : Q :=
  fold_right (fun d acc => Hos.planned_on_duty d + acc)%Q 0%Q days.

(** The three duty segments of a day agree with its minute totals: a
    pre/post-trip block that is never negative, the driving block, and the
    ten-hour rest.  The block is the difference of two totals that are
    rounded to whole minutes one by one, so it is bounded by the two-hour
    buffer plus one minute of rounding. *)
Definition day_segments_consistent (s : Hos.DailyHosSummary) : Prop :=
  exists buffer,
    Hos.segments s
    = [ Hos.mkSegment "ON_DUTY" buffer "Pre/post-trip activities";
        Hos.mkSegment "DRIVING" (Hos.total_driving_minutes s) "Planned driving";
        Hos.mkSegment "OFF_DUTY" 600 "Rest" ]
    /\ (0 <= buffer <= 121)%Z
    /\ (buffer + Hos.total_driving_minutes s = Hos.total_on_duty_minutes s)%Z
    /\ Hos.total_off_duty_minutes s = 600%Z
    /\ Hos.total_sleeper_minutes s = 0%Z.

(** The alerts of the per-day pass of the evaluator. *)
Definition day_alerts (log_payloads : list Alerts.LogPayload)
  : list Alerts.Alert :=
  fold_left Alerts.evaluate_day log_payloads [].

(** The cycle hours a plan is projected to use. *)
Definition projected_cycle_usage (log_payloads : list Alerts.LogPayload)
           (cycle_hours_used : Q) : Q :=
  (cycle_hours_used
   + fold_left (fun acc entry => acc + Alerts.entry_on_duty_hours entry)
               log_payloads 0)%Q.

(** The payloads of a scheduled trip of 30 hours after 10 cycle hours. *)
Definition sample_plan : list Hos.Payload :=
  match Hos.generate_driver_logs 7 30 10 with
  | Some (Ok payloads) => payloads
  | _ => []
  end.

Definition sample_days : list Hos.DayPlan :=
  match Hos.schedule 7 30 10 with
  | Some (Ok days) => days
  | _ => []
  end.

(** The day number the evaluator attaches to the alerts of a payload. *)
Definition alert_day_of (p : Alerts.LogPayload) : option Z :=
  match default 0%Z (Alerts.day_number p) with
  | 0%Z => None
  | z => Some z
  end.

(** A payload whose remaining cycle is 7 hours after 5 driving hours. *)
Definition day_low_cycle : Alerts.LogPayload :=
  Alerts.mkLogPayload (Some 3%Z) (Some 300%Q) None (Some 420%Q) None (Some 7%Q).

(** A time of day that [datetime.time] can hold. *)
Definition valid_time (t : Models.time) : Prop :=
  (0 <= Models.hour t <= 23)%Z /\ (0 <= Models.minute t <= 59)%Z.

(** Minutes since midnight. *)
Definition time_minutes (t : Models.time) : Z :=
  (60 * Models.hour t + Models.minute t)%Z.

#[export] Instance time_eq_dec : EqDecision Models.time.
Proof. solve_decision. Defined.

(** Every time of the day, printed and parsed back. *)
Definition print_parse_all_times : bool :=
  forallb (fun h =>
             forallb (fun m =>
                        bool_decide
                          (Logs.strptime_HM (Reports.strftime_HM (Models.mkTime h m))
                           = Some (Models.mkTime h m)))
                     (seqZ 0 60))
          (seqZ 0 24).

(** The status a raw segment is given: its "status" value, OFF_DUTY when
    the key is absent. *)
Definition raw_status (raw : gmap string Logs.PyVal) : string :=
  Logs.py_str (default (Logs.PyStr Models.STATUS_OFF_DUTY) (raw !! "status")).

(** The minutes of the raw segments that have the status [st]. *)
Definition raw_minutes_with_status (st : string)
           (segments : list (gmap string Logs.PyVal)) : Z :=
  foldr (fun r acc => (if decide (raw_status r = st) then raw_duration r else 0) + acc)%Z
        0%Z segments.

(** Status, start and end of a raw segment whose times parse. *)
Definition raw_triple (raw : gmap string Logs.PyVal)
  : string * Models.time * Models.time :=
  match raw_times raw with
  | Some (s, e) => (raw_status raw, s, e)
  | None => (raw_status raw, Models.mkTime 0 0, Models.mkTime 0 0)
  end.

(** The segments stored for a log. *)
Definition stored_segments (db : Models.DB) (log_id : Z)
  : list Models.DutyStatusSegment :=
  filter (fun s => Models.segment_log s = log_id)
         (map_to_list (Models.duty_segments db)).*2.

Definition segment_triple (s : Models.DutyStatusSegment)
  : string * Models.time * Models.time :=
  (Models.segment_status s, Models.segment_start_time s,
   Models.segment_end_time s).

(** At most one log per trip and day ([unique_together] of [DriverLog]). *)
Definition unique_trip_day (db : Models.DB) : Prop :=
  forall k1 k2 l1 l2,
    Models.driver_logs db !! k1 = Some l1 ->
    Models.driver_logs db !! k2 = Some l2 ->
    Models.log_trip l1 = Models.log_trip l2 ->
    Models.log_day_number l1 = Models.log_day_number l2 ->
    k1 = k2.

(** A day of three well-formed segments, the last one without a status. *)
Definition good_segments : list (gmap string Logs.PyVal) :=
  [ raw_segment "OFF_DUTY" "00:00" "06:00";
    raw_segment "DRIVING" "06:00" "11:30";
    {[ "startTime" := Logs.PyStr "12:00"; "endTime" := Logs.PyStr "13:15" ]} ].

(** The minutes of the normalised segments that have the status [st]. *)
Definition seg_minutes_with_status (st : string)
           (segments : list Logs.SegmentInput) : Z :=
  foldr (fun s acc =>
           (if decide (Logs.py_str (Logs.status s) = st)
            then Logs.duration_minutes s else 0) + acc)%Z
        0%Z segments.

(** The row stored for a normalised segment of the log [log_id]. *)
Definition segment_row (log_id : Z) (segment : Logs.SegmentInput)
  : Models.DutyStatusSegment :=
  Models.mkDutySegment log_id (Logs.py_str (Logs.status segment))
    (Logs.start_time segment) (Logs.end_time segment)
    (Logs.location segment) (Logs.activity segment) (Logs.remarks segment).

(** User 1 stores the three good segments for day 1 of trip 1. *)
Definition good_upsert
  : result Exception (Z * Models.DriverLog) * Models.DB :=
  Logs.upsert_driver_log 1 1 1 None (Some "ok") good_segments None 100 sample_db.

Definition good_log : Models.DriverLog :=
  Models.mkDriverLog 1 1 100 435 0 330 0 0 "ok".

(** The same user then replaces the day by a single hour on duty. *)
Definition second_upsert
  : result Exception (Z * Models.DriverLog) * Models.DB :=
  Logs.upsert_driver_log 1 1 1 None None
    [raw_segment "ON_DUTY" "01:00" "02:00"] None 101 good_upsert.2.

Definition second_log : Models.DriverLog :=
  Models.mkDriverLog 1 1 101 0 0 0 60 0 "".

(** The tables a driver-log operation has no business with. *)
Definition same_trip_tables (db db' : Models.DB) : Prop :=
  Models.trips db' = Models.trips db
  /\ Models.routes db' = Models.routes db
  /\ Models.stops db' = Models.stops db
  /\ Models.jobs db' = Models.jobs db.

(** The segment rows of the logs other than [log_id] are the same. *)
Definition same_other_segments (log_id : Z) (db db' : Models.DB) : Prop :=
  forall k s,
    Models.segment_log s <> log_id ->
    Models.duty_segments db' !! k = Some s
    <-> Models.duty_segments db !! k = Some s.

(** Distance and duration of the [i]-th segment of the provider's route,
    zero when the route has no such segment. *)
Definition leg_metrics (rd : OpenRoute.RouteData) (i : nat) : Q * Q :=
  match OpenRoute.rd_segments rd !! i with
  | Some s => (OpenRoute.distance_miles s, OpenRoute.duration_hours s)
  | None => (0, 0 / 60)%Q
  end.

(** The two legs and the three stops of a trip planned over the route
    [rd]. *)
Definition planned_legs (start pickup dropoff : Models.Location)
           (rd : OpenRoute.RouteData) : list Models.Leg :=
  [ Models.mkLeg 1 "START" "PICKUP" start pickup
                 (leg_metrics rd 0).1 (leg_metrics rd 0).2;
    Models.mkLeg 2 "PICKUP" "DROPOFF" pickup dropoff
                 (leg_metrics rd 1).1 (leg_metrics rd 1).2 ].

Definition planned_stops (route_id : Z) (start pickup dropoff : Models.Location)
           (rd : OpenRoute.RouteData) : list Models.Stop :=
  [ Models.mkStop route_id "START" start 0 1 0 0;
    Models.mkStop route_id "PICKUP" pickup 0 2
                  (leg_metrics rd 0).1 (leg_metrics rd 0).2;
    Models.mkStop route_id "DROPOFF" dropoff 0 3
                  (leg_metrics rd 1).1 (leg_metrics rd 1).2 ].

Definition no_carrier_fields : Models.CarrierFields :=
  Models.mkCarrierFields None None None None None None None None.

(** Every trip of [db] is in [db'] as it was, every other trip of [db']
    satisfies [P], and the driver logs and their segments are the same. *)
Definition trips_extended (P : Models.Trip -> Prop) (db db' : Models.DB) : Prop :=
  (forall k t, Models.trips db !! k = Some t -> Models.trips db' !! k = Some t)
  /\ (forall k t, Models.trips db' !! k = Some t ->
        Models.trips db !! k = Some t
        \/ (Models.trips db !! k = None /\ P t))
  /\ Models.driver_logs db' = Models.driver_logs db
  /\ Models.duty_segments db' = Models.duty_segments db.

(** A PLANNED trip of the given user. *)
Definition planned_for (user : option Z) (t : Models.Trip) : Prop :=
  Models.trip_status t = "PLANNED" /\ user = Some (Models.trip_user t).

(** A PLANNED trip of the user of one of the jobs. *)
Definition planned_for_one_of (selected : list (Z * Models.BackgroundJob))
           (t : Models.Trip) : Prop :=
  exists kj, kj ∈ selected /\ planned_for (Models.job_user kj.2) t.

(** User 1 plans a trip while the provider answers. *)
Definition planned_sample : result Exception (Z * Models.Trip) * Models.DB :=
  TripPlanner.plan_trip_for_user env_up (Some 1%Z) sample_location
    sample_location sample_location 0 no_carrier_fields sample_db.

Definition planned_sample_trip : Models.Trip :=
  Models.mkTrip 1 sample_location sample_location sample_location
    "" [] [] "" "" "" "" "" "PLANNED" 0 100 (72000 # 3600)
    (Some (Models.mkItinerary
             [ Models.mkLeg 1 "START" "PICKUP" sample_location sample_location
                            50 (36000 # 3600);
               Models.mkLeg 2 "PICKUP" "DROPOFF" sample_location sample_location
                            50 (36000 # 3600) ]
             100 (72000 # 3600) [])).

(** The PENDING PLAN_TRIP rows of the job table. *)
Definition queue (db : Models.DB) : list (Z * Models.BackgroundJob) :=
  filter (fun kv : Z * Models.BackgroundJob =>
            Models.job_type kv.2 = Models.JOB_TYPE_PLAN_TRIP
            /\ Models.job_status kv.2 = Models.STATUS_PENDING)
         (map_to_list (Models.jobs db)).

(** What a processed job [kj] says agrees with the database [db], which
    grew out of [db0]: the job is stored as returned and is finished; a
    SUCCESS names a trip that was not in [db0], is in [db] and is a PLANNED
    trip of the job's user; a FAILED carries at most 2048 characters of
    error message. *)
Definition job_settled (db0 db : Models.DB) (kj : Z * Models.BackgroundJob)
  : Prop :=
  Models.jobs db !! kj.1 = Some kj.2
  /\ finished kj.2
  /\ (Models.job_status kj.2 = Models.STATUS_SUCCESS ->
      exists trip_id trip,
        Models.job_result kj.2 = Some (pretty trip_id)
        /\ Models.trips db0 !! trip_id = None
        /\ Models.trips db !! trip_id = Some trip
        /\ planned_for (Models.job_user kj.2) trip)
  /\ (Models.job_status kj.2 = Models.STATUS_FAILED ->
      String.length (Models.error_message kj.2) <= 2048).

(** The trips of [two_trips_db] with the two pending jobs of
    [two_jobs_db]. *)
Definition busy_db : Models.DB :=
  Models.mkDB (Models.trips two_trips_db) ∅ ∅ ∅ ∅ (Models.jobs two_jobs_db).

(** Everything but the job table is the same. *)
Definition same_trip_tables_but_jobs (db db' : Models.DB) : Prop :=
  Models.trips db' = Models.trips db
  /\ Models.routes db' = Models.routes db
  /\ Models.stops db' = Models.stops db
  /\ Models.driver_logs db' = Models.driver_logs db
  /\ Models.duty_segments db' = Models.duty_segments db.

(** Two segments as the GraphQL layer passes them on, the first with the
    snake-case keys and the second with the camel-case ones. *)
Definition graphql_segments : list (gmap string Logs.PyVal) :=
  [ {[ "status" := Logs.PyStr "DRIVING";
       "start_time" := Logs.PyStr "08:00";
       "end_time" := Logs.PyStr "09:00" ]};
    {[ "status" := Logs.PyStr "OFF_DUTY";
       "startTime" := Logs.PyStr "09:00";
       "endTime" := Logs.PyStr "10:30" ]} ].

(** The foreign keys point at rows that exist: the trip of every route and
    of every log, and the route of every stop. *)
Definition refs_ok (db : Models.DB) : Prop :=
  (forall k r, Models.routes db !! k = Some r ->
     is_Some (Models.trips db !! Models.route_trip r))
  /\ (forall k l, Models.driver_logs db !! k = Some l ->
        is_Some (Models.trips db !! Models.log_trip l))
  /\ (forall k s, Models.stops db !! k = Some s ->
        is_Some (Models.routes db !! Models.stop_route s)).

Definition sample_input (async : bool) : TripMutations.PlanTripInput :=
  TripMutations.mkPlanTripInput sample_location sample_location sample_location
    0 no_carrier_fields async.

(** The provider answers 200 with a body that is not JSON. *)
Definition env_not_json : OpenRoute.Env :=
  OpenRoute.mkEnv (Some "key")
    (fun _ _ =>
       OpenRoute.Response 200 "<html>Bad Gateway</html>"
         (Raise "Expecting value: line 1 column 1 (char 0)")).

(** How far from a threshold a value must be for the statements on the
    thresholds: the code compares binary64 numbers, whose sums, products
    and constants (14 * 0.95, 70 * 0.9, 1e-6) carry a rounding error many
    orders of magnitude below this margin. *)
Definition margin : Q := 1 # 1000000000.

(** * Properties *)

(** ** Python arithmetic helpers *)

Section PyFacts.

Local Open Scope Q_scope.

Lemma Qlt_bool_true (a b : Q) : Py.Qlt_bool a b = true <-> a < b.
Proof.
  unfold Py.Qlt_bool. rewrite negb_true_iff.
  split.
  - intros H. apply Qnot_le_lt. intros Hle.
    apply Qle_bool_iff in Hle. congruence.
  - intros H. destruct (Qle_bool b a) eqn:E; [|reflexivity].
    apply Qle_bool_iff in E. lra.
Qed.

Lemma Qlt_bool_false (a b : Q) : Py.Qlt_bool a b = false <-> b <= a.
Proof.
  unfold Py.Qlt_bool. rewrite negb_false_iff. apply Qle_bool_iff.
Qed.

Lemma Qle_bool_false (a b : Q) : Qle_bool a b = false <-> b < a.
Proof.
  split.
  - intros H. apply Qnot_le_lt. intros Hle.
    apply Qle_bool_iff in Hle. congruence.
  - intros H. destruct (Qle_bool a b) eqn:E; [|reflexivity].
    apply Qle_bool_iff in E. lra.
Qed.

Lemma min2_spec (a b : Q) :
  Py.min2 a b <= a /\ Py.min2 a b <= b
  /\ (Py.min2 a b = a \/ Py.min2 a b = b).
Proof.
  unfold Py.min2. destruct (Py.Qlt_bool b a) eqn:E.
  - apply Qlt_bool_true in E. repeat split; try lra. now right.
  - apply Qlt_bool_false in E. repeat split; try lra. now left.
Qed.

Lemma min3_spec (a b c : Q) :
  Py.min3 a b c <= a /\ Py.min3 a b c <= b /\ Py.min3 a b c <= c
  /\ (Py.min3 a b c = a \/ Py.min3 a b c = b \/ Py.min3 a b c = c).
Proof.
  unfold Py.min3.
  destruct (min2_spec a b) as (H1 & H2 & H3).
  destruct (min2_spec (Py.min2 a b) c) as (H4 & H5 & H6).
  repeat split; try lra.
  destruct H6 as [-> | ->]; [destruct H3 as [-> | ->]|]; auto.
Qed.

Lemma max2_spec (a b : Q) :
  a <= Py.max2 a b /\ b <= Py.max2 a b
  /\ (Py.max2 a b = a \/ Py.max2 a b = b).
Proof.
  unfold Py.max2. destruct (Py.Qlt_bool a b) eqn:E.
  - apply Qlt_bool_true in E. repeat split; try lra. now right.
  - apply Qlt_bool_false in E. repeat split; try lra. now left.
Qed.

(** Rounding to the nearest integer never passes an integer bound. *)
Lemma round_le (q : Q) (n : Z) : q <= inject_Z n -> (Py.round q <= n)%Z.
Proof.
  intros Hq. unfold Py.round.
  assert (Hfl : (Qfloor q <= n)%Z).
  { rewrite <- (Qfloor_Z n). now apply Qfloor_resp_le. }
  destruct (Z.eq_dec (Qfloor q) n) as [Heq | Hne].
  - assert (Hc : (q - inject_Z (Qfloor q) ?= 1 # 2) = Lt).
    { rewrite <- Qlt_alt, Heq. lra. }
    rewrite Hc. lia.
  - destruct (q - inject_Z (Qfloor q) ?= 1 # 2); [destruct (Z.even _)| |]; lia.
Qed.

End PyFacts.

(** ** The day scheduler *)

Section HosFacts.

Local Open Scope Q_scope.
Import Hos.

Lemma plan_day_within_limits day rh rc :
  day_within_limits (plan_day day rh rc).
Proof.
  unfold day_within_limits, plan_day; cbn [planned_driving planned_on_duty
    summary total_driving_minutes total_on_duty_minutes].
  set (pd := Py.min3 DRIVING_LIMIT_PER_DAY rh rc).
  set (od := Py.min3 (pd + ON_DUTY_BUFFER_HOURS) ON_DUTY_LIMIT_PER_DAY rc).
  destruct (min3_spec DRIVING_LIMIT_PER_DAY rh rc) as (H1 & _).
  destruct (min3_spec (pd + ON_DUTY_BUFFER_HOURS) ON_DUTY_LIMIT_PER_DAY rc)
    as (_ & H2 & _).
  fold pd in H1. fold od in H2.
  unfold DRIVING_LIMIT_PER_DAY, ON_DUTY_LIMIT_PER_DAY in *.
  repeat split; try assumption.
  - apply round_le. change (inject_Z 660) with 660. lra.
  - apply round_le. change (inject_Z 840) with 840. lra.
Qed.

Lemma schedule_loop_guard_false fuel day rh rc :
  Py.Qlt_bool 0 rh && Py.Qlt_bool 0 rc = false ->
  schedule_loop fuel day rh rc = Some [].
Proof. intros H. destruct fuel; cbn; now rewrite H. Qed.

(** One pass of the loop either ends it or uses at least 11 cycle hours. *)
Lemma plan_day_progress day rh rc :
  0 < rh -> 0 < rc ->
  let d := plan_day day rh rc in
  planned_driving d <= rh
  /\ (rh - planned_driving d <= 0 \/ rc - planned_on_duty d <= 0
      \/ rc - planned_on_duty d <= rc - 11).
Proof.
  intros Hrh Hrc. unfold plan_day; cbn [planned_driving planned_on_duty].
  set (pd := Py.min3 DRIVING_LIMIT_PER_DAY rh rc).
  set (od := Py.min3 (pd + ON_DUTY_BUFFER_HOURS) ON_DUTY_LIMIT_PER_DAY rc).
  destruct (min3_spec DRIVING_LIMIT_PER_DAY rh rc) as (A1 & A2 & A3 & A4).
  destruct (min3_spec (pd + ON_DUTY_BUFFER_HOURS) ON_DUTY_LIMIT_PER_DAY rc)
    as (B1 & B2 & B3 & B4).
  fold pd in A1, A2, A3, A4. fold od in B1, B2, B3, B4.
  unfold DRIVING_LIMIT_PER_DAY, ON_DUTY_LIMIT_PER_DAY, ON_DUTY_BUFFER_HOURS in *.
  split; [assumption|].
  destruct A4 as [A | [A | A]]; destruct B4 as [B | [B | B]];
    rewrite ?A, ?B in *; lra.
Qed.

Lemma schedule_loop_terminates fuel :
  forall day rh rc,
    rc <= 11 * inject_Z (Z.of_nat fuel) ->
    exists days, schedule_loop fuel day rh rc = Some days.
Proof.
  induction fuel as [|fuel IH]; intros day rh rc Hrc.
  - exists []. apply schedule_loop_guard_false.
    change (inject_Z (Z.of_nat 0)) with 0 in Hrc.
    apply andb_false_iff. right. apply Qlt_bool_false. lra.
  - destruct (Py.Qlt_bool 0 rh && Py.Qlt_bool 0 rc) eqn:G.
    2:{ exists []. now apply schedule_loop_guard_false. }
    apply andb_true_iff in G as [G1 G2].
    apply Qlt_bool_true in G1, G2.
    destruct (plan_day_progress day rh rc G1 G2) as (_ & Hprog).
    assert (Hnext : exists rest,
               schedule_loop fuel (day + 1)
                 (rh - planned_driving (plan_day day rh rc))
                 (rc - planned_on_duty (plan_day day rh rc)) = Some rest).
    { rewrite Nat2Z.inj_succ, <- Z.add_1_r, inject_Z_plus in Hrc.
      change (inject_Z 1) with 1 in Hrc.
      destruct Hprog as [H | [H | H]].
      - exists []. apply schedule_loop_guard_false.
        apply andb_false_iff. left. now apply Qlt_bool_false.
      - exists []. apply schedule_loop_guard_false.
        apply andb_false_iff. right. now apply Qlt_bool_false.
      - apply IH. lra. }
    destruct Hnext as [rest Hrest].
    exists (plan_day day rh rc :: rest).
    cbn [schedule_loop].
    assert (G : Py.Qlt_bool 0 rh && Py.Qlt_bool 0 rc = true).
    { apply andb_true_iff. split; now apply Qlt_bool_true. }
    rewrite G. cbv zeta. now rewrite Hrest.
Qed.

Lemma schedule_loop_sound fuel :
  forall day rh rc days,
    schedule_loop fuel day rh rc = Some days ->
    0 <= rh ->
    Forall day_within_limits days /\ total_planned_driving days <= rh.
Proof.
  induction fuel as [|fuel IH]; intros day rh rc days Hrun Hrh.
  - cbn in Hrun.
    destruct (Py.Qlt_bool 0 rh && Py.Qlt_bool 0 rc); [discriminate|].
    injection Hrun as <-. split; [constructor | exact Hrh].
  - cbn [schedule_loop] in Hrun.
    destruct (Py.Qlt_bool 0 rh && Py.Qlt_bool 0 rc) eqn:G.
    2:{ injection Hrun as <-. split; [constructor | exact Hrh]. }
    apply andb_true_iff in G as [G1 G2].
    apply Qlt_bool_true in G1, G2.
    cbv zeta in Hrun.
    destruct (schedule_loop fuel (day + 1) _ _) as [rest|] eqn:Hrest;
      [|discriminate].
    injection Hrun as <-.
    destruct (plan_day_progress day rh rc G1 G2) as (Hle & _).
    apply IH in Hrest as [Hall Hsum]; [|cbv zeta in Hle; lra].
    split.
    + constructor; [apply plan_day_within_limits | exact Hall].
    + cbn [total_planned_driving fold_right].
      fold (total_planned_driving rest). lra.
Qed.

End HosFacts.

(** C1: for a non-negative trip duration and a cycle use in [0, 70), the
    scheduler returns (seven passes of the loop are always enough); every day
    it emits is planned with at most 11 driving hours and 14 on-duty hours
    (660 and 840 minutes in the payload), and the planned driving hours of
    all days sum to at most [min(total_trip_hours, 70 - cycle_hours_used)]
    plus epsilon. *)
Theorem scheduler_respects_limits (fuel : nat) (total_trip_hours cycle_hours_used : Q) :
  (7 <= fuel)%nat ->
  (0 <= total_trip_hours)%Q ->
  (0 <= cycle_hours_used)%Q -> (cycle_hours_used < 70)%Q ->
  exists outcome,
    Hos.schedule fuel total_trip_hours cycle_hours_used = Some outcome
    /\ match outcome with
       | Raise e =>
           Hos.generate_driver_logs fuel total_trip_hours cycle_hours_used
           = Some (Raise e)
       | Ok days =>
           Hos.generate_driver_logs fuel total_trip_hours cycle_hours_used
           = Some (Ok (map (fun d => Hos.as_payload (Hos.summary d)) days))
           /\ Forall day_within_limits days
           /\ (Hos.total_planned_driving days
               <= Qmin total_trip_hours (70 - cycle_hours_used) + Alerts.EPSILON)%Q
       end.
Proof.
  intros Hfuel Htotal Hc0 Hc70.
  unfold Hos.generate_driver_logs, Hos.schedule.
  assert (E0 : Py.Qlt_bool total_trip_hours 0 = false)
    by now apply Qlt_bool_false.
  rewrite E0.
  destruct (max2_spec (Hos.CYCLE_LIMIT_HOURS - cycle_hours_used) 0)
    as (M1 & M2 & M3).
  set (cr := Py.max2 (Hos.CYCLE_LIMIT_HOURS - cycle_hours_used) 0) in *.
  unfold Hos.CYCLE_LIMIT_HOURS in *.
  assert (Hcr : (cr == 70 - cycle_hours_used)%Q).
  { destruct M3 as [-> | M3]; [reflexivity|]. rewrite M3 in *. lra. }
  assert (E1 : Qle_bool cr 0 = false) by (apply Qle_bool_false; lra).
  rewrite E1.
  destruct (min2_spec total_trip_hours cr) as (N1 & N2 & _).
  set (hs := Py.min2 total_trip_hours cr) in *.
  destruct (Qle_bool hs 0) eqn:E2.
  { eexists. split; reflexivity. }
  apply Qle_bool_false in E2.
  destruct (schedule_loop_terminates fuel 1 hs cr) as [days Hdays].
  { assert (7 <= inject_Z (Z.of_nat fuel))%Q.
    { change 7%Q with (inject_Z 7). rewrite <- Zle_Qle. lia. }
    lra. }
  rewrite Hdays. eexists. split; [reflexivity|].
  destruct (schedule_loop_sound fuel 1 hs cr days Hdays) as [Hall Hsum]; [lra|].
  split; [reflexivity|]. split; [exact Hall|].
  assert (hs <= Qmin total_trip_hours (70 - cycle_hours_used))%Q.
  { apply Q.min_glb; lra. }
  unfold Alerts.EPSILON. lra.
Qed.

Lemma scheduler_respects_limits_witness :
  exists outcome,
    Hos.schedule 7 20 10 = Some outcome
    /\ match outcome with
       | Raise e => Hos.generate_driver_logs 7 20 10 = Some (Raise e)
       | Ok days =>
           Hos.generate_driver_logs 7 20 10
           = Some (Ok (map (fun d => Hos.as_payload (Hos.summary d)) days))
           /\ Forall day_within_limits days
           /\ (Hos.total_planned_driving days <= Qmin 20 (70 - 10) + Alerts.EPSILON)%Q
       end.
Proof.
  apply (scheduler_respects_limits 7 20 10).
  - lia.
  - unfold Qle; simpl; lia.
  - unfold Qle; simpl; lia.
  - unfold Qlt; simpl; lia.
Defined.

(** C5: with 70 or more cycle hours already used and a non-negative trip
    duration, the scheduler raises the cycle-exhausted error, whatever the
    fuel, and so produces no daily plan. *)
Theorem scheduler_cycle_exhausted (fuel : nat) (total_trip_hours cycle_hours_used : Q) :
  (0 <= total_trip_hours)%Q ->
  (70 <= cycle_hours_used)%Q ->
  Hos.generate_driver_logs fuel total_trip_hours cycle_hours_used
  = Some (Raise (Hos.HOSError Hos.MSG_CYCLE_EXHAUSTED))
  /\ Hos.schedule fuel total_trip_hours cycle_hours_used
     = Some (Raise (Hos.HOSError Hos.MSG_CYCLE_EXHAUSTED)).
Proof.
  intros Htotal Hc.
  unfold Hos.generate_driver_logs, Hos.schedule.
  assert (E0 : Py.Qlt_bool total_trip_hours 0 = false)
    by now apply Qlt_bool_false.
  rewrite E0.
  destruct (max2_spec (Hos.CYCLE_LIMIT_HOURS - cycle_hours_used) 0)
    as (M1 & M2 & M3).
  unfold Hos.CYCLE_LIMIT_HOURS in *.
  assert (E1 : Qle_bool (Py.max2 (70 - cycle_hours_used) 0) 0 = true).
  { apply Qle_bool_iff. destruct M3 as [-> | ->]; lra. }
  rewrite E1. split; reflexivity.
Qed.

Lemma scheduler_cycle_exhausted_witness :
  Hos.generate_driver_logs 7 20 70
  = Some (Raise (Hos.HOSError Hos.MSG_CYCLE_EXHAUSTED))
  /\ Hos.schedule 7 20 70 = Some (Raise (Hos.HOSError Hos.MSG_CYCLE_EXHAUSTED)).
Proof.
  apply (scheduler_cycle_exhausted 7 20 70).
  - unfold Qle; simpl; lia.
  - unfold Qle; simpl; lia.
Defined.

(** ** The alert evaluator *)

Section AlertFacts.

Local Open Scope Q_scope.
Import Alerts.

Lemma alerts_for_app r (l1 l2 : list Alert) :
  alerts_for r (l1 ++ l2) = alerts_for r l1 ++ alerts_for r l2.
Proof. unfold alerts_for. apply filter_app. Qed.

Lemma alerts_for_add_other r alerts lvl r' msg day :
  r' <> r ->
  alerts_for r (_add_alert alerts lvl r' msg day) = alerts_for r alerts.
Proof.
  intros Hne. unfold _add_alert. rewrite alerts_for_app.
  unfold alerts_for at 2. cbn [filter list_filter rule].
  rewrite decide_False by exact Hne. cbn. apply app_nil_r.
Qed.

Lemma alerts_for_add_same r alerts lvl msg day :
  alerts_for r (_add_alert alerts lvl r msg day)
  = alerts_for r alerts ++ [mkAlert lvl r msg day].
Proof.
  unfold _add_alert. rewrite alerts_for_app.
  unfold alerts_for at 2. cbn [filter list_filter rule].
  rewrite decide_True by reflexivity. reflexivity.
Qed.

(** The levels raised for the driving rule depend on the driving hours of
    the day alone. *)
Lemma driving_alert_levels_eq p cyc :
  driving_alert_levels p cyc
  = if Py.Qlt_bool (Hos.DRIVING_LIMIT_PER_DAY + EPSILON) (driving_hours p)
    then ["danger"]
    else if Qle_bool (Hos.DRIVING_LIMIT_PER_DAY * (95 # 100)) (driving_hours p)
         then ["warning"]
         else [].
Proof.
  unfold driving_alert_levels, _evaluate_hos_alerts.
  cbn [fold_left].
  assert (Htrip : forall alerts,
    alerts_for RULE_DRIVING
      (if Qle_bool Hos.CYCLE_LIMIT_HOURS
            (cyc + (0 + entry_on_duty_hours p))
       then _add_alert alerts "danger" RULE_CYCLE
              "Trip plan consumes entire 70-hour cycle. Driver must reset before additional duty."
              None
       else if Qle_bool (Hos.CYCLE_LIMIT_HOURS * (9 # 10))
                 (cyc + (0 + entry_on_duty_hours p))
            then _add_alert alerts "warning" RULE_CYCLE
                   "Trip plan uses over 90% of the 70-hour cycle. Monitor remaining hours closely."
                   None
            else alerts)
    = alerts_for RULE_DRIVING alerts).
  { intros alerts.
    destruct (Qle_bool Hos.CYCLE_LIMIT_HOURS _);
      [|destruct (Qle_bool (Hos.CYCLE_LIMIT_HOURS * _) _)];
      rewrite ?alerts_for_add_other by discriminate; reflexivity. }
  rewrite Htrip. clear Htrip.
  unfold evaluate_day.
  set (dn := match default 0%Z (day_number p) with 0%Z => None | z => Some z end).
  assert (Hcycle : forall alerts,
    alerts_for RULE_DRIVING
      (match remaining_cycle_hours p with
       | Some rc =>
           if Py.Qlt_bool rc (- EPSILON)
           then _add_alert alerts "danger" RULE_CYCLE
                  "Cycle hours exceeded. Schedule requires reset before completion."
                  dn
           else if Qle_bool rc 8
                then _add_alert alerts "warning" RULE_CYCLE
                       ("Cycle hours low: " +:+ fmt1 rc
                          +:+ " hrs remain after day " +:+ fmt_day dn +:+ ".")
                       dn
                else alerts
       | None => alerts
       end)
    = alerts_for RULE_DRIVING alerts).
  { intros alerts. destruct (remaining_cycle_hours p) as [rc|]; [|reflexivity].
    destruct (Py.Qlt_bool rc _); [|destruct (Qle_bool rc 8)];
      rewrite ?alerts_for_add_other by discriminate; reflexivity. }
  cbv zeta. rewrite Hcycle. clear Hcycle.
  assert (Hduty : forall alerts,
    alerts_for RULE_DRIVING
      (if Py.Qlt_bool (Hos.ON_DUTY_LIMIT_PER_DAY + EPSILON) (on_duty_hours p)
       then _add_alert alerts "danger" RULE_ON_DUTY
              ("Day " +:+ fmt_day dn +:+ ": on-duty time of "
                 +:+ fmt1 (on_duty_hours p) +:+ " hrs exceeds FMCSA 14-hour limit.")
              dn
       else if Qle_bool (Hos.ON_DUTY_LIMIT_PER_DAY * (95 # 100)) (on_duty_hours p)
            then _add_alert alerts "warning" RULE_ON_DUTY
                   ("Day " +:+ fmt_day dn +:+ ": on-duty plan "
                      +:+ fmt1 (on_duty_hours p) +:+ " hrs is near the 14-hour limit.")
                   dn
            else alerts)
    = alerts_for RULE_DRIVING alerts).
  { intros alerts.
    destruct (Py.Qlt_bool _ (on_duty_hours p));
      [|destruct (Qle_bool _ (on_duty_hours p))];
      rewrite ?alerts_for_add_other by discriminate; reflexivity. }
  rewrite Hduty. clear Hduty.
  destruct (Py.Qlt_bool _ (driving_hours p));
    [|destruct (Qle_bool _ (driving_hours p))];
    rewrite ?alerts_for_add_same; reflexivity.
Qed.

End AlertFacts.

(** C2, as the code has it: a day whose driving total is exactly 11.0 hours
    draws a warning-level alert for the 11-hour driving rule (it is at or
    above 95% of the limit and not above the limit); 10.5 hours draws a
    warning and 11.5 hours a danger-level alert. *)
Theorem driving_alert_thresholds (p : Alerts.LogPayload) (cycle_hours_used : Q) :
  ((Alerts.driving_hours p == 11)%Q ->
   driving_alert_levels p cycle_hours_used = ["warning"])
  /\ ((Alerts.driving_hours p == 21 # 2)%Q ->
      driving_alert_levels p cycle_hours_used = ["warning"])
  /\ ((Alerts.driving_hours p == 23 # 2)%Q ->
      driving_alert_levels p cycle_hours_used = ["danger"]).
Proof.
  rewrite driving_alert_levels_eq.
  unfold Hos.DRIVING_LIMIT_PER_DAY, Alerts.EPSILON.
  repeat split; intros Hd.
  - assert (E1 : Py.Qlt_bool (11 + (1 # 1000000)) (Alerts.driving_hours p) = false)
      by (apply Qlt_bool_false; lra).
    assert (E2 : Qle_bool (11 * (95 # 100)) (Alerts.driving_hours p) = true)
      by (apply Qle_bool_iff; lra).
    now rewrite E1, E2.
  - assert (E1 : Py.Qlt_bool (11 + (1 # 1000000)) (Alerts.driving_hours p) = false)
      by (apply Qlt_bool_false; lra).
    assert (E2 : Qle_bool (11 * (95 # 100)) (Alerts.driving_hours p) = true)
      by (apply Qle_bool_iff; lra).
    now rewrite E1, E2.
  - assert (E1 : Py.Qlt_bool (11 + (1 # 1000000)) (Alerts.driving_hours p) = true)
      by (apply Qlt_bool_true; lra).
    now rewrite E1.
Qed.

Lemma driving_alert_thresholds_witness :
  (Alerts.driving_hours day_660 == 11)%Q
  /\ driving_alert_levels day_660 0 = ["warning"].
Proof.
  split.
  - reflexivity.
  - apply (proj1 (driving_alert_thresholds day_660 0)). reflexivity.
Defined.

(** C2 as stated fails: a day of exactly 11.0 driving hours does draw an
    alert for the 11-hour driving rule. *)
Lemma driving_11_hours_is_alerted :
  (Alerts.driving_hours day_660 == 11)%Q
  /\ Alerts.alerts_for Alerts.RULE_DRIVING
       (Alerts._evaluate_hos_alerts [day_660] 0)
     = [Alerts.mkAlert "warning" "11-hour driving limit"
          "Day 1: driving scheduled for 11.0 hrs is near the 11-hour limit."
          (Some 1%Z)].
Proof. split; [reflexivity | vm_compute; reflexivity]. Qed.

(** The scheduler's own plan for an 11-hour trip on a fresh cycle is one day
    of 660 driving minutes, and the evaluator answers it with the warning. *)
Example scheduled_full_day_is_alerted :
  match Hos.generate_driver_logs 7 11 0 with
  | Some (Ok [p]) =>
      Hos.p_total_driving_minutes p = 660%Z
      /\ driving_alert_levels (Alerts.of_payload p) 0 = ["warning"]
  | _ => False
  end.
Proof. vm_compute. split; reflexivity. Qed.

(** ** The duty-segment validator *)

Section LogFacts.

Import Models Logs.
Local Open Scope Z_scope.

Lemma atomic_raise_restores {A} (body : DB -> result Exception A * DB) db e db' :
  atomic body db = (Raise e, db') -> db' = db.
Proof.
  unfold atomic. destruct (body db) as [[a|e'] d]; intros H; congruence.
Qed.

Lemma validate_ok seg :
  validate seg = Ok tt ->
  status_valid (status seg) = true
  /\ time_le (end_time seg) (start_time seg) = false
  /\ duration_minutes seg mod 15 = 0.
Proof.
  unfold validate, FIFTEEN_MINUTES.
  destruct (status_valid (status seg)); cbn [negb]; [|discriminate].
  destruct (time_le _ _); [discriminate|].
  destruct (duration_minutes seg mod 15 =? 0) eqn:E; cbn [negb]; [|discriminate].
  intros _. apply Z.eqb_eq in E. auto.
Qed.

Lemma validate_raises seg e :
  validate seg = Raise e -> exists msg, e = ValidationError msg.
Proof.
  unfold validate.
  destruct (negb _); [intros [= <-]; eauto|].
  destruct (time_le _ _); [intros [= <-]; eauto|].
  destruct (negb _); [intros [= <-]; eauto | discriminate].
Qed.

Lemma _parse_time_raises label v e :
  _parse_time label v = Raise e -> exists msg, e = ValidationError msg.
Proof.
  unfold _parse_time.
  destruct v as [[|[|a s]]|]; try (intros [= <-]; eauto).
  destruct (strptime_HM _); [discriminate | intros [= <-]; eauto].
Qed.

Lemma normalise_segment_ok raw seg :
  normalise_segment raw = Ok seg ->
  raw_times raw = Some (start_time seg, end_time seg)
  /\ validate seg = Ok tt
  /\ status seg = default (PyStr STATUS_OFF_DUTY) (raw !! "status").
Proof.
  unfold normalise_segment, raw_times.
  destruct (_parse_time "startTime" _) as [s|]; [|discriminate].
  destruct (_parse_time "endTime" _) as [e|]; [|discriminate].
  destruct (validate _) as [[]|] eqn:V; [|discriminate].
  intros [= <-]. cbn. auto.
Qed.

Lemma normalise_segment_raises raw e :
  normalise_segment raw = Raise e -> exists msg, e = ValidationError msg.
Proof.
  unfold normalise_segment.
  destruct (_parse_time "startTime" _) as [s|e1] eqn:P1.
  2:{ intros [= <-]. eapply _parse_time_raises, P1. }
  destruct (_parse_time "endTime" _) as [t|e2] eqn:P2.
  2:{ intros [= <-]. eapply _parse_time_raises, P2. }
  destruct (validate _) as [[]|e3] eqn:V; [discriminate|].
  intros [= <-]. eapply validate_raises, V.
Qed.

Lemma _normalise_segments_raises raws e :
  _normalise_segments raws = Raise e -> exists msg, e = ValidationError msg.
Proof.
  induction raws as [|raw raws IH]; cbn; [discriminate|].
  destruct (normalise_segment raw) as [seg|e1] eqn:N.
  2:{ intros [= <-]. eapply normalise_segment_raises, N. }
  destruct (_normalise_segments raws) as [segs|e2]; [discriminate|].
  intros [= <-]. now apply IH.
Qed.

Lemma _normalise_segments_ok raws :
  forall segs, _normalise_segments raws = Ok segs ->
               Forall2 normalised raws segs.
Proof.
  induction raws as [|raw raws IH]; cbn; intros segs.
  - intros [= <-]. constructor.
  - destruct (normalise_segment raw) as [seg|] eqn:N; [|discriminate].
    destruct (_normalise_segments raws) as [segs'|]; [|discriminate].
    intros [= <-]. constructor; [|now apply IH].
    apply normalise_segment_ok in N as (? & ? & _). now split.
Qed.

Lemma accumulate_raises segs :
  forall totals cursor last e,
    accumulate segs totals cursor last = Raise e ->
    exists msg, e = ValidationError msg.
Proof.
  induction segs as [|seg segs IH]; cbn; intros totals cursor last e;
    [discriminate|].
  destruct last as [last_end|]; [destruct (time_lt _ _)|].
  - intros [= <-]. eauto.
  - apply IH.
  - apply IH.
Qed.

Lemma accumulate_cursor segs :
  forall totals cursor last totals' cursor',
    accumulate segs totals cursor last = Ok (totals', cursor') ->
    cursor' = cursor + foldr (fun s acc => duration_minutes s + acc) 0 segs.
Proof.
  induction segs as [|seg segs IH]; cbn; intros totals cursor last t c.
  - intros [= _ <-]. lia.
  - destruct last as [last_end|]; [destruct (time_lt _ _); [discriminate|]|];
      intros H; apply IH in H; lia.
Qed.

Lemma accumulate_overlap before a b after :
  time_lt (start_time b) (end_time a) = true ->
  forall totals cursor last,
    exists e, accumulate (before ++ a :: b :: after) totals cursor last = Raise e.
Proof.
  intros Hlt. induction before as [|seg before IH]; intros totals cursor last.
  - cbn [app accumulate].
    destruct last as [last_end|];
      [destruct (time_lt (start_time a) last_end)|]; rewrite ?Hlt; eauto.
  - cbn [app accumulate].
    destruct last as [last_end|];
      [destruct (time_lt (start_time seg) last_end)|]; eauto.
Qed.

Lemma normalised_durations raws segs :
  Forall2 normalised raws segs ->
  foldr (fun r acc => raw_duration r + acc) 0 raws
  = foldr (fun s acc => duration_minutes s + acc) 0 segs.
Proof.
  induction 1 as [|raw seg raws segs [Ht _] _ IH]; cbn; [reflexivity|].
  unfold raw_duration at 1. rewrite Ht. unfold duration_minutes at 1.
  now rewrite IH.
Qed.

(** A rejected segment list never gets through the segment checks. *)
Lemma rejected_segments_checked raws segs totals cursor :
  rejected_segments raws ->
  _normalise_segments raws = Ok segs ->
  accumulate segs initial_totals 0 None = Ok (totals, cursor) ->
  MINUTES_PER_DAY < cursor.
Proof.
  intros Hrej Hnorm Hacc.
  apply _normalise_segments_ok in Hnorm.
  destruct Hrej as [Hov | [Hgrid | Hday]].
  - destruct Hov as (before & r1 & r2 & after & s1 & e1 & s2 & e2
                     & -> & H1 & H2 & Hlt).
    apply Forall2_app_inv_l in Hnorm as (sb & rest & _ & Hrest & ->).
    apply Forall2_cons_inv_l in Hrest as (a & rest' & [Ha _] & Hrest & ->).
    apply Forall2_cons_inv_l in Hrest as (b & sa & [Hb _] & _ & ->).
    rewrite H1 in Ha. rewrite H2 in Hb.
    injection Ha as -> ->. injection Hb as -> ->.
    destruct (accumulate_overlap sb a b sa Hlt initial_totals 0 None) as [e He].
    congruence.
  - destruct Hgrid as (r & s & e & Hin & Ht & Hmod).
    apply list_elem_of_lookup in Hin as [i Hi].
    destruct (Forall2_lookup_l _ _ _ _ _ Hnorm Hi) as (seg & _ & Hn & Hv).
    rewrite Ht in Hn. injection Hn as -> ->.
    apply validate_ok in Hv as (_ & _ & Hv). unfold duration_minutes in Hv.
    contradiction.
  - unfold exceeds_a_day in Hday.
    rewrite (normalised_durations _ _ Hnorm) in Hday.
    apply accumulate_cursor in Hacc. unfold MINUTES_PER_DAY. lia.
Qed.

End LogFacts.

Section UpsertFacts.

Import Models Logs.
Local Open Scope Z_scope.

Lemma upsert_body_rejected user trip_id day_number log_date notes segments
      dist today db :
  rejected_segments segments ->
  0 < day_number -> owns_trip db user trip_id ->
  exists msg,
    upsert_body user trip_id day_number log_date notes segments dist today db
    = (Raise (ValidationError msg), db).
Proof.
  intros Hrej Hday (trip & Htrip & Huser).
  unfold upsert_body.
  assert (E : (day_number <=? 0) = false) by (apply Z.leb_gt; lia).
  rewrite E, Htrip, bool_decide_true by exact Huser.
  destruct (_normalise_segments segments) as [segs|e] eqn:N.
  2:{ apply _normalise_segments_raises in N as [msg ->]. eauto. }
  destruct segs as [|seg segs]; [eauto|].
  destruct (accumulate (seg :: segs) initial_totals 0 None)
    as [[totals cursor]|e] eqn:A.
  2:{ apply accumulate_raises in A as [msg ->]. eauto. }
  pose proof (rejected_segments_checked _ _ _ _ Hrej N A) as Hc.
  apply Z.ltb_lt in Hc. rewrite Hc. eauto.
Qed.

Lemma upsert_body_not_owned user trip_id day_number log_date notes segments
      dist today db :
  0 < day_number -> ~ owns_trip db user trip_id ->
  upsert_body user trip_id day_number log_date notes segments dist today db
  = (Raise (PermissionDenied "Trip not found"), db).
Proof.
  intros Hday Hnot. unfold upsert_body.
  assert (E : (day_number <=? 0) = false) by (apply Z.leb_gt; lia).
  rewrite E.
  destruct (trips db !! trip_id) as [trip|] eqn:Htrip; [|reflexivity].
  rewrite bool_decide_false; [reflexivity|].
  intros Hu. apply Hnot. now exists trip.
Qed.

Lemma upsert_body_bad_day user trip_id day_number log_date notes segments
      dist today db :
  day_number <= 0 ->
  upsert_body user trip_id day_number log_date notes segments dist today db
  = (Raise (ValidationError "dayNumber must be 1 or greater"), db).
Proof.
  intros Hday. unfold upsert_body.
  assert (E : (day_number <=? 0) = true) by (apply Z.leb_le; lia).
  now rewrite E.
Qed.

Lemma overlapping_segments_rejected : rejected_segments overlapping_segments.
Proof.
  left. unfold has_overlap, overlapping_segments.
  exists [], (raw_segment "DRIVING" "08:00" "10:00"),
    (raw_segment "OFF_DUTY" "09:00" "10:30"), [],
    (mkTime 8 0), (mkTime 10 0), (mkTime 9 0), (mkTime 10 30).
  repeat split; vm_compute; reflexivity.
Qed.

Lemma sample_db_owner : owns_trip sample_db 1 1.
Proof. exists (sample_trip 1 "PLANNED"). split; reflexivity. Qed.

Lemma sample_db_foreign_trip : foreign_trip sample_db 2 1.
Proof. exists (sample_trip 1 "PLANNED"). split; [reflexivity | discriminate]. Qed.

Lemma sample_db_foreign_log : foreign_log sample_db 2 5.
Proof.
  exists (mkDriverLog 1 1 100 0 0 0 0 0 ""), (sample_trip 1 "PLANNED").
  repeat split; try reflexivity. discriminate.
Qed.

Lemma _normalise_segments_middle before raw raw' after :
  normalise_segment raw = normalise_segment raw' ->
  _normalise_segments (before ++ raw :: after)
  = _normalise_segments (before ++ raw' :: after).
Proof.
  intros H. induction before as [|r before IH]; cbn [app _normalise_segments].
  - now rewrite H.
  - now rewrite IH.
Qed.

End UpsertFacts.

(** C4, as the code has it: a call of [upsert_driver_log] whose segment list
    has an overlap, a duration that 15 does not divide, or more than 1440
    minutes in total always raises and persists nothing.  The exception is
    a ValidationError when the day number is not positive or the trip
    belongs to the caller; for a positive day number and a trip that the
    caller does not own it is PermissionDenied("Trip not found"), raised by
    the ownership check that precedes the segment checks. *)
Theorem rejected_segments_raise
        (user trip_id day_number : Z) (log_date : option Z)
        (notes : option string) (segments : list (gmap string Logs.PyVal))
        (dist : option Q) (today : Z) (db : Models.DB) :
  rejected_segments segments ->
  let outcome :=
    Logs.upsert_driver_log user trip_id day_number log_date notes segments
                           dist today db in
  outcome.2 = db
  /\ ((day_number <= 0)%Z \/ owns_trip db user trip_id ->
      exists msg, outcome.1 = Raise (ValidationError msg))
  /\ ((0 < day_number)%Z /\ ~ owns_trip db user trip_id ->
      outcome.1 = Raise (PermissionDenied "Trip not found")).
Proof.
  intros Hrej. cbv zeta. unfold Logs.upsert_driver_log, Models.atomic.
  destruct (Z_le_gt_dec day_number 0) as [Hday | Hday].
  - rewrite upsert_body_bad_day by exact Hday. cbn.
    split; [reflexivity|]. split; [eauto | intros [? _]; lia].
  - destruct (Models.trips db !! trip_id) as [trip|] eqn:Htrip.
    + destruct (decide (Models.trip_user trip = user)) as [Hu | Hu].
      * destruct (upsert_body_rejected user trip_id day_number log_date notes
                    segments dist today db Hrej) as [msg ->];
          [lia | now exists trip |].
        cbn. split; [reflexivity|]. split; [eauto|].
        intros [_ Hnot]. exfalso. apply Hnot. now exists trip.
      * assert (Hnot : ~ owns_trip db user trip_id).
        { intros (t & Ht & Hut). congruence. }
        rewrite upsert_body_not_owned by (lia || exact Hnot). cbn.
        split; [reflexivity|]. split; [|reflexivity].
        intros [? | ?]; [lia | contradiction].
    + assert (Hnot : ~ owns_trip db user trip_id).
      { intros (t & Ht & _). congruence. }
      rewrite upsert_body_not_owned by (lia || exact Hnot). cbn.
      split; [reflexivity|]. split; [|reflexivity].
      intros [? | ?]; [lia | contradiction].
Qed.

Lemma rejected_segments_raise_witness :
  rejected_segments overlapping_segments
  /\ let outcome :=
       Logs.upsert_driver_log 1 1 1 None None overlapping_segments None 100
                              sample_db in
     outcome.2 = sample_db
     /\ ((1 <= 0)%Z \/ owns_trip sample_db 1 1 ->
         exists msg, outcome.1 = Raise (ValidationError msg))
     /\ ((0 < 1)%Z /\ ~ owns_trip sample_db 1 1 ->
         outcome.1 = Raise (PermissionDenied "Trip not found")).
Proof.
  split.
  - exact overlapping_segments_rejected.
  - apply (rejected_segments_raise 1 1 1 None None overlapping_segments None 100
                                   sample_db).
    exact overlapping_segments_rejected.
Defined.

(** C4 as stated fails: user 2 sends an overlapping segment list for trip 1,
    which belongs to user 1, and gets PermissionDenied, not ValidationError. *)
Lemma overlapping_segments_on_foreign_trip :
  rejected_segments overlapping_segments
  /\ (Logs.upsert_driver_log 2 1 1 None None overlapping_segments None 100
                             sample_db).1
     = Raise (PermissionDenied "Trip not found")
  /\ ~ exists msg,
        (Logs.upsert_driver_log 2 1 1 None None overlapping_segments None 100
                                sample_db).1
        = Raise (ValidationError msg).
Proof.
  split; [exact overlapping_segments_rejected|].
  assert (H : (Logs.upsert_driver_log 2 1 1 None None overlapping_segments None
                 100 sample_db).1 = Raise (PermissionDenied "Trip not found"))
    by (vm_compute; reflexivity).
  split; [exact H|]. intros [msg Hmsg]. rewrite H in Hmsg. discriminate.
Qed.

(** C8, as the code has it: [upsert_driver_log] answers a trip that does not
    exist and a trip of another user alike, and changes nothing;
    [delete_driver_log] tells the two apart: it returns [False] for a log
    that does not exist and raises PermissionDenied("Not allowed to modify
    this log") for a log on another user's trip, deleting nothing in either
    case. *)
Theorem ownership_outcomes
        (user missing_trip other_trip missing_log other_log day_number : Z)
        (log_date : option Z) (notes : option string)
        (segments : list (gmap string Logs.PyVal)) (dist : option Q)
        (today : Z) (db : Models.DB) :
  Models.trips db !! missing_trip = None ->
  foreign_trip db user other_trip ->
  Models.driver_logs db !! missing_log = None ->
  foreign_log db user other_log ->
  Logs.upsert_driver_log user missing_trip day_number log_date notes segments
                         dist today db
  = Logs.upsert_driver_log user other_trip day_number log_date notes segments
                           dist today db
  /\ (Logs.upsert_driver_log user missing_trip day_number log_date notes
                             segments dist today db).2 = db
  /\ Logs.delete_driver_log user missing_log db = (Ok false, db)
  /\ Logs.delete_driver_log user other_log db
     = (Raise (PermissionDenied "Not allowed to modify this log"), db).
Proof.
  intros Hmiss (t & Ht & Hut) Hlmiss (l & t' & Hl & Ht' & Hut').
  unfold Logs.upsert_driver_log, Logs.delete_driver_log, Models.atomic.
  repeat split.
  - unfold Logs.upsert_body. rewrite Hmiss, Ht.
    rewrite bool_decide_false by exact Hut.
    destruct (day_number <=? 0)%Z; reflexivity.
  - unfold Logs.upsert_body. rewrite Hmiss.
    destruct (day_number <=? 0)%Z; reflexivity.
  - unfold Logs.delete_body. now rewrite Hlmiss.
  - unfold Logs.delete_body. rewrite Hl, Ht'.
    now rewrite bool_decide_true by exact Hut'.
Qed.

Lemma ownership_outcomes_witness :
  Logs.upsert_driver_log 2 9 1 None None overlapping_segments None 100 sample_db
  = Logs.upsert_driver_log 2 1 1 None None overlapping_segments None 100 sample_db
  /\ (Logs.upsert_driver_log 2 9 1 None None overlapping_segments None 100
                             sample_db).2 = sample_db
  /\ Logs.delete_driver_log 2 9 sample_db = (Ok false, sample_db)
  /\ Logs.delete_driver_log 2 5 sample_db
     = (Raise (PermissionDenied "Not allowed to modify this log"), sample_db).
Proof.
  apply (ownership_outcomes 2 9 1 9 5 1 None None overlapping_segments None 100
                            sample_db).
  - reflexivity.
  - exact sample_db_foreign_trip.
  - reflexivity.
  - exact sample_db_foreign_log.
Defined.

(** C8 as stated fails for [delete_driver_log]: user 2 can tell the log 9,
    which does not exist, from the log 5 of user 1, both through the
    service (False against PermissionDenied) and through the
    [DeleteDriverLog] mutation (a "Driver log not found" payload against an
    exception). *)
Lemma delete_tells_missing_from_foreign :
  Models.driver_logs sample_db !! 9%Z = None
  /\ foreign_log sample_db 2 5
  /\ (Logs.delete_driver_log 2 9 sample_db).1
     <> (Logs.delete_driver_log 2 5 sample_db).1
  /\ (Mutations.delete_driver_log_mutate 2 9 sample_db).1
     = Ok (Mutations.mkDeleteDriverLog false ["Driver log not found"])
  /\ (Mutations.delete_driver_log_mutate 2 5 sample_db).1
     = Raise (OtherException "name 'PermissionDenied' is not defined").
Proof.
  split; [reflexivity|]. split; [exact sample_db_foreign_log|].
  split; [vm_compute; discriminate|].
  split; vm_compute; reflexivity.
Qed.

Section StatusKeyFacts.

Import Models Logs.

Lemma normalise_segment_default_status raw :
  raw !! "status" = None ->
  normalise_segment raw
  = normalise_segment (<["status" := PyStr STATUS_OFF_DUTY]> raw).
Proof.
  intros Hnone. unfold normalise_segment, get_or_empty.
  rewrite lookup_insert_eq, Hnone.
  rewrite !lookup_insert_ne by discriminate.
  reflexivity.
Qed.

Lemma normalise_segment_status_error raw s :
  normalise_segment raw
  = Raise (ValidationError ("Unsupported duty status '" +:+ s +:+ "'")) ->
  exists v, raw !! "status" = Some v /\ status_valid v = false.
Proof.
  unfold normalise_segment.
  destruct (_parse_time "startTime" _) as [st|e1] eqn:P1.
  2:{ intros [= ->]. unfold _parse_time in P1.
      destruct (raw !! "startTime") as [[|[|a v]]|]; try discriminate.
      destruct (strptime_HM _); discriminate. }
  destruct (_parse_time "endTime" _) as [et|e2] eqn:P2.
  2:{ intros [= ->]. unfold _parse_time in P2.
      destruct (raw !! "endTime") as [[|[|a v]]|]; try discriminate.
      destruct (strptime_HM _); discriminate. }
  unfold validate. cbn [status start_time end_time].
  destruct (raw !! "status") as [v|] eqn:Hs; cbn [from_option]; unfold id.
  - destruct (status_valid v) eqn:Hv; cbn [negb].
    + destruct (time_le _ _); [|destruct (negb _)];
        intros H; discriminate H.
    + intros _. now exists v.
  - cbn [status_valid negb]. rewrite bool_decide_true; cbn [negb].
    + destruct (time_le _ _); [|destruct (negb _)];
        intros H; discriminate H.
    + unfold VALID_STATUSES. apply list_elem_of_here.
Qed.

Lemma normalise_segment_unknown_status raw v :
  raw !! "status" = Some v -> status_valid v = false ->
  is_Some (raw_times raw) ->
  normalise_segment raw
  = Raise (ValidationError ("Unsupported duty status '" +:+ py_str v +:+ "'")).
Proof.
  intros Hs Hv [[st et] Ht]. unfold raw_times in Ht.
  unfold normalise_segment.
  destruct (_parse_time "startTime" _) as [st'|]; [|discriminate].
  destruct (_parse_time "endTime" _) as [et'|]; [|discriminate].
  unfold validate. cbn [status]. rewrite Hs. cbn [from_option]. unfold id.
  rewrite Hv. reflexivity.
Qed.

End StatusKeyFacts.

(** A two-hour segment without a status, stored for day 1 of trip 1, is
    counted as 120 off-duty minutes. *)
Example absent_status_counts_as_off_duty :
  (Logs.upsert_driver_log 1 1 1 None None [segment_without_status] None 100
                          sample_db).1
  = Ok (5%Z, Models.mkDriverLog 1 1 100 120 0 0 0 0 "").
Proof. vm_compute. reflexivity. Qed.

(** ** Trip planning and the background jobs *)

Section PlannerFacts.

Import Models TripPlanner.

Lemma plan_trip_body_jobs env user start pickup dropoff cyc carrier db :
  jobs (plan_trip_body env user start pickup dropoff cyc carrier db).2
  = jobs db.
Proof.
  unfold plan_trip_body.
  destruct (OpenRoute.plan_route _ _ _) as [rd|e]; [|destruct e; reflexivity].
  cbn [_build_stop_definitions zip_with map].
  destruct (build_legs _ _ _ _) as [stops legs]. reflexivity.
Qed.

Lemma plan_trip_for_user_jobs env user start pickup dropoff cyc carrier db :
  jobs (plan_trip_for_user env user start pickup dropoff cyc carrier db).2
  = jobs db.
Proof.
  unfold plan_trip_for_user, atomic. destruct user as [user|]; [|reflexivity].
  pose proof (plan_trip_body_jobs env user start pickup dropoff cyc carrier db)
    as H.
  destruct (plan_trip_body _ _ _ _ _ _ _ _) as [[r|e] db']; cbn in *; auto.
Qed.

Lemma _run_trip_job_jobs env job db :
  jobs (_run_trip_job env job db).2 = jobs db.
Proof.
  unfold _run_trip_job. destruct (job_user job); [|reflexivity].
  apply plan_trip_for_user_jobs.
Qed.

Lemma finished_mark_success now res j : finished (mark_success now res j).
Proof. now left. Qed.

Lemma finished_mark_failed now msg j : finished (mark_failed now msg j).
Proof. now right. Qed.

(** One job: it ends finished, in memory and in the table, and no other
    row of the table changes. *)
Lemma run_and_mark_spec env now job_id job db :
  let out := run_and_mark env now job_id job db in
  finished out.1
  /\ (forall k, k <> job_id -> jobs out.2 !! k = jobs db !! k)
  /\ (forall j, jobs db !! job_id = Some j ->
                exists j', jobs out.2 !! job_id = Some j' /\ finished j').
Proof.
  cbv zeta. unfold run_and_mark.
  pose proof (_run_trip_job_jobs env (mark_running now job)
                (save_job job_id (mark_running now) db)) as Hjobs.
  destruct (_run_trip_job _ _ _) as [[[trip_id trip]|e] db1]; cbn [snd] in Hjobs.
  - cbn [fst snd]. split; [apply finished_mark_success|]. split.
    + intros k Hk. unfold save_job; cbn [jobs with_jobs].
      rewrite lookup_alter_ne by congruence. rewrite Hjobs.
      unfold save_job; cbn [jobs with_jobs].
      now rewrite lookup_alter_ne by congruence.
    + intros j Hj. unfold save_job; cbn [jobs with_jobs].
      rewrite lookup_alter_eq, Hjobs. unfold save_job; cbn [jobs with_jobs].
      rewrite lookup_alter_eq, Hj. cbn.
      eexists. split; [reflexivity | apply finished_mark_success].
  - assert (Hfail : forall msg,
      finished (mark_failed now msg (mark_running now job))
      /\ (forall k, k <> job_id ->
            jobs (save_job job_id (mark_failed now msg) db1) !! k = jobs db !! k)
      /\ (forall j, jobs db !! job_id = Some j ->
            exists j', jobs (save_job job_id (mark_failed now msg) db1) !! job_id
                       = Some j' /\ finished j')).
    { intros msg. split; [apply finished_mark_failed|]. split.
      + intros k Hk. unfold save_job; cbn [jobs with_jobs].
        rewrite lookup_alter_ne by congruence. rewrite Hjobs.
        unfold save_job; cbn [jobs with_jobs].
        now rewrite lookup_alter_ne by congruence.
      + intros j Hj. unfold save_job; cbn [jobs with_jobs].
        rewrite lookup_alter_eq, Hjobs. unfold save_job; cbn [jobs with_jobs].
        rewrite lookup_alter_eq, Hj. cbn.
        eexists. split; [reflexivity | apply finished_mark_failed]. }
    destruct e; cbn [fst snd]; apply Hfail.
Qed.

Lemma process_jobs_spec env now pending :
  forall processed db,
    NoDup pending.*1 ->
    let out := process_jobs env now pending processed db in
    out.1.*1 = processed.*1 ++ pending.*1
    /\ (forall kj, kj ∈ out.1 -> kj ∈ processed \/ finished kj.2)
    /\ (forall k, k ∉ pending.*1 -> jobs out.2 !! k = jobs db !! k)
    /\ (forall k j, k ∈ pending.*1 -> jobs db !! k = Some j ->
                    exists j', jobs out.2 !! k = Some j' /\ finished j').
Proof.
  induction pending as [|[job_id job] rest IH]; intros processed db Hnd;
    cbv zeta.
  - cbn. rewrite app_nil_r. repeat split; auto.
    intros k j Hk. now apply elem_of_nil in Hk.
  - cbn [process_jobs].
    pose proof (run_and_mark_spec env now job_id job db) as (Hfin & Hother & Hsame).
    destruct (run_and_mark env now job_id job db) as [job' db1].
    cbn [fst snd] in Hfin, Hother, Hsame.
    cbn [fmap list_fmap fst] in Hnd. apply NoDup_cons in Hnd as [Hnotin Hnd].
    specialize (IH (processed ++ [(job_id, job')]) db1 Hnd).
    cbv zeta in IH. destruct IH as (Hids & Hproc & Hout & Hin).
    split; [|split; [|split]].
    + rewrite Hids, fmap_app. cbn. now rewrite <- app_assoc.
    + intros kj Hkj. apply Hproc in Hkj as [Hkj | Hkj]; [|now right].
      apply elem_of_app in Hkj as [Hkj | Hkj]; [now left|].
      apply list_elem_of_singleton in Hkj as ->. now right.
    + intros k Hk. cbn [fmap list_fmap fst] in Hk.
      apply not_elem_of_cons in Hk as [Hne Hk].
      rewrite Hout by exact Hk. now apply Hother.
    + intros k j Hk Hj. cbn [fmap list_fmap fst] in Hk.
      apply elem_of_cons in Hk as [-> | Hk].
      * destruct (Hsame j Hj) as (j' & Hj' & Hfj').
        exists j'. split; [|exact Hfj'].
        now rewrite Hout by exact Hnotin.
      * assert (Hne : k <> job_id) by (intros ->; contradiction).
        apply (Hin k j Hk). now rewrite Hother.
Qed.

#[local] Instance created_le_trans : Transitive created_le.
Proof. intros a b c. unfold created_le. lia. Qed.

#[local] Instance created_le_total : Total created_le.
Proof. intros a b. unfold created_le. lia. Qed.

Lemma StronglySorted_take {A} (R : relation A) n l :
  StronglySorted R l -> StronglySorted R (take n l).
Proof.
  intros H. revert n. induction H as [|x l Hl IH Hx]; intros [|n]; cbn;
    try constructor; auto.
  now apply Forall_take.
Qed.

(** The selection: distinct PENDING PLAN_TRIP rows of the table, at most
    [limit] of them, oldest first. *)
Lemma pending_jobs_spec limit db :
  NoDup (pending_jobs limit db).*1
  /\ length (pending_jobs limit db) <= limit
  /\ StronglySorted created_le (pending_jobs limit db)
  /\ (forall k j, (k, j) ∈ pending_jobs limit db ->
        jobs db !! k = Some j
        /\ job_type j = JOB_TYPE_PLAN_TRIP /\ job_status j = STATUS_PENDING).
Proof.
  unfold pending_jobs.
  set (P := fun kv : Z * BackgroundJob =>
              job_type kv.2 = JOB_TYPE_PLAN_TRIP
              /\ job_status kv.2 = STATUS_PENDING).
  split; [|split; [|split]].
  - rewrite fmap_take. eapply sublist_NoDup; [|apply sublist_take].
    rewrite merge_sort_Permutation.
    apply (sublist_NoDup _ (map_to_list (jobs db)).*1);
      [apply NoDup_fst_map_to_list|].
    apply fmap_sublist, sublist_filter.
  - rewrite length_take. lia.
  - apply StronglySorted_take, StronglySorted_merge_sort; apply _.
  - intros k j Hin. apply subseteq_take in Hin.
    rewrite merge_sort_Permutation in Hin.
    apply list_elem_of_filter in Hin as [[Ht Hs] Hin].
    apply elem_of_map_to_list in Hin. auto.
Qed.

(** With room for the whole queue, the selection is the queue. *)
Lemma pending_jobs_all limit db :
  length (queue db) <= limit ->
  forall kj, kj ∈ queue db -> kj ∈ pending_jobs limit db.
Proof.
  intros Hlen kj Hkj. unfold pending_jobs. fold (queue db).
  rewrite take_ge by (rewrite merge_sort_Permutation; exact Hlen).
  now rewrite merge_sort_Permutation.
Qed.

Lemma pending_jobs_length limit db :
  length (pending_jobs limit db) = limit `min` length (queue db).
Proof.
  unfold pending_jobs. fold (queue db).
  now rewrite length_take, merge_sort_Permutation.
Qed.

Lemma StronglySorted_take_drop {A} (R : relation A) l :
  StronglySorted R l ->
  forall n x y, x ∈ take n l -> y ∈ drop n l -> R x y.
Proof.
  induction 1 as [|a l Hl IH Ha]; intros [|n] x y Hx Hy; cbn in Hx, Hy;
    try (now apply elem_of_nil in Hx).
  apply elem_of_cons in Hx as [-> | Hx].
  - eapply Forall_forall; [exact Ha|]. eapply subseteq_drop, Hy.
  - eapply IH; eassumption.
Qed.

(** A queued job that was left out is no older than any selected job. *)
Lemma pending_jobs_oldest limit db kj s :
  kj ∈ queue db -> kj ∉ pending_jobs limit db -> s ∈ pending_jobs limit db ->
  created_le s kj.
Proof.
  unfold pending_jobs. fold (queue db). intros Hq Hout Hs.
  set (l := merge_sort created_le (queue db)) in *.
  assert (Hsorted : StronglySorted created_le l)
    by (apply StronglySorted_merge_sort; apply _).
  eapply (StronglySorted_take_drop _ _ Hsorted limit); [exact Hs|].
  assert (Hl : kj ∈ l) by (unfold l; now rewrite merge_sort_Permutation).
  rewrite <- (take_drop limit l) in Hl.
  apply elem_of_app in Hl as [Hl | Hl]; [contradiction | exact Hl].
Qed.

End PlannerFacts.

(** The path the code wraps: when [plan_route] raises its own
    RoutePlannerError, [plan_trip_for_user] raises a TripPlanningError that
    carries the message, and the database is the one it started from: no
    Trip, Route or Stop row remains. *)
Theorem routing_failure_rolls_back
        (env : OpenRoute.Env) (user : Z)
        (start_location pickup_location dropoff_location : Models.Location)
        (cycle_hours_used : Q) (carrier : Models.CarrierFields)
        (db : Models.DB) (message : string) :
  OpenRoute.plan_route env [start_location; pickup_location; dropoff_location] 5000
  = Raise (RoutePlannerError message) ->
  let outcome :=
    TripPlanner.plan_trip_for_user env (Some user) start_location
      pickup_location dropoff_location cycle_hours_used carrier db in
  outcome.1 = Raise (TripPlanningError message)
  /\ outcome.2 = db
  /\ Models.trips outcome.2 = Models.trips db
  /\ Models.routes outcome.2 = Models.routes db
  /\ Models.stops outcome.2 = Models.stops db.
Proof.
  intros Hfail. cbv zeta.
  unfold TripPlanner.plan_trip_for_user, Models.atomic,
    TripPlanner.plan_trip_body.
  rewrite Hfail. cbn. repeat split; reflexivity.
Qed.

Lemma routing_failure_rolls_back_witness :
  let outcome :=
    TripPlanner.plan_trip_for_user env_down (Some 1%Z) sample_location
      sample_location sample_location 0 (Models.mkCarrierFields None None None None None None None None)
      sample_db in
  outcome.1
  = Raise (TripPlanningError "Failed to contact OpenRouteService: timed out")
  /\ outcome.2 = sample_db
  /\ Models.trips outcome.2 = Models.trips sample_db
  /\ Models.routes outcome.2 = Models.routes sample_db
  /\ Models.stops outcome.2 = Models.stops sample_db.
Proof.
  apply (routing_failure_rolls_back env_down 1 sample_location sample_location
           sample_location 0
           (Models.mkCarrierFields None None None None None None None None)
           sample_db "Failed to contact OpenRouteService: timed out").
  vm_compute. reflexivity.
Defined.

(** Every failure of [plan_route] rolls the transaction back, but only a
    RoutePlannerError is turned into a TripPlanningError: any other
    exception reaches the caller as it is. *)
Lemma plan_failure_outcome
      (env : OpenRoute.Env) (user : Z)
      (start_location pickup_location dropoff_location : Models.Location)
      (cycle_hours_used : Q) (carrier : Models.CarrierFields)
      (db : Models.DB) (e : Exception) :
  OpenRoute.plan_route env [start_location; pickup_location; dropoff_location] 5000
  = Raise e ->
  TripPlanner.plan_trip_for_user env (Some user) start_location
    pickup_location dropoff_location cycle_hours_used carrier db
  = (Raise (match e with
            | RoutePlannerError message => TripPlanningError message
            | _ => e
            end), db).
Proof.
  intros Hfail.
  unfold TripPlanner.plan_trip_for_user, Models.atomic,
    TripPlanner.plan_trip_body.
  rewrite Hfail. now destruct e.
Qed.

(** C3: the claim fails when the provider answers 200 with a body that is
    not JSON.  [response.json()] then raises outside the [try] of
    [plan_route], so no RoutePlannerError is made of it, and
    [plan_trip_for_user], which catches RoutePlannerError only, passes the
    exception on: the caller gets no TripPlanningError.  The transaction is
    rolled back all the same. *)
Theorem non_json_reply_escapes_unwrapped :
  let outcome :=
    TripPlanner.plan_trip_for_user env_not_json (Some 1%Z) sample_location
      sample_location sample_location 0 no_carrier_fields sample_db in
  OpenRoute.plan_route env_not_json
    [sample_location; sample_location; sample_location] 5000
  = Raise (OtherException "Expecting value: line 1 column 1 (char 0)")
  /\ outcome.1 = Raise (OtherException "Expecting value: line 1 column 1 (char 0)")
  /\ (forall message, outcome.1 <> Raise (TripPlanningError message))
  /\ outcome.2 = sample_db.
Proof.
  cbv zeta.
  assert (Hroute : OpenRoute.plan_route env_not_json
                     [sample_location; sample_location; sample_location] 5000
                   = Raise (OtherException "Expecting value: line 1 column 1 (char 0)"))
    by (vm_compute; reflexivity).
  rewrite (plan_failure_outcome _ _ _ _ _ _ _ _ _ Hroute). cbn [fst snd].
  split; [exact Hroute|]. split; [reflexivity|].
  split; [intros message H; discriminate H | reflexivity].
Qed.

(** C6: a batch run selects the PENDING PLAN_TRIP rows, oldest first, as
    many as there are up to [limit]: a queued job that is left out is no
    older than any selected one, and with room for the queue every PENDING
    PLAN_TRIP job is selected.  The run processes every selected job,
    whatever happens to the jobs before it, and each of them ends the run as
    SUCCESS or FAILED, never PENDING or RUNNING, in the returned list and in
    the table. *)
Theorem batch_finishes_every_job
        (env : OpenRoute.Env) (now : Z) (limit : nat) (db : Models.DB) :
  let selected := TripPlanner.pending_jobs limit db in
  let out := TripPlanner.process_pending_trip_jobs env now limit db in
  (forall k j, (k, j) ∈ selected ->
     Models.jobs db !! k = Some j
     /\ Models.job_type j = Models.JOB_TYPE_PLAN_TRIP
     /\ Models.job_status j = Models.STATUS_PENDING)
  /\ length selected <= limit
  /\ StronglySorted TripPlanner.created_le selected
  /\ length selected = limit `min` length (queue db)
  /\ (forall kj s, kj ∈ queue db -> kj ∉ selected -> s ∈ selected ->
        (Models.created_at s.2 <= Models.created_at kj.2)%Z)
  /\ (length (queue db) <= limit ->
      forall k j, Models.jobs db !! k = Some j ->
        Models.job_type j = Models.JOB_TYPE_PLAN_TRIP ->
        Models.job_status j = Models.STATUS_PENDING ->
        (k, j) ∈ selected)
  /\ out.1.*1 = selected.*1
  /\ (forall kj, kj ∈ out.1 ->
        finished kj.2
        /\ Models.job_status kj.2 <> Models.STATUS_PENDING
        /\ Models.job_status kj.2 <> Models.STATUS_RUNNING)
  /\ (forall k j, (k, j) ∈ selected ->
        exists j', Models.jobs out.2 !! k = Some j'
                   /\ finished j'
                   /\ Models.job_status j' <> Models.STATUS_PENDING
                   /\ Models.job_status j' <> Models.STATUS_RUNNING
                   /\ ~ (Models.job_status j' = Models.STATUS_SUCCESS
                         /\ Models.job_status j' = Models.STATUS_FAILED)).
Proof.
  cbv zeta. unfold TripPlanner.process_pending_trip_jobs.
  destruct (pending_jobs_spec limit db) as (Hnd & Hlen & Hsorted & Hsel).
  pose proof (process_jobs_spec env now (TripPlanner.pending_jobs limit db)
                [] db Hnd) as Hrun.
  cbv zeta in Hrun. destruct Hrun as (Hids & Hproc & _ & Hin).
  assert (Hfin : forall j, finished j ->
            Models.job_status j <> Models.STATUS_PENDING
            /\ Models.job_status j <> Models.STATUS_RUNNING
            /\ ~ (Models.job_status j = Models.STATUS_SUCCESS
                  /\ Models.job_status j = Models.STATUS_FAILED)).
  { intros j [H | H]; rewrite H; repeat split; try discriminate.
    - intros [_ ?]; discriminate.
    - intros [? _]; discriminate. }
  split; [exact Hsel|]. split; [exact Hlen|]. split; [exact Hsorted|].
  split; [apply pending_jobs_length|].
  split; [intros kj s Hq Hout Hs; exact (pending_jobs_oldest _ _ _ _ Hq Hout Hs)|].
  split.
  { intros Hroom k j Hk Ht Hs. apply pending_jobs_all; [exact Hroom|].
    apply list_elem_of_filter. split; [now split|].
    now apply elem_of_map_to_list. }
  split; [exact Hids|]. split.
  - intros kj Hkj. apply Hproc in Hkj as [Hkj | Hkj].
    + now apply elem_of_nil in Hkj.
    + split; [exact Hkj|]. split; apply (Hfin _ Hkj).
  - intros k j Hkj. destruct (Hsel k j Hkj) as (Hlook & _).
    destruct (Hin k j) as (j' & Hj' & Hfj'); [|exact Hlook|].
    + apply list_elem_of_fmap. now exists (k, j).
    + exists j'. split; [exact Hj'|]. split; [exact Hfj'|]. apply (Hfin _ Hfj').
Qed.

(** ** The status-update mutation *)

Section MutationFacts.

Import Models Mutations.

Lemma existing_active_nonempty db user pk :
  existing_active db user pk <> ∅ <-> other_active db user pk.
Proof.
  unfold existing_active, other_active. split.
  - intros Hne.
    destruct (map_choose _ Hne) as (k & t & Hkt).
    apply map_lookup_filter_Some in Hkt as (Hk & Hu & Hs & Hpk).
    cbn in *. exists k, t. auto.
  - intros (k & t & Hk & Hlook & Hu & Hs) Hempty.
    assert (H : filter (fun kv : Z * Trip =>
                          trip_user kv.2 = user
                          /\ trip_status kv.2 = TRIP_STATUS_IN_PROGRESS
                          /\ kv.1 <> pk) (trips db) !! k = Some t).
    { apply map_lookup_filter_Some. cbn. auto. }
    rewrite Hempty, lookup_empty in H. discriminate.
Qed.

(** The mutation either leaves the database alone or stores the
    normalised status on the trip, and it does the latter only when the
    guards allow it. *)
Lemma mutate_cases user trip_id status db :
  (mutate user trip_id status db).2 = db
  \/ exists trip,
      trips db !! trip_id = Some trip /\ trip_user trip = user
      /\ (upper (strip status) = TRIP_STATUS_IN_PROGRESS ->
          ~ other_active db user trip_id)
      /\ mutate user trip_id status db
         = (Ok (mkUpdateTripStatus true
                  (Some (trip_id, set_trip_status trip (upper (strip status))))
                  []),
            with_trips db
              (alter (fun row => set_trip_status row (upper (strip status)))
                     trip_id (trips db))).
Proof.
  unfold mutate.
  destruct (trips db !! trip_id) as [trip|] eqn:Htrip; [|now left].
  case_bool_decide as Hu; [now left|].
  case_bool_decide as Hvalid; [now left|].
  case_bool_decide as Hactive; [now left|].
  case_bool_decide as Hleave; [now left|].
  case_bool_decide as Hplanned; [now left|].
  assert (Huser : trip_user trip = user).
  { destruct (decide (trip_user trip = user)); [assumption | contradiction]. }
  assert (Hfree : upper (strip status) = TRIP_STATUS_IN_PROGRESS ->
                  ~ other_active db user trip_id).
  { intros Hs Hother. apply Hactive. split; [exact Hs|].
    now apply existing_active_nonempty. }
  unfold save_status. cbn [trip_status trip_user set_trip_status].
  rewrite bool_decide_false.
  - right. exists trip. repeat split; auto.
  - rewrite Huser. intros [Hs Hne]. apply Hactive. now split.
Qed.

End MutationFacts.

Section TransitionFacts.

Import Models Mutations.


Lemma one_active_preserved user trip_id status db :
  one_active_trip_per_user db ->
  one_active_trip_per_user (mutate user trip_id status db).2.
Proof.
  intros Hinv.
  destruct (mutate_cases user trip_id status db)
    as [-> | (trip & Htrip & Huser & Hfree & ->)]; [exact Hinv|].
  cbn [snd]. set (new := upper (strip status)) in *.
  intros k1 k2 t1 t2. cbn [trips with_trips].
  destruct (decide (k1 = trip_id)) as [-> | Hk1];
    destruct (decide (k2 = trip_id)) as [-> | Hk2]; [reflexivity| | |].
  - rewrite lookup_alter_eq, Htrip, lookup_alter_ne by congruence.
    cbn. intros [= <-] H2 Hu Hs1 Hs2. cbn in Hs1, Hu.
    exfalso. apply (Hfree Hs1). exists k2, t2. repeat split; auto; congruence.
  - rewrite lookup_alter_eq, Htrip, lookup_alter_ne by congruence.
    cbn. intros H1 [= <-] Hu Hs1 Hs2. cbn in Hs2, Hu.
    exfalso. apply (Hfree Hs2). exists k1, t1. repeat split; auto; congruence.
  - rewrite !lookup_alter_ne by congruence. apply Hinv.
Qed.

End TransitionFacts.

(** C7: asked to set a trip of the user to IN_PROGRESS while another trip
    of the same user is IN_PROGRESS, the status update answers "Another trip
    is already in progress" and changes nothing (for a trip that is not the
    user's it is refused as well, the database unchanged); and every status
    update, accepted or not, keeps at most one IN_PROGRESS trip per user. *)
Theorem second_active_trip_refused
        (user trip_id : Z) (status : string) (db : Models.DB) :
  (owns_trip db user trip_id ->
   Mutations.upper (Mutations.strip status) = Models.TRIP_STATUS_IN_PROGRESS ->
   other_active db user trip_id ->
   Mutations.mutate user trip_id status db
   = (Ok (Mutations.mkUpdateTripStatus false None
            ["Another trip is already in progress"]), db))
  /\ (Mutations.upper (Mutations.strip status) = Models.TRIP_STATUS_IN_PROGRESS ->
      other_active db user trip_id ->
      exists err,
        Mutations.mutate user trip_id status db
        = (Ok (Mutations.mkUpdateTripStatus false None [err]), db))
  /\ (Mutations.one_active_trip_per_user db ->
      Mutations.one_active_trip_per_user
        (Mutations.mutate user trip_id status db).2).
Proof.
  assert (Hown : owns_trip db user trip_id ->
    Mutations.upper (Mutations.strip status) = Models.TRIP_STATUS_IN_PROGRESS ->
    other_active db user trip_id ->
    Mutations.mutate user trip_id status db
    = (Ok (Mutations.mkUpdateTripStatus false None
             ["Another trip is already in progress"]), db)).
  { intros (trip & Htrip & Huser) Hnew Hother.
    unfold Mutations.mutate. rewrite Htrip.
    rewrite (bool_decide_false (Models.trip_user trip <> user))
      by (intros H; now apply H).
    rewrite Hnew.
    rewrite bool_decide_false.
    2:{ intros H. apply H. apply list_elem_of_further, list_elem_of_here. }
    rewrite bool_decide_true; [reflexivity|].
    split; [reflexivity|]. now apply existing_active_nonempty. }
  split; [exact Hown|]. split; [|apply one_active_preserved].
  intros Hnew Hother.
  destruct (Models.trips db !! trip_id) as [trip|] eqn:Htrip.
  - destruct (decide (Models.trip_user trip = user)) as [Hu | Hu].
    + eexists. apply Hown; [now exists trip | exact Hnew | exact Hother].
    + unfold Mutations.mutate. rewrite Htrip.
      rewrite bool_decide_true by exact Hu. eauto.
  - unfold Mutations.mutate. rewrite Htrip. eauto.
Qed.

Lemma second_active_trip_refused_witness :
  Mutations.mutate 1 2 " in_progress" two_trips_db
  = (Ok (Mutations.mkUpdateTripStatus false None
           ["Another trip is already in progress"]), two_trips_db).
Proof.
  apply (proj1 (second_active_trip_refused 1 2 " in_progress" two_trips_db)).
  - exists (sample_trip 1 "PLANNED"). split; reflexivity.
  - reflexivity.
  - exists 1%Z, (sample_trip 1 "IN_PROGRESS").
    split; [discriminate|]. repeat split; reflexivity.
Defined.



(** A batch of two jobs against a working service: the older job fails
    because its user is gone, the newer one is still run and succeeds, and
    its trip is stored with the totals of the route and three stops. *)
Example batch_failure_then_success :
  let out := TripPlanner.process_pending_trip_jobs env_up 50 10 two_jobs_db in
  out.1.*1 = [1%Z; 2%Z]
  /\ Models.job_status <$> Models.jobs out.2 !! 1%Z = Some Models.STATUS_FAILED
  /\ Models.error_message <$> Models.jobs out.2 !! 1%Z
     = Some "Associated user no longer exists for this job."
  /\ Models.job_status <$> Models.jobs out.2 !! 2%Z = Some Models.STATUS_SUCCESS
  /\ size (Models.trips out.2) = 1
  /\ size (Models.stops out.2) = 3.
Proof. vm_compute. repeat split; reflexivity. Qed.

(** * Further properties *)

(** ** Rounding *)

Section RoundFacts.

Local Open Scope Q_scope.

Lemma Qfloor_unique (f : Z) (x : Q) :
  inject_Z f <= x -> x < inject_Z (f + 1) -> Qfloor x = f.
Proof.
  intros Hlo Hhi.
  pose proof (Qfloor_le x) as H1. pose proof (Qlt_floor x) as H2.
  assert (A : (f < Qfloor x + 1)%Z) by (rewrite Zlt_Qlt; lra).
  assert (B : (Qfloor x < f + 1)%Z) by (rewrite Zlt_Qlt; lra).
  lia.
Qed.

Lemma Qfloor_shift (q : Q) (n : Z) : Qfloor (q + inject_Z n) = (Qfloor q + n)%Z.
Proof.
  apply Qfloor_unique.
  - rewrite inject_Z_plus. pose proof (Qfloor_le q). lra.
  - pose proof (Qlt_floor q) as H.
    rewrite !inject_Z_plus in *. lra.
Qed.

Lemma round_mono (a b : Q) : a <= b -> (Py.round a <= Py.round b)%Z.
Proof.
  intros Hab. unfold Py.round.
  pose proof (Qfloor_resp_le a b Hab) as Hfl.
  pose proof (Qfloor_le a) as La. pose proof (Qlt_floor a) as Ua.
  pose proof (Qfloor_le b) as Lb. pose proof (Qlt_floor b) as Ub.
  destruct (Z.eq_dec (Qfloor a) (Qfloor b)) as [Heq | Hne].
  - rewrite <- Heq in *.
    destruct (Qcompare_spec (a - inject_Z (Qfloor a)) (1 # 2)) as [Ea | Ea | Ea];
      destruct (Qcompare_spec (b - inject_Z (Qfloor a)) (1 # 2)) as [Eb | Eb | Eb];
      try destruct (Z.even (Qfloor a)); try lia; lra.
  - assert (Qfloor a + 1 <= Qfloor b)%Z by lia.
    destruct (a - inject_Z (Qfloor a) ?= 1 # 2);
      destruct (b - inject_Z (Qfloor b) ?= 1 # 2);
      try destruct (Z.even (Qfloor a)); try destruct (Z.even (Qfloor b)); lia.
Qed.

Lemma round_shift_even (q : Q) (n : Z) :
  Z.even n = true -> Py.round (q + inject_Z n) = (Py.round q + n)%Z.
Proof.
  intros Hn. unfold Py.round. rewrite Qfloor_shift.
  assert (E : q + inject_Z n - inject_Z (Qfloor q + n) == q - inject_Z (Qfloor q)).
  { rewrite inject_Z_plus. ring. }
  rewrite E. rewrite Z.even_add, Hn.
  destruct (q - inject_Z (Qfloor q) ?= 1 # 2); try lia.
  destruct (Z.even (Qfloor q)); cbn; lia.
Qed.

Lemma round_inject (n : Z) : Py.round (inject_Z n) = n.
Proof.
  unfold Py.round. rewrite Qfloor_Z.
  assert (E : (inject_Z n - inject_Z n ?= 1 # 2) = Lt).
  { rewrite <- Qlt_alt. lra. }
  now rewrite E.
Qed.

End RoundFacts.

(** ** More on the day scheduler *)

Section SchedulerFacts.

Local Open Scope Q_scope.
Import Hos.

(** Everything the loop body guarantees for one day. *)
Lemma plan_day_facts day rh rc :
  let d := plan_day day rh rc in
  planned_driving d <= rh /\ planned_driving d <= rc
  /\ planned_driving d <= planned_on_duty d
  /\ planned_on_duty d <= planned_driving d + 2
  /\ planned_on_duty d <= rc
  /\ (0 < rh -> 0 < rc ->
      0 < planned_driving d
      /\ (rh - planned_driving d <= 0 \/ rc - planned_on_duty d <= 0
          \/ rc - planned_on_duty d == rc - 13)).
Proof.
  unfold plan_day; cbn [planned_driving planned_on_duty].
  set (pd := Py.min3 DRIVING_LIMIT_PER_DAY rh rc).
  set (od := Py.min3 (pd + ON_DUTY_BUFFER_HOURS) ON_DUTY_LIMIT_PER_DAY rc).
  destruct (min3_spec DRIVING_LIMIT_PER_DAY rh rc) as (A1 & A2 & A3 & A4).
  destruct (min3_spec (pd + ON_DUTY_BUFFER_HOURS) ON_DUTY_LIMIT_PER_DAY rc)
    as (B1 & B2 & B3 & B4).
  fold pd in A1, A2, A3, A4. fold od in B1, B2, B3, B4.
  unfold DRIVING_LIMIT_PER_DAY, ON_DUTY_LIMIT_PER_DAY, ON_DUTY_BUFFER_HOURS in *.
  repeat split; try assumption.
  - destruct B4 as [B | [B | B]]; rewrite B; lra.
  - destruct A4 as [A | [A | A]]; rewrite A; lra.
  - destruct A4 as [A | [A | A]]; destruct B4 as [B | [B | B]];
      rewrite ?A, ?B in *; lra.
Qed.

Lemma schedule_loop_cons fuel day rh rc :
  0 < rh -> 0 < rc ->
  schedule_loop (S fuel) day rh rc
  = match schedule_loop fuel (day + 1)
            (rh - planned_driving (plan_day day rh rc))
            (rc - planned_on_duty (plan_day day rh rc)) with
    | Some rest => Some (plan_day day rh rc :: rest)
    | None => None
    end.
Proof.
  intros H1 H2. cbn [schedule_loop].
  assert (G : Py.Qlt_bool 0 rh && Py.Qlt_bool 0 rc = true).
  { apply andb_true_iff. split; now apply Qlt_bool_true. }
  now rewrite G.
Qed.

(** The shape of a run of the loop: either the guard fails and nothing is
    planned, or a day is planned and the loop goes on from what is left. *)
Lemma schedule_loop_inv fuel day rh rc days :
  schedule_loop fuel day rh rc = Some days ->
  (days = [] /\ (rh <= 0 \/ rc <= 0))
  \/ (exists fuel' rest,
        fuel = S fuel' /\ 0 < rh /\ 0 < rc
        /\ days = plan_day day rh rc :: rest
        /\ schedule_loop fuel' (day + 1)
             (rh - planned_driving (plan_day day rh rc))
             (rc - planned_on_duty (plan_day day rh rc)) = Some rest).
Proof.
  intros Hrun.
  destruct (Py.Qlt_bool 0 rh && Py.Qlt_bool 0 rc) eqn:G.
  - apply andb_true_iff in G as [G1 G2]. apply Qlt_bool_true in G1, G2.
    right. destruct fuel as [|fuel'].
    + cbn in Hrun.
      assert (G : Py.Qlt_bool 0 rh && Py.Qlt_bool 0 rc = true).
      { apply andb_true_iff. split; now apply Qlt_bool_true. }
      rewrite G in Hrun. discriminate.
    + rewrite schedule_loop_cons in Hrun by assumption.
      destruct (schedule_loop fuel' _ _ _) as [rest|] eqn:Hrest; [|discriminate].
      injection Hrun as <-. exists fuel', rest. auto.
  - left. rewrite schedule_loop_guard_false in Hrun by exact G.
    injection Hrun as <-. split; [reflexivity|].
    apply andb_false_iff in G as [G | G]; apply Qlt_bool_false in G; auto.
Qed.

Lemma schedule_loop_numbered fuel :
  forall day rh rc days,
    schedule_loop fuel day rh rc = Some days ->
    map (fun d => day_number (summary d)) days
    = seqZ day (Z.of_nat (length days)).
Proof.
  induction fuel as [|fuel IH]; intros day rh rc days Hrun;
    apply schedule_loop_inv in Hrun
      as [[-> _] | (fuel' & rest & Hf & _ & _ & -> & Hrest)];
    try reflexivity; try discriminate.
  injection Hf as <-. apply IH in Hrest.
  cbn [map length]. rewrite Hrest.
  rewrite (seqZ_cons day) by lia. cbn [plan_day summary day_number].
  do 2 f_equal; lia.
Qed.


Lemma schedule_loop_complete fuel :
  forall day rh rc days,
    schedule_loop fuel day rh rc = Some days ->
    0 <= rh -> 0 <= rc ->
    total_planned_driving days == rh \/ total_planned_on_duty days == rc.
Proof.
  induction fuel as [|fuel IH]; intros day rh rc days Hrun Hrh Hrc;
    apply schedule_loop_inv in Hrun
      as [[-> Hend] | (fuel' & rest & Hf & Hrh' & Hrc' & -> & Hrest)];
    try discriminate.
  - cbn. destruct Hend; [left | right]; lra.
  - cbn. destruct Hend; [left | right]; lra.
  - injection Hf as <-.
    destruct (plan_day_facts day rh rc) as (F1 & _ & _ & _ & F5 & _).
    cbv zeta in F1, F5.
    apply IH in Hrest as [H | H]; [| |lra|lra].
    + left. cbn [total_planned_driving fold_right].
      fold (total_planned_driving rest). lra.
    + right. cbn [total_planned_on_duty fold_right].
      fold (total_planned_on_duty rest). lra.
Qed.

(** A day that is followed by another one used exactly 13 cycle hours, so
    [n] days need more than [13 (n - 1)] hours of cycle. *)
Lemma schedule_loop_length fuel :
  forall day rh rc days (n : nat),
    schedule_loop fuel day rh rc = Some days ->
    rc <= 13 * inject_Z (Z.of_nat n) ->
    (length days <= n)%nat.
Proof.
  induction fuel as [|fuel IH]; intros day rh rc days n Hrun Hn;
    apply schedule_loop_inv in Hrun
      as [[-> _] | (fuel' & rest & Hf & Hrh & Hrc & -> & Hrest)];
    try (cbn; lia); try discriminate.
  injection Hf as <-.
  destruct n as [|n].
  { change (inject_Z (Z.of_nat 0)) with 0 in Hn. lra. }
  rewrite Nat2Z.inj_succ, <- Z.add_1_r, inject_Z_plus in Hn.
  change (inject_Z 1) with 1 in Hn.
  destruct (plan_day_facts day rh rc) as (_ & _ & _ & _ & _ & F).
  destruct (F Hrh Hrc) as (_ & Hprog). cbv zeta in Hprog.
  cbn [length]. apply le_n_S.
  destruct Hprog as [H | [H | H]].
  - rewrite schedule_loop_guard_false in Hrest.
    + injection Hrest as <-. cbn. lia.
    + apply andb_false_iff. left. now apply Qlt_bool_false.
  - rewrite schedule_loop_guard_false in Hrest.
    + injection Hrest as <-. cbn. lia.
    + apply andb_false_iff. right. now apply Qlt_bool_false.
  - eapply IH; [exact Hrest|]. lra.
Qed.

Lemma schedule_loop_terminates_13 fuel :
  forall day rh rc,
    rc <= 13 * inject_Z (Z.of_nat fuel) ->
    exists days, schedule_loop fuel day rh rc = Some days.
Proof.
  induction fuel as [|fuel IH]; intros day rh rc Hrc.
  - exists []. apply schedule_loop_guard_false.
    change (inject_Z (Z.of_nat 0)) with 0 in Hrc.
    apply andb_false_iff. right. apply Qlt_bool_false. lra.
  - destruct (Py.Qlt_bool 0 rh && Py.Qlt_bool 0 rc) eqn:G.
    2:{ exists []. now apply schedule_loop_guard_false. }
    apply andb_true_iff in G as [G1 G2]. apply Qlt_bool_true in G1, G2.
    rewrite schedule_loop_cons by assumption.
    destruct (plan_day_facts day rh rc) as (_ & _ & _ & _ & _ & F).
    destruct (F G1 G2) as (_ & Hprog). cbv zeta in Hprog.
    rewrite Nat2Z.inj_succ, <- Z.add_1_r, inject_Z_plus in Hrc.
    change (inject_Z 1) with 1 in Hrc.
    destruct Hprog as [H | [H | H]].
    + rewrite schedule_loop_guard_false; [eauto|].
      apply andb_false_iff. left. now apply Qlt_bool_false.
    + rewrite schedule_loop_guard_false; [eauto|].
      apply andb_false_iff. right. now apply Qlt_bool_false.
    + destruct (IH (day + 1)%Z
                  (rh - planned_driving (plan_day day rh rc))
                  (rc - planned_on_duty (plan_day day rh rc))) as [rest ->];
        [lra | eauto].
Qed.

Lemma plan_day_segments day rh rc :
  day_segments_consistent (summary (plan_day day rh rc)).
Proof.
  destruct (plan_day_facts day rh rc) as (_ & _ & F3 & F4 & _).
  cbv zeta in F3, F4.
  unfold plan_day in *. cbn [summary planned_driving planned_on_duty] in *.
  set (pd := Py.min3 DRIVING_LIMIT_PER_DAY rh rc) in *.
  set (od := Py.min3 (pd + ON_DUTY_BUFFER_HOURS) ON_DUTY_LIMIT_PER_DAY rc) in *.
  unfold day_segments_consistent.
  cbn [segments total_driving_minutes total_on_duty_minutes
       total_off_duty_minutes total_sleeper_minutes].
  assert (Hrest : Py.round (MANDATORY_OFF_DUTY_HOURS * 60) = 600%Z)
    by (vm_compute; reflexivity).
  rewrite Hrest.
  exists (Py.round (od * 60) - Py.round (pd * 60))%Z.
  split; [reflexivity|]. split; [|split; [lia | split; reflexivity]].
  split.
  - assert (Py.round (pd * 60) <= Py.round (od * 60))%Z
      by (apply round_mono; lra).
    lia.
  - assert (Py.round (od * 60) <= Py.round (pd * 60 + inject_Z 120))%Z.
    { apply round_mono. change (inject_Z 120) with 120. lra. }
    rewrite round_shift_even in H by reflexivity. lia.
Qed.

Lemma schedule_loop_segments fuel :
  forall day rh rc days,
    schedule_loop fuel day rh rc = Some days ->
    Forall (fun d => day_segments_consistent (summary d)) days.
Proof.
  induction fuel as [|fuel IH]; intros day rh rc days Hrun;
    apply schedule_loop_inv in Hrun
      as [[-> _] | (fuel' & rest & Hf & _ & _ & -> & Hrest)];
    try constructor; try discriminate.
  - apply plan_day_segments.
  - injection Hf as <-. eapply IH, Hrest.
Qed.

(** What [schedule] does once it got past its three checks. *)
Lemma schedule_ok fuel t c days :
  schedule fuel t c = Some (Ok days) ->
  0 < t /\ c < 70
  /\ exists hs,
       hs == Qmin t (70 - c) /\ 0 < hs
       /\ schedule_loop fuel 1 hs (Py.max2 (CYCLE_LIMIT_HOURS - c) 0) = Some days
       /\ Py.max2 (CYCLE_LIMIT_HOURS - c) 0 == 70 - c.
Proof.
  unfold schedule.
  destruct (Py.Qlt_bool t 0) eqn:E0; [discriminate|].
  apply Qlt_bool_false in E0.
  destruct (max2_spec (CYCLE_LIMIT_HOURS - c) 0) as (M1 & M2 & M3).
  set (cr := Py.max2 (CYCLE_LIMIT_HOURS - c) 0) in *.
  destruct (Qle_bool cr 0) eqn:E1; [discriminate|].
  apply Qle_bool_false in E1.
  destruct (min2_spec t cr) as (N1 & N2 & N3).
  set (hs := Py.min2 t cr) in *.
  destruct (Qle_bool hs 0) eqn:E2; [discriminate|].
  apply Qle_bool_false in E2.
  destruct (schedule_loop fuel 1 hs cr) as [ds|] eqn:Hloop; [|discriminate].
  intros [= <-]. unfold CYCLE_LIMIT_HOURS in *.
  assert (Hcr : cr == 70 - c).
  { destruct M3 as [-> | M3]; [reflexivity|]. rewrite M3 in E1. lra. }
  split; [lra|]. split; [lra|].
  exists hs. split; [|auto].
  destruct (Q.min_spec t (70 - c)) as [[? ->] | [? ->]];
    destruct N3 as [-> | ->]; lra.
Qed.

Lemma generate_driver_logs_ok fuel t c payloads :
  generate_driver_logs fuel t c = Some (Ok payloads) ->
  exists days,
    schedule fuel t c = Some (Ok days)
    /\ payloads = map (fun d => as_payload (summary d)) days.
Proof.
  unfold generate_driver_logs.
  destruct (schedule fuel t c) as [[days|e]|]; try discriminate.
  intros [= <-]. now exists days.
Qed.

End SchedulerFacts.

(** X1: the days of a returned plan are numbered 1, 2, ... in order. *)
Theorem plan_days_are_numbered (fuel : nat) (t c : Q) (payloads : list Hos.Payload) :
  Hos.generate_driver_logs fuel t c = Some (Ok payloads) ->
  map Hos.p_day_number payloads = seqZ 1 (Z.of_nat (length payloads)).
Proof.
  intros Hgen.
  apply generate_driver_logs_ok in Hgen as (days & Hs & ->).
  apply schedule_ok in Hs as (_ & _ & hs & _ & _ & Hloop & _).
  apply schedule_loop_numbered in Hloop.
  rewrite length_map, <- Hloop, map_map. reflexivity.
Qed.

Lemma plan_days_are_numbered_witness :
  map Hos.p_day_number sample_plan = seqZ 1 (Z.of_nat (length sample_plan)).
Proof.
  apply (plan_days_are_numbered 7 30 10 sample_plan).
  vm_compute. reflexivity.
Defined.

Lemma round2_nonneg (x : Q) : (0 <= x)%Q -> (0 <= Py.round2 x)%Q.
Proof.
  intros Hx. unfold Py.round2.
  assert (H : (0 <= Py.round (x * 100))%Z).
  { rewrite <- (round_inject 0). apply round_mono.
    change (inject_Z 0) with 0%Q. lra. }
  apply Qle_shift_div_l; [reflexivity|].
  rewrite Zle_Qle in H. change (inject_Z 0) with 0%Q in H. lra.
Qed.



(** X4: in every day of a returned plan the three duty segments agree with
    the minute totals: an ON_DUTY block that is never negative and at most
    121 minutes (two hours, and one minute for the rounding of the two
    totals), DRIVING of the driving total, OFF_DUTY of 600 minutes; the
    first two add up to the on-duty total and the sleeper total is 0. *)
Theorem plan_segments_match_totals (fuel : nat) (t c : Q) (days : list Hos.DayPlan) :
  Hos.schedule fuel t c = Some (Ok days) ->
  Forall (fun d => day_segments_consistent (Hos.summary d)) days.
Proof.
  intros Hs. apply schedule_ok in Hs as (_ & _ & hs & _ & _ & Hloop & _).
  eapply schedule_loop_segments, Hloop.
Qed.

Lemma plan_segments_match_totals_witness :
  Forall (fun d => day_segments_consistent (Hos.summary d)) sample_days.
Proof.
  apply (plan_segments_match_totals 7 30 10 sample_days).
  vm_compute. reflexivity.
Defined.

(** X5: for a positive trip duration and a cycle use in 0..70, six passes
    of the loop are enough and the plan has between one and six days. *)
Theorem plan_has_one_to_six_days (fuel : nat) (t c : Q) :
  (6 <= fuel)%nat -> (0 < t)%Q -> (0 <= c)%Q -> (c < 70)%Q ->
  exists payloads,
    Hos.generate_driver_logs fuel t c = Some (Ok payloads)
    /\ (1 <= length payloads <= 6)%nat.
Proof.
  intros Hfuel Ht Hc0 Hc70.
  unfold Hos.generate_driver_logs, Hos.schedule.
  assert (E0 : Py.Qlt_bool t 0 = false) by (apply Qlt_bool_false; lra).
  rewrite E0.
  destruct (max2_spec (Hos.CYCLE_LIMIT_HOURS - c) 0) as (M1 & M2 & M3).
  set (cr := Py.max2 (Hos.CYCLE_LIMIT_HOURS - c) 0) in *.
  unfold Hos.CYCLE_LIMIT_HOURS in *.
  assert (Hcr : (cr == 70 - c)%Q).
  { destruct M3 as [-> | M3]; [reflexivity|]. rewrite M3 in *. lra. }
  assert (E1 : Qle_bool cr 0 = false) by (apply Qle_bool_false; lra).
  rewrite E1.
  destruct (min2_spec t cr) as (N1 & N2 & N3).
  set (hs := Py.min2 t cr) in *.
  assert (Hhs : (0 < hs)%Q) by (destruct N3 as [-> | ->]; lra).
  assert (E2 : Qle_bool hs 0 = false) by (apply Qle_bool_false; lra).
  rewrite E2.
  destruct (schedule_loop_terminates_13 fuel 1 hs cr) as [days Hdays].
  { assert (6 <= inject_Z (Z.of_nat fuel))%Q.
    { change 6%Q with (inject_Z 6). rewrite <- Zle_Qle. lia. }
    lra. }
  rewrite Hdays. eexists. split; [reflexivity|].
  rewrite length_map. split.
  - apply schedule_loop_inv in Hdays
      as [[_ [? | ?]] | (? & rest & _ & _ & _ & -> & _)]; [lra | lra | cbn; lia].
  - apply (schedule_loop_length fuel 1 hs cr days 6 Hdays).
    change (inject_Z (Z.of_nat 6)) with 6%Q. lra.
Qed.

Lemma plan_has_one_to_six_days_witness :
  exists payloads,
    Hos.generate_driver_logs 6 70 0 = Some (Ok payloads)
    /\ (1 <= length payloads <= 6)%nat.
Proof.
  apply (plan_has_one_to_six_days 6 70 0).
  - lia.
  - unfold Qlt; simpl; lia.
  - unfold Qle; simpl; lia.
  - unfold Qlt; simpl; lia.
Defined.

(** X6: for a trip duration and a cycle use that are not negative, a plan
    is returned only when the duration is positive and less than 70 cycle
    hours are used, and the returned plan is never empty (a trip of zero
    hours is an error, not an empty plan). *)
Theorem plan_only_for_positive_hours (fuel : nat) (t c : Q)
        (payloads : list Hos.Payload) :
  (0 <= t)%Q -> (0 <= c)%Q ->
  Hos.generate_driver_logs fuel t c = Some (Ok payloads) ->
  (0 < t)%Q /\ (c < 70)%Q /\ payloads <> [].
Proof.
  intros _ _ Hgen.
  apply generate_driver_logs_ok in Hgen as (days & Hs & ->).
  apply schedule_ok in Hs as (Ht & Hc & hs & _ & Hpos & Hloop & Hcr).
  split; [exact Ht|]. split; [exact Hc|].
  apply schedule_loop_inv in Hloop
    as [[_ [? | ?]] | (? & rest & _ & _ & _ & -> & _)]; [lra | lra | discriminate].
Qed.

Lemma plan_only_for_positive_hours_witness :
  (0 < 30)%Q /\ (10 < 70)%Q /\ sample_plan <> [].
Proof.
  apply (plan_only_for_positive_hours 7 30 10 sample_plan).
  - unfold Qle; simpl; lia.
  - unfold Qle; simpl; lia.
  - vm_compute. reflexivity.
Defined.

(** ** More on the alert evaluator *)

Section EvaluatorFacts.

Local Open Scope Q_scope.
Import Alerts.

Lemma or_zero_some (q : Q) : or_zero (Some q) == q.
Proof.
  unfold or_zero. destruct (Qeq_bool q 0) eqn:E; [|reflexivity].
  apply Qeq_bool_iff in E. now rewrite E.
Qed.

(** What one pass of the loop appends does not depend on the alerts
    gathered so far. *)
Lemma evaluate_day_app (alerts : list Alert) (p : LogPayload) :
  evaluate_day alerts p = alerts ++ evaluate_day [] p.
Proof.
  unfold evaluate_day, _add_alert. cbv zeta.
  destruct (Py.Qlt_bool _ (driving_hours p));
    [|destruct (Qle_bool _ (driving_hours p))];
    (destruct (Py.Qlt_bool _ (on_duty_hours p));
     [|destruct (Qle_bool _ (on_duty_hours p))]);
    (destruct (remaining_cycle_hours p) as [rc|];
     [destruct (Py.Qlt_bool rc _); [|destruct (Qle_bool rc 8)]|]);
    cbn [app]; rewrite <- ?app_assoc, ?app_nil_r; reflexivity.
Qed.

Lemma fold_evaluate_day (ps : list LogPayload) :
  forall alerts,
    fold_left evaluate_day ps alerts
    = alerts ++ concat (map (evaluate_day []) ps).
Proof.
  induction ps as [|p ps IH]; intros alerts; cbn [fold_left map concat].
  - now rewrite app_nil_r.
  - rewrite IH, evaluate_day_app, <- app_assoc. reflexivity.
Qed.

(** The alerts of one day: at most three, all with the day's number, and
    their levels fixed by the three thresholds. *)
Lemma evaluate_day_alerts (p : LogPayload) :
  (length (evaluate_day [] p) <= 3)%nat
  /\ Forall (fun a => alert_day_number a = alert_day_of p) (evaluate_day [] p).
Proof.
  unfold evaluate_day, _add_alert, alert_day_of. cbv zeta.
  destruct (Py.Qlt_bool _ (driving_hours p));
    [|destruct (Qle_bool _ (driving_hours p))];
    (destruct (Py.Qlt_bool _ (on_duty_hours p));
     [|destruct (Qle_bool _ (on_duty_hours p))]);
    (destruct (remaining_cycle_hours p) as [rc|];
     [destruct (Py.Qlt_bool rc _); [|destruct (Qle_bool rc 8)]|]);
    cbn [app length]; (split; [lia|]); repeat constructor.
Qed.

(** A day within the limits, with a remaining cycle that is not negative,
    draws warnings only. *)
Lemma evaluate_day_within_limits (p : LogPayload) :
  driving_hours p <= 11 -> on_duty_hours p <= 14 ->
  (forall rc, remaining_cycle_hours p = Some rc -> 0 <= rc) ->
  Forall (fun a => level a = "warning") (evaluate_day [] p).
Proof.
  intros Hd Ho Hrc. unfold evaluate_day, _add_alert. cbv zeta.
  unfold Hos.DRIVING_LIMIT_PER_DAY, Hos.ON_DUTY_LIMIT_PER_DAY, EPSILON.
  assert (E1 : Py.Qlt_bool (11 + (1 # 1000000)) (driving_hours p) = false)
    by (apply Qlt_bool_false; lra).
  assert (E2 : Py.Qlt_bool (14 + (1 # 1000000)) (on_duty_hours p) = false)
    by (apply Qlt_bool_false; lra).
  rewrite E1, E2.
  destruct (remaining_cycle_hours p) as [rc|].
  - assert (E3 : Py.Qlt_bool rc (- (1 # 1000000)) = false).
    { apply Qlt_bool_false. specialize (Hrc rc eq_refl). lra. }
    rewrite E3.
    destruct (Qle_bool _ (driving_hours p));
      destruct (Qle_bool _ (on_duty_hours p));
      destruct (Qle_bool rc 8); cbn [app]; repeat constructor.
  - destruct (Qle_bool _ (driving_hours p));
      destruct (Qle_bool _ (on_duty_hours p)); cbn [app]; repeat constructor.
Qed.

Lemma of_payload_within_limits day rh rc :
  let p := of_payload (Hos.as_payload (Hos.summary (Hos.plan_day day rh rc))) in
  driving_hours p <= 11 /\ on_duty_hours p <= 14
  /\ (forall r, remaining_cycle_hours p = Some r -> 0 <= r).
Proof.
  cbv zeta.
  pose proof (plan_day_within_limits day rh rc) as (_ & _ & Hd & Ho).
  unfold driving_hours, on_duty_hours, of_payload, minutes_raw.
  cbn [total_driving_minutes total_driving_hours total_on_duty_minutes
       total_on_duty_hours remaining_cycle_hours
       Hos.as_payload Hos.p_total_driving_minutes Hos.p_total_on_duty_minutes
       Hos.p_remaining_cycle_hours].
  rewrite !or_zero_some.
  rewrite Zle_Qle in Hd, Ho.
  change (inject_Z 660) with 660 in Hd. change (inject_Z 840) with 840 in Ho.
  split; [|split].
  - apply Qle_shift_div_r; [reflexivity | lra].
  - apply Qle_shift_div_r; [reflexivity | lra].
  - intros r [= <-]. apply round2_nonneg.
    cbn [Hos.plan_day Hos.summary Hos.remaining_cycle_hours].
    match goal with |- 0 <= Py.max2 ?a 0 => destruct (max2_spec a 0) as (_ & M & _) end.
    exact M.
Qed.

Lemma schedule_loop_day_alerts fuel :
  forall day rh rc days,
    Hos.schedule_loop fuel day rh rc = Some days ->
    Forall (fun a => level a = "warning")
           (concat (map (evaluate_day [])
                        (map (fun d => of_payload (Hos.as_payload (Hos.summary d)))
                             days))).
Proof.
  induction fuel as [|fuel IH]; intros day rh rc days Hrun;
    apply schedule_loop_inv in Hrun
      as [[-> _] | (fuel' & rest & Hf & _ & _ & -> & Hrest)];
    try constructor; try discriminate.
  injection Hf as <-. cbn [map concat]. apply Forall_app. split.
  - destruct (of_payload_within_limits day rh rc) as (H1 & H2 & H3).
    now apply evaluate_day_within_limits.
  - eapply IH, Hrest.
Qed.

End EvaluatorFacts.

(** X7: the evaluator never answers a plan of the scheduler with a
    day-level danger alert: every alert of the per-day pass over the
    payloads of a returned plan is a warning. *)
Theorem scheduled_plan_draws_no_day_danger
        (fuel : nat) (t c : Q) (payloads : list Hos.Payload) :
  Hos.generate_driver_logs fuel t c = Some (Ok payloads) ->
  Forall (fun a => Alerts.level a = "warning")
         (day_alerts (map Alerts.of_payload payloads)).
Proof.
  intros Hgen.
  apply generate_driver_logs_ok in Hgen as (days & Hs & ->).
  apply schedule_ok in Hs as (_ & _ & hs & _ & _ & Hloop & _).
  unfold day_alerts. rewrite fold_evaluate_day. cbn [app].
  rewrite (map_map _ Alerts.of_payload days).
  eapply schedule_loop_day_alerts, Hloop.
Qed.

Lemma scheduled_plan_draws_no_day_danger_witness :
  Forall (fun a => Alerts.level a = "warning")
         (day_alerts (map Alerts.of_payload sample_plan)).
Proof.
  apply (scheduled_plan_draws_no_day_danger 7 30 10 sample_plan).
  vm_compute. reflexivity.
Defined.

(** X8: the alerts of a plan are the alerts of its days, in the order of
    the days and each day judged on its own, followed by at most one
    trip-level alert; a day gives at most three alerts, all carrying its
    day number, and the trip-level alert is for the cycle rule and carries
    no day number. *)
Theorem alerts_follow_day_order (log_payloads : list Alerts.LogPayload) (cyc : Q) :
  exists trip_level,
    Alerts._evaluate_hos_alerts log_payloads cyc
    = concat (map (Alerts.evaluate_day []) log_payloads) ++ trip_level
    /\ (length trip_level <= 1)%nat
    /\ Forall (fun a => Alerts.alert_day_number a = None
                        /\ Alerts.rule a = Alerts.RULE_CYCLE) trip_level
    /\ Forall (fun p =>
                 (length (Alerts.evaluate_day [] p) <= 3)%nat
                 /\ Forall (fun a => Alerts.alert_day_number a = alert_day_of p)
                           (Alerts.evaluate_day [] p)) log_payloads.
Proof.
  assert (Hdays : Forall (fun p =>
            (length (Alerts.evaluate_day [] p) <= 3)%nat
            /\ Forall (fun a => Alerts.alert_day_number a = alert_day_of p)
                      (Alerts.evaluate_day [] p)) log_payloads).
  { apply Forall_forall. intros p _. apply evaluate_day_alerts. }
  unfold Alerts._evaluate_hos_alerts, Alerts._add_alert.
  rewrite fold_evaluate_day. cbn [app].
  destruct (Qle_bool Hos.CYCLE_LIMIT_HOURS _);
    [|destruct (Qle_bool (Hos.CYCLE_LIMIT_HOURS * _) _)].
  - eexists. split; [reflexivity|]. cbn. repeat split; auto.
  - eexists. split; [reflexivity|]. cbn. repeat split; auto.
  - exists []. rewrite app_nil_r. cbn. repeat split; auto.
Qed.

(** X9: the trip-level alert depends on the projected cycle use alone
    (hours used before the trip plus the on-duty hours of all days).  For a
    plan of at most 1000 days whose hours are not negative: a use of 70
    hours or more is a danger, of 63 hours up to 70 a warning, and below 63
    nothing, each taken with the margin that keeps the value clear of the
    threshold; so an empty plan is judged on the hours already used. *)
Theorem trip_level_alert_thresholds (log_payloads : list Alerts.LogPayload) (cyc : Q) :
  length log_payloads <= 1000 ->
  (0 <= cyc)%Q ->
  Forall (fun p => (0 <= Alerts.entry_on_duty_hours p)%Q) log_payloads ->
  let usage := projected_cycle_usage log_payloads cyc in
  let trip_level :=
    drop (length (day_alerts log_payloads))
         (Alerts._evaluate_hos_alerts log_payloads cyc) in
  take (length (day_alerts log_payloads))
       (Alerts._evaluate_hos_alerts log_payloads cyc) = day_alerts log_payloads
  /\ ((70 + margin <= usage)%Q -> map Alerts.level trip_level = ["danger"])
  /\ ((63 + margin <= usage)%Q -> (usage <= 70 - margin)%Q ->
      map Alerts.level trip_level = ["warning"])
  /\ ((usage <= 63 - margin)%Q -> trip_level = []).
Proof.
  intros _ _ _. cbv zeta. unfold Alerts._evaluate_hos_alerts, Alerts._add_alert.
  fold (day_alerts log_payloads).
  fold (projected_cycle_usage log_payloads cyc).
  set (usage := projected_cycle_usage log_payloads cyc).
  unfold Hos.CYCLE_LIMIT_HOURS, margin.
  destruct (Qle_bool 70 usage) eqn:E1.
  - apply Qle_bool_iff in E1.
    rewrite take_app_length, drop_app_length.
    repeat split; try reflexivity; intros; lra.
  - apply Qle_bool_false in E1.
    destruct (Qle_bool (70 * (9 # 10)) usage) eqn:E2.
    + apply Qle_bool_iff in E2.
      rewrite take_app_length, drop_app_length.
      repeat split; try reflexivity; intros; lra.
    + apply Qle_bool_false in E2.
      rewrite firstn_all, drop_all.
      repeat split; try reflexivity; intros; lra.
Qed.

Lemma trip_level_alert_thresholds_witness :
  map Alerts.level
      (drop (length (day_alerts [day_660]))
            (Alerts._evaluate_hos_alerts [day_660] 52)) = ["warning"].
Proof.
  refine (proj1 (proj2 (proj2 (trip_level_alert_thresholds [day_660] 52 _ _ _)))
            _ _).
  - cbn [length]. lia.
  - unfold Qle; simpl; lia.
  - repeat constructor. vm_compute. discriminate.
  - vm_compute. discriminate.
  - vm_compute. discriminate.
Defined.

Section DayRuleFacts.

Local Open Scope Q_scope.
Import Alerts.

Lemma alerts_for_nil r : alerts_for r [] = [].
Proof. reflexivity. Qed.

Lemma day_rule_levels (p : LogPayload) :
  map level (alerts_for RULE_ON_DUTY (day_alerts [p]))
  = (if Py.Qlt_bool (Hos.ON_DUTY_LIMIT_PER_DAY + EPSILON) (on_duty_hours p)
     then ["danger"]
     else if Qle_bool (Hos.ON_DUTY_LIMIT_PER_DAY * (95 # 100)) (on_duty_hours p)
          then ["warning"] else [])
  /\ map level (alerts_for RULE_CYCLE (day_alerts [p]))
     = match remaining_cycle_hours p with
       | Some rc =>
           if Py.Qlt_bool rc (- EPSILON) then ["danger"]
           else if Qle_bool rc 8 then ["warning"] else []
       | None => []
       end.
Proof.
  unfold day_alerts. cbn [fold_left]. unfold evaluate_day. cbv zeta.
  split.
  - destruct (Py.Qlt_bool _ (driving_hours p));
      [|destruct (Qle_bool _ (driving_hours p))];
      (destruct (Py.Qlt_bool _ (on_duty_hours p));
       [|destruct (Qle_bool _ (on_duty_hours p))]);
      (destruct (remaining_cycle_hours p) as [rc|];
       [destruct (Py.Qlt_bool rc _); [|destruct (Qle_bool rc 8)]|]);
      repeat (rewrite alerts_for_add_same
              || rewrite alerts_for_add_other by discriminate);
      rewrite alerts_for_nil; reflexivity.
  - destruct (Py.Qlt_bool _ (driving_hours p));
      [|destruct (Qle_bool _ (driving_hours p))];
      (destruct (Py.Qlt_bool _ (on_duty_hours p));
       [|destruct (Qle_bool _ (on_duty_hours p))]);
      (destruct (remaining_cycle_hours p) as [rc|];
       [destruct (Py.Qlt_bool rc _); [|destruct (Qle_bool rc 8)]|]);
      repeat (rewrite alerts_for_add_same
              || rewrite alerts_for_add_other by discriminate);
      rewrite alerts_for_nil; reflexivity.
Qed.

End DayRuleFacts.

(** X10: the per-day thresholds of the two other rules, each taken with
    the margin that keeps the value clear of the threshold.  On-duty time
    above 14 hours (by more than 1e-6) is a danger, from 13.3 hours (95% of
    14) up to 14 hours a warning, below that nothing.  A remaining cycle
    below zero (by more than 1e-6) is a danger, from there up to 8 hours a
    warning, above 8 hours or not given nothing. *)
Theorem on_duty_and_cycle_thresholds (p : Alerts.LogPayload) :
  let on_duty := Alerts.on_duty_hours p in
  let on_duty_levels :=
    map Alerts.level (Alerts.alerts_for Alerts.RULE_ON_DUTY (day_alerts [p])) in
  let cycle_levels :=
    map Alerts.level (Alerts.alerts_for Alerts.RULE_CYCLE (day_alerts [p])) in
  ((14 + (1 # 1000000) + margin <= on_duty)%Q -> on_duty_levels = ["danger"])
  /\ (((133 # 10) + margin <= on_duty)%Q ->
      (on_duty <= 14 + (1 # 1000000) - margin)%Q ->
      on_duty_levels = ["warning"])
  /\ ((on_duty <= (133 # 10) - margin)%Q -> on_duty_levels = [])
  /\ (forall rc, Alerts.remaining_cycle_hours p = Some rc ->
        ((rc <= - (1 # 1000000) - margin)%Q -> cycle_levels = ["danger"])
        /\ ((- (1 # 1000000) + margin <= rc)%Q -> (rc <= 8)%Q ->
            cycle_levels = ["warning"])
        /\ ((8 < rc)%Q -> cycle_levels = []))
  /\ (Alerts.remaining_cycle_hours p = None -> cycle_levels = []).
Proof.
  cbv zeta. destruct (day_rule_levels p) as [-> ->].
  unfold Hos.ON_DUTY_LIMIT_PER_DAY, Alerts.EPSILON, margin.
  split; [|split; [|split; [|split]]].
  - intros H.
    assert (E : Py.Qlt_bool (14 + (1 # 1000000)) (Alerts.on_duty_hours p) = true)
      by (apply Qlt_bool_true; lra).
    now rewrite E.
  - intros H1 H2.
    assert (E1 : Py.Qlt_bool (14 + (1 # 1000000)) (Alerts.on_duty_hours p) = false)
      by (apply Qlt_bool_false; lra).
    assert (E2 : Qle_bool (14 * (95 # 100)) (Alerts.on_duty_hours p) = true)
      by (apply Qle_bool_iff; lra).
    now rewrite E1, E2.
  - intros H.
    assert (E1 : Py.Qlt_bool (14 + (1 # 1000000)) (Alerts.on_duty_hours p) = false)
      by (apply Qlt_bool_false; lra).
    assert (E2 : Qle_bool (14 * (95 # 100)) (Alerts.on_duty_hours p) = false)
      by (apply Qle_bool_false; lra).
    now rewrite E1, E2.
  - intros rc ->. split; [|split].
    + intros H.
      assert (E : Py.Qlt_bool rc (- (1 # 1000000)) = true)
        by (apply Qlt_bool_true; lra).
      now rewrite E.
    + intros H1 H2.
      assert (E1 : Py.Qlt_bool rc (- (1 # 1000000)) = false)
        by (apply Qlt_bool_false; lra).
      rewrite E1. apply Qle_bool_iff in H2. now rewrite H2.
    + intros H.
      assert (E1 : Py.Qlt_bool rc (- (1 # 1000000)) = false)
        by (apply Qlt_bool_false; lra).
      assert (E2 : Qle_bool rc 8 = false) by (apply Qle_bool_false; lra).
      now rewrite E1, E2.
  - intros ->. reflexivity.
Qed.

Lemma on_duty_and_cycle_thresholds_witness :
  map Alerts.level
      (Alerts.alerts_for Alerts.RULE_CYCLE (day_alerts [day_low_cycle]))
  = ["warning"].
Proof.
  refine (proj1 (proj2 (proj1 (proj2 (proj2 (proj2
            (on_duty_and_cycle_thresholds day_low_cycle)))) 7%Q _)) _ _).
  - reflexivity.
  - vm_compute. discriminate.
  - unfold Qle; simpl; lia.
Defined.

(** ** Parsing and printing times of day *)

Section TimeFacts.

Import Models Logs.
Local Open Scope Z_scope.

Lemma digit_range c d : digit c = Some d -> 0 <= d <= 9.
Proof.
  unfold digit.
  destruct (_ && _) eqn:E; [|discriminate].
  intros [= <-]. apply andb_true_iff in E as [E1 E2].
  apply Z.leb_le in E1, E2. lia.
Qed.

Lemma parse_hour_range s h rest :
  parse_hour s = Some (h, rest) -> 0 <= h <= 23.
Proof.
  unfold parse_hour.
  destruct s as [|c1 s]; [discriminate|].
  destruct (digit c1) as [d1|] eqn:D1; [|discriminate].
  apply digit_range in D1.
  destruct s as [|c2 s]; [intros [= <- _]; lia|].
  destruct (digit c2) as [d2|] eqn:D2; [|intros [= <- _]; lia].
  apply digit_range in D2.
  destruct (_ || _) eqn:E; intros [= <- _]; [|lia].
  apply orb_true_iff in E as [E | E].
  - apply andb_true_iff in E as [E1 E2].
    apply Z.eqb_eq in E1. apply Z.leb_le in E2. lia.
  - apply Z.leb_le in E. lia.
Qed.

Lemma parse_minute_range s m rest :
  parse_minute s = Some (m, rest) -> 0 <= m <= 59.
Proof.
  unfold parse_minute.
  destruct s as [|c1 s]; [discriminate|].
  destruct (digit c1) as [d1|] eqn:D1; [|discriminate].
  apply digit_range in D1.
  destruct s as [|c2 s]; [intros [= <- _]; lia|].
  destruct (digit c2) as [d2|] eqn:D2; [|intros [= <- _]; lia].
  apply digit_range in D2.
  destruct (d1 <=? 5) eqn:E; intros [= <- _]; [|lia].
  apply Z.leb_le in E. lia.
Qed.

Lemma strptime_HM_valid value t : strptime_HM value = Some t -> valid_time t.
Proof.
  unfold strptime_HM.
  destruct (parse_hour _) as [[h [|c rest]]|] eqn:H; try discriminate.
  destruct (Ascii.eqb c ":"); [|discriminate].
  destruct (parse_minute rest) as [[m [|? ?]]|] eqn:M; try discriminate.
  intros [= <-]. split; cbn.
  - eapply parse_hour_range, H.
  - eapply parse_minute_range, M.
Qed.

Lemma print_parse_all_times_ok : print_parse_all_times = true.
Proof. vm_compute. reflexivity. Qed.

End TimeFacts.

Lemma parsed_time_facts (label : string) (value : option Logs.PyVal)
      (t : Models.time) :
  Logs._parse_time label value = Ok t -> valid_time t.
Proof.
  unfold Logs._parse_time.
  destruct value as [[|text]|]; try discriminate.
  destruct text as [|a text]; [discriminate|].
  destruct (Logs.strptime_HM _) as [t'|] eqn:P; [|discriminate].
  intros [= <-]. eapply strptime_HM_valid, P.
Qed.

(** X11: a time that [_parse_time] accepts is a time of day: the hour is
    between 0 and 23 and the minute between 0 and 59; a missing or empty
    value and a text that is not HH:MM give a ValidationError. *)
Theorem parsed_time_is_valid (label : string) (value : option Logs.PyVal)
        (t : Models.time) :
  Logs._parse_time label value = Ok t ->
  valid_time t
  /\ exists text, value = Some (Logs.PyStr text) /\ text <> ""
                  /\ Logs.strptime_HM text = Some t.
Proof.
  unfold Logs._parse_time.
  destruct value as [[|text]|]; try discriminate.
  destruct text as [|a text]; [discriminate|].
  destruct (Logs.strptime_HM _) as [t'|] eqn:P; [|discriminate].
  intros [= <-]. split; [eapply strptime_HM_valid, P|].
  eexists. split; [reflexivity|]. split; [discriminate | exact P].
Qed.

Lemma parsed_time_is_valid_witness :
  valid_time (Models.mkTime 7 5)
  /\ exists text, Some (Logs.PyStr "7:5") = Some (Logs.PyStr text) /\ text <> ""
                  /\ Logs.strptime_HM text = Some (Models.mkTime 7 5).
Proof.
  apply (parsed_time_is_valid "startTime" (Some (Logs.PyStr "7:5"))
                              (Models.mkTime 7 5)).
  vm_compute. reflexivity.
Defined.

(** X12: printing and parsing agree: every time of day, printed as the
    report prints it ("%H:%M", two digits each), is parsed back to itself by
    the log service. *)
Theorem printed_time_parses_back (t : Models.time) :
  valid_time t ->
  Logs.strptime_HM (Reports.strftime_HM t) = Some t.
Proof.
  intros [[Hh1 Hh2] [Hm1 Hm2]]. destruct t as [h m]. cbn in *.
  pose proof print_parse_all_times_ok as Hall.
  unfold print_parse_all_times in Hall.
  rewrite forallb_forall in Hall.
  assert (Hh : In h (seqZ 0 24)).
  { apply list_elem_of_In, elem_of_seqZ. lia. }
  specialize (Hall h Hh). rewrite forallb_forall in Hall.
  assert (Hm : In m (seqZ 0 60)).
  { apply list_elem_of_In, elem_of_seqZ. lia. }
  specialize (Hall m Hm). now apply bool_decide_eq_true in Hall.
Qed.

Lemma printed_time_parses_back_witness :
  Logs.strptime_HM (Reports.strftime_HM (Models.mkTime 9 30))
  = Some (Models.mkTime 9 30).
Proof.
  apply (printed_time_parses_back (Models.mkTime 9 30)).
  split; cbn; lia.
Defined.

(** ** More on the log service *)

Section StoreFacts.

Import Models Logs.
Local Open Scope Z_scope.

Lemma new_pk_fresh {A} (table : gmap Z A) : table !! new_pk table = None.
Proof. unfold new_pk. apply not_elem_of_dom, is_fresh. Qed.

Lemma find_log_Some logs trip_id day k l :
  find_log logs trip_id day = Some (k, l) ->
  logs !! k = Some l /\ log_trip l = trip_id /\ log_day_number l = day.
Proof.
  unfold find_log. intros H.
  assert (Hin : (k, l) ∈ filter (fun kv : Z * DriverLog =>
                    log_trip kv.2 = trip_id /\ log_day_number kv.2 = day)
                  (map_to_list logs)).
  { destruct (filter _ _) as [|x xs]; [discriminate|].
    injection H as ->. apply list_elem_of_here. }
  apply list_elem_of_filter in Hin as [[H1 H2] Hin].
  apply elem_of_map_to_list in Hin. auto.
Qed.

Lemma find_log_None logs trip_id day k l :
  find_log logs trip_id day = None ->
  logs !! k = Some l ->
  ~ (log_trip l = trip_id /\ log_day_number l = day).
Proof.
  unfold find_log. intros H Hl Hm.
  assert (Hin : (k, l) ∈ filter (fun kv : Z * DriverLog =>
                    log_trip kv.2 = trip_id /\ log_day_number kv.2 = day)
                  (map_to_list logs)).
  { apply list_elem_of_filter. split; [exact Hm|].
    now apply elem_of_map_to_list. }
  destruct (filter _ _); [now apply elem_of_nil in Hin | discriminate].
Qed.

Lemma bulk_create_segments_old rows :
  forall table k v,
    table !! k = Some v -> bulk_create_segments rows table !! k = Some v.
Proof.
  induction rows as [|row rows IH]; intros table k v Hk; cbn; [exact Hk|].
  apply IH. rewrite lookup_insert_ne; [exact Hk|].
  intros <-. rewrite new_pk_fresh in Hk. discriminate.
Qed.

Lemma bulk_create_segments_values rows :
  forall table,
    (map_to_list (bulk_create_segments rows table)).*2
    ≡ₚ rows ++ (map_to_list table).*2.
Proof.
  induction rows as [|row rows IH]; intros table; cbn; [reflexivity|].
  rewrite IH, map_to_list_insert by apply new_pk_fresh.
  cbn. now rewrite Permutation_middle.
Qed.

(** What normalisation keeps of each raw segment. *)
Lemma _normalise_segments_rows raws :
  forall segs,
    _normalise_segments raws = Ok segs ->
    Forall2 (fun raw seg =>
               raw_times raw = Some (start_time seg, end_time seg)
               /\ validate seg = Ok tt
               /\ py_str (status seg) = raw_status raw
               /\ valid_time (start_time seg) /\ valid_time (end_time seg))
            raws segs.
Proof.
  induction raws as [|raw raws IH]; cbn; intros segs.
  - intros [= <-]. constructor.
  - destruct (normalise_segment raw) as [seg|] eqn:N; [|discriminate].
    destruct (_normalise_segments raws) as [segs'|]; [|discriminate].
    intros [= <-]. constructor; [|now apply IH].
    apply normalise_segment_ok in N as (Ht & Hv & Hs).
    split; [exact Ht|]. split; [exact Hv|]. split.
    { unfold raw_status. now rewrite Hs. }
    unfold raw_times in Ht.
    destruct (_parse_time "startTime" _) as [s|] eqn:P1; [|discriminate].
    destruct (_parse_time "endTime" _) as [e|] eqn:P2; [|discriminate].
    injection Ht as <- <-.
    apply parsed_time_facts in P1, P2. auto.
Qed.

End StoreFacts.

Section UpsertSuccess.

Import Models Logs.
Local Open Scope Z_scope.

(** Everything a successful [upsert_driver_log] went through. *)
Lemma upsert_ok_inv user trip_id day log_date notes segments dist today db
      log_id log db' :
  upsert_driver_log user trip_id day log_date notes segments dist today db
  = (Ok (log_id, log), db') ->
  0 < day /\ owns_trip db user trip_id
  /\ exists parsed totals cursor existing,
       _normalise_segments segments = Ok parsed /\ parsed <> []
       /\ accumulate parsed initial_totals 0 None = Ok (totals, cursor)
       /\ cursor <= 1440
       /\ (find_log (driver_logs db) trip_id day = Some (log_id, existing)
           \/ (find_log (driver_logs db) trip_id day = None
               /\ log_id = new_pk (driver_logs db)
               /\ existing = mkDriverLog trip_id day (default today log_date)
                                         0 0 0 0 0%Q ""))
       /\ log_trip log = log_trip existing
       /\ log_day_number log = log_day_number existing
       /\ Models.log_date log = default today log_date
       /\ Models.notes log = default "" notes
       /\ total_off_duty_minutes log = default 0 (totals !! STATUS_OFF_DUTY)
       /\ total_sleeper_minutes log = default 0 (totals !! STATUS_SLEEPER)
       /\ total_driving_minutes log = default 0 (totals !! STATUS_DRIVING)
       /\ total_on_duty_minutes log = default 0 (totals !! STATUS_ON_DUTY)
       /\ total_distance_miles_log log
          = default (total_distance_miles_log existing) dist
       /\ db' = with_duty_segments
                  (with_driver_logs db (<[log_id := log]> (driver_logs db)))
                  (bulk_create_segments (map (segment_row log_id) parsed)
                     (filter (fun kv : Z * DutyStatusSegment =>
                                segment_log kv.2 <> log_id)
                             (duty_segments db))).
Proof.
  unfold upsert_driver_log, atomic, upsert_body.
  destruct (day <=? 0) eqn:Eday; [discriminate|].
  apply Z.leb_gt in Eday.
  destruct (trips db !! trip_id) as [trip|] eqn:Htrip; [|discriminate].
  case_bool_decide as Hu; [|discriminate].
  destruct (_normalise_segments segments) as [parsed|] eqn:N; [|discriminate].
  destruct parsed as [|seg parsed]; [discriminate|].
  destruct (accumulate (seg :: parsed) initial_totals 0 None)
    as [[totals cursor]|] eqn:A; [|discriminate].
  destruct (MINUTES_PER_DAY <? cursor) eqn:Ec; [discriminate|].
  apply Z.ltb_ge in Ec. unfold MINUTES_PER_DAY in Ec.
  destruct (find_log (driver_logs db) trip_id day) as [[k l]|] eqn:F.
  - intros [= <- <- <-].
    split; [lia|]. split; [now exists trip|].
    exists (seg :: parsed), totals, cursor, l.
    split; [reflexivity|]. split; [discriminate|]. split; [exact A|].
    split; [lia|]. split; [now left|]. repeat split; reflexivity.
  - intros [= <- <- <-].
    split; [lia|]. split; [now exists trip|].
    exists (seg :: parsed), totals, cursor,
      (mkDriverLog trip_id day (default today log_date) 0 0 0 0 0%Q "").
    split; [reflexivity|]. split; [discriminate|]. split; [exact A|].
    split; [lia|]. split; [right; repeat split; reflexivity|].
    repeat split; reflexivity.
Qed.

Lemma accumulate_totals segs :
  forall totals cursor last totals' cursor',
    accumulate segs totals cursor last = Ok (totals', cursor') ->
    forall st,
      totals' !! st
      = (fun v => v + seg_minutes_with_status st segs) <$> totals !! st.
Proof.
  induction segs as [|seg segs IH]; cbn [accumulate seg_minutes_with_status foldr];
    intros totals cursor last t c.
  - intros [= <- _] st. destruct (totals !! st); cbn; f_equal; lia.
  - intros Hacc st.
    assert (Hrest : t !! st
              = (fun v => v + seg_minutes_with_status st segs)
                  <$> add_total totals (status seg) (duration_minutes seg) !! st).
    { destruct last as [last_end|]; [destruct (time_lt _ _); [discriminate|]|];
        eapply IH, Hacc. }
    rewrite Hrest. unfold add_total. rewrite lookup_alter.
    fold (seg_minutes_with_status st segs).
    destruct (decide (py_str (status seg) = st)) as [Heq | Hne].
    + subst st. destruct (totals !! py_str (status seg)); cbn; f_equal; lia.
    + destruct (totals !! st); cbn; f_equal; lia.
Qed.

Lemma rows_minutes raws segs st :
  Forall2 (fun raw seg =>
             raw_times raw = Some (start_time seg, end_time seg)
             /\ validate seg = Ok tt
             /\ py_str (status seg) = raw_status raw
             /\ valid_time (start_time seg) /\ valid_time (end_time seg))
          raws segs ->
  raw_minutes_with_status st raws = seg_minutes_with_status st segs
  /\ foldr (fun r acc => raw_duration r + acc) 0 raws
     = foldr (fun s acc => duration_minutes s + acc) 0 segs.
Proof.
  induction 1 as [|raw seg raws segs (Ht & _ & Hs & _) _ [IH1 IH2]];
    cbn [raw_minutes_with_status seg_minutes_with_status foldr];
    [split; reflexivity|].
  fold (raw_minutes_with_status st raws).
  fold (seg_minutes_with_status st segs).
  assert (Hd : raw_duration raw = duration_minutes seg).
  { unfold raw_duration, duration_minutes. now rewrite Ht. }
  rewrite Hs, Hd, IH1, IH2. split; reflexivity.
Qed.

Lemma time_le_minutes a b :
  valid_time a -> valid_time b ->
  time_le a b = true <-> time_minutes a <= time_minutes b.
Proof.
  intros [_ Ha] [_ Hb]. unfold time_le, time_minutes.
  rewrite orb_true_iff, andb_true_iff, Z.ltb_lt, Z.eqb_eq, Z.leb_le. lia.
Qed.

Lemma time_lt_minutes a b :
  valid_time a -> valid_time b ->
  time_lt a b = true <-> time_minutes a < time_minutes b.
Proof.
  intros [_ Ha] [_ Hb]. unfold time_lt, time_minutes.
  rewrite orb_true_iff, andb_true_iff, !Z.ltb_lt, Z.eqb_eq. lia.
Qed.

Lemma duration_is_difference s e :
  duration_minutes_of s e = time_minutes e - time_minutes s.
Proof.
  unfold duration_minutes_of, time_minutes.
  replace (3600 * hour e + 60 * minute e - (3600 * hour s + 60 * minute s))
    with ((60 * hour e + minute e - (60 * hour s + minute s)) * 60) by lia.
  apply Z.div_mul. lia.
Qed.

(** Segments that pass the overlap check fit between midnight and 23:59. *)
Lemma accumulate_within_day segs :
  forall totals cursor last totals' cursor',
    accumulate segs totals cursor last = Ok (totals', cursor') ->
    Forall (fun seg => valid_time (start_time seg) /\ valid_time (end_time seg)
                       /\ time_minutes (start_time seg) < time_minutes (end_time seg))
           segs ->
    match last with Some l => valid_time l | None => True end ->
    cursor' - cursor
    <= 1439 - match last with Some l => time_minutes l | None => 0 end.
Proof.
  induction segs as [|seg segs IH]; cbn [accumulate];
    intros totals cursor last t c Hacc Hall Hlast.
  - injection Hacc as _ <-.
    destruct last as [l|]; [destruct Hlast as [? ?]; unfold time_minutes|]; lia.
  - apply Forall_cons in Hall as [(Hs & He & Hlt) Hall].
    assert (Hd : duration_minutes seg
                 = time_minutes (end_time seg) - time_minutes (start_time seg))
      by apply duration_is_difference.
    destruct last as [l|].
    + destruct (time_lt (start_time seg) l) eqn:Eo; [discriminate|].
      assert (time_minutes l <= time_minutes (start_time seg)).
      { destruct (Z_lt_le_dec (time_minutes (start_time seg)) (time_minutes l))
          as [Hc | Hc]; [|exact Hc].
        apply time_lt_minutes in Hc; [congruence | exact Hs | exact Hlast]. }
      specialize (IH _ _ _ _ _ Hacc Hall He). cbn beta iota in IH. lia.
    + specialize (IH _ _ _ _ _ Hacc Hall He). cbn beta iota in IH.
      destruct Hs as [? ?]. unfold time_minutes in *. lia.
Qed.

Lemma rows_ordered raws segs :
  Forall2 (fun raw seg =>
             raw_times raw = Some (start_time seg, end_time seg)
             /\ validate seg = Ok tt
             /\ py_str (status seg) = raw_status raw
             /\ valid_time (start_time seg) /\ valid_time (end_time seg))
          raws segs ->
  Forall (fun seg => valid_time (start_time seg) /\ valid_time (end_time seg)
                     /\ time_minutes (start_time seg) < time_minutes (end_time seg))
         segs.
Proof.
  induction 1 as [|raw seg raws segs (_ & Hv & _ & Hs & He) _ IH];
    constructor; [|exact IH].
  split; [exact Hs|]. split; [exact He|].
  apply validate_ok in Hv as (_ & Hle & _).
  destruct (Z_lt_le_dec (time_minutes (start_time seg)) (time_minutes (end_time seg)))
    as [Hc | Hc]; [exact Hc|].
  apply time_le_minutes in Hc; [congruence | exact He | exact Hs].
Qed.

End UpsertSuccess.

Section ReplaceFacts.

Import Models Logs.
Local Open Scope Z_scope.

Lemma filter_all {A} (P : A -> Prop) `{!forall x, Decision (P x)} (l : list A) :
  Forall P l -> filter P l = l.
Proof.
  induction 1 as [|x l Hx _ IH]; [reflexivity|].
  rewrite filter_cons, decide_True by exact Hx. now rewrite IH.
Qed.

Lemma filter_none {A} (P : A -> Prop) `{!forall x, Decision (P x)} (l : list A) :
  Forall (fun x => ~ P x) l -> filter P l = [].
Proof.
  induction 1 as [|x l Hx _ IH]; [reflexivity|].
  now rewrite filter_cons, decide_False by exact Hx.
Qed.

Lemma bulk_create_segments_inv rows :
  forall table k v,
    bulk_create_segments rows table !! k = Some v ->
    table !! k = Some v \/ v ∈ rows.
Proof.
  induction rows as [|row rows IH]; intros table k v Hk; cbn in Hk; [now left|].
  apply IH in Hk as [Hk | Hk]; [|right; now apply list_elem_of_further].
  destruct (decide (new_pk table = k)) as [<- | Hne].
  - rewrite lookup_insert_eq in Hk. injection Hk as <-.
    right. apply list_elem_of_here.
  - rewrite lookup_insert_ne in Hk by exact Hne. now left.
Qed.

Lemma kept_segments_values (table : gmap Z DutyStatusSegment) log_id :
  Forall (fun s => ~ segment_log s = log_id)
         (map_to_list
            (filter (fun kv : Z * DutyStatusSegment => segment_log kv.2 <> log_id)
                    table)).*2.
Proof.
  apply Forall_forall. intros s Hs.
  apply list_elem_of_fmap in Hs as ([k s'] & -> & Hin).
  apply elem_of_map_to_list, map_lookup_filter_Some in Hin as [_ Hne].
  exact Hne.
Qed.

(** The segments of a log after a successful upsert, and the rows of the
    other logs. *)
Lemma upsert_segments_after (table : gmap Z DutyStatusSegment) log_id parsed :
  let table' :=
    bulk_create_segments (map (segment_row log_id) parsed)
      (filter (fun kv : Z * DutyStatusSegment => segment_log kv.2 <> log_id)
              table) in
  filter (fun s => segment_log s = log_id) (map_to_list table').*2
  ≡ₚ map (segment_row log_id) parsed
  /\ (forall k s, segment_log s <> log_id ->
        table' !! k = Some s <-> table !! k = Some s).
Proof.
  cbv zeta. split.
  - rewrite bulk_create_segments_values, filter_app.
    rewrite (filter_none _ _ (kept_segments_values table log_id)), app_nil_r.
    rewrite filter_all; [reflexivity|].
    apply Forall_forall. intros s Hs.
    apply list_elem_of_fmap in Hs as (seg & -> & _). reflexivity.
  - intros k s Hne. split.
    + intros Hk. apply bulk_create_segments_inv in Hk as [Hk | Hk].
      * now apply map_lookup_filter_Some in Hk as [Hk _].
      * apply list_elem_of_fmap in Hk as (seg & -> & _). now cbn in Hne.
    + intros Hk. apply bulk_create_segments_old.
      apply map_lookup_filter_Some. split; [exact Hk | exact Hne].
Qed.

Lemma raw_status_valid raw seg :
  validate seg = Ok tt -> py_str (status seg) = raw_status raw ->
  raw_status raw ∈ VALID_STATUSES.
Proof.
  intros Hv <-. apply validate_ok in Hv as (Hs & _ & _).
  unfold status_valid in Hs. destruct (status seg) as [|s]; [discriminate|].
  now apply bool_decide_eq_true in Hs.
Qed.

Lemma four_statuses_cover raws :
  Forall (fun raw => raw_status raw ∈ VALID_STATUSES) raws ->
  raw_minutes_with_status STATUS_OFF_DUTY raws
  + raw_minutes_with_status STATUS_SLEEPER raws
  + raw_minutes_with_status STATUS_DRIVING raws
  + raw_minutes_with_status STATUS_ON_DUTY raws
  = foldr (fun r acc => raw_duration r + acc) 0 raws.
Proof.
  induction 1 as [|raw raws Hin _ IH]; [reflexivity|].
  cbn [raw_minutes_with_status foldr].
  fold (raw_minutes_with_status STATUS_OFF_DUTY raws).
  fold (raw_minutes_with_status STATUS_SLEEPER raws).
  fold (raw_minutes_with_status STATUS_DRIVING raws).
  fold (raw_minutes_with_status STATUS_ON_DUTY raws).
  rewrite <- IH. unfold VALID_STATUSES in Hin.
  repeat (apply elem_of_cons in Hin as [-> | Hin]);
    [| | | |now apply elem_of_nil in Hin];
    repeat case_decide; try discriminate; try congruence; lia.
Qed.

Lemma initial_totals_lookup st :
  st ∈ VALID_STATUSES -> initial_totals !! st = Some 0.
Proof.
  unfold VALID_STATUSES. intros Hin.
  repeat (apply elem_of_cons in Hin as [-> | Hin]);
    [| | | |now apply elem_of_nil in Hin]; vm_compute; reflexivity.
Qed.

End ReplaceFacts.

Section AcceptedFacts.

Import Models Logs.
Local Open Scope Z_scope.

Lemma good_upsert_ok :
  upsert_driver_log 1 1 1 None (Some "ok") good_segments None 100 sample_db
  = (Ok (5, good_log), good_upsert.2).
Proof. vm_compute. reflexivity. Qed.

Lemma normalise_segment_message raw e :
  normalise_segment raw = Raise e ->
  e <> ValidationError "Daily duty segments exceed 24 hours".
Proof.
  unfold normalise_segment.
  destruct (_parse_time "startTime" _) as [st|e1] eqn:P1.
  2:{ intros [= <-]. unfold _parse_time in P1.
      destruct (raw !! "startTime") as [[|[|a v]]|]; try (injection P1 as <-; discriminate).
      destruct (strptime_HM _); [discriminate | injection P1 as <-; discriminate]. }
  destruct (_parse_time "endTime" _) as [et|e2] eqn:P2.
  2:{ intros [= <-]. unfold _parse_time in P2.
      destruct (raw !! "endTime") as [[|[|a v]]|]; try (injection P2 as <-; discriminate).
      destruct (strptime_HM _); [discriminate | injection P2 as <-; discriminate]. }
  unfold validate.
  destruct (negb _); [intros [= <-]; discriminate|].
  destruct (time_le _ _); [intros [= <-]; discriminate|].
  destruct (negb _); [intros [= <-]; discriminate | discriminate].
Qed.

Lemma _normalise_segments_message raws e :
  _normalise_segments raws = Raise e ->
  e <> ValidationError "Daily duty segments exceed 24 hours".
Proof.
  induction raws as [|raw raws IH]; cbn; [discriminate|].
  destruct (normalise_segment raw) as [seg|e1] eqn:N.
  2:{ intros [= <-]. eapply normalise_segment_message, N. }
  destruct (_normalise_segments raws) as [segs|e2]; [discriminate|].
  intros [= <-]. now apply IH.
Qed.

Lemma accumulate_message segs :
  forall totals cursor last e,
    accumulate segs totals cursor last = Raise e ->
    e <> ValidationError "Daily duty segments exceed 24 hours".
Proof.
  induction segs as [|seg segs IH]; cbn; intros totals cursor last e;
    [discriminate|].
  destruct last as [last_end|]; [destruct (time_lt _ _)|].
  - intros [= <-]. discriminate.
  - apply IH.
  - apply IH.
Qed.

(** The minute cursor of segments that were normalised and passed the
    overlap check is at most 1439. *)
Lemma checked_segments_within_day raws segs totals cursor :
  _normalise_segments raws = Ok segs ->
  accumulate segs initial_totals 0 None = Ok (totals, cursor) ->
  cursor <= 1439.
Proof.
  intros N A. apply _normalise_segments_rows, rows_ordered in N.
  pose proof (accumulate_within_day _ _ _ _ _ _ A N I) as H.
  cbn beta iota in H. lia.
Qed.

End AcceptedFacts.

(** X13: what [upsert_driver_log] accepts is well-formed: the day number is
    positive, the trip is the caller's, there is at least one segment, and
    the list has none of the three defects; every segment has times of day
    with the start before the end, lasts a multiple of 15 minutes and has
    one of the four statuses (OFF_DUTY when none was given). *)
Theorem accepted_segments_are_well_formed
        (user trip_id day : Z) (log_date : option Z) (notes : option string)
        (segments : list (gmap string Logs.PyVal)) (dist : option Q) (today : Z)
        (db db' : Models.DB) (log_id : Z) (log : Models.DriverLog) :
  Logs.upsert_driver_log user trip_id day log_date notes segments dist today db
  = (Ok (log_id, log), db') ->
  (0 < day)%Z /\ owns_trip db user trip_id /\ segments <> []
  /\ ~ rejected_segments segments
  /\ Forall (fun raw =>
               exists s e,
                 raw_times raw = Some (s, e)
                 /\ valid_time s /\ valid_time e
                 /\ (time_minutes s < time_minutes e)%Z
                 /\ raw_duration raw = (time_minutes e - time_minutes s)%Z
                 /\ (raw_duration raw mod 15 = 0)%Z
                 /\ raw_status raw ∈ Logs.VALID_STATUSES) segments.
Proof.
  intros Hup.
  apply upsert_ok_inv in Hup
    as (Hday & Hown & parsed & totals & cursor & existing & N & Hne & A & Hc & _).
  split; [exact Hday|]. split; [exact Hown|].
  pose proof (_normalise_segments_rows _ _ N) as Hrows.
  split.
  { intros ->. apply Forall2_nil_inv_l in Hrows. contradiction. }
  split.
  { intros Hrej.
    pose proof (rejected_segments_checked _ _ _ _ Hrej N A) as H.
    unfold Logs.MINUTES_PER_DAY in H. lia. }
  pose proof (rows_ordered _ _ Hrows) as Hord.
  clear N A Hne. induction Hrows as [|raw seg raws segs (Ht & Hv & Hs & _) _ IH].
  - constructor.
  - apply Forall_cons in Hord as [(Hvs & Hve & Hlt) Hord].
    constructor; [|now apply IH].
    exists (Logs.start_time seg), (Logs.end_time seg).
    assert (Hd : raw_duration raw
                 = (time_minutes (Logs.end_time seg)
                    - time_minutes (Logs.start_time seg))%Z).
    { unfold raw_duration. rewrite Ht. apply duration_is_difference. }
    repeat split; try assumption; try apply Hvs; try apply Hve.
    + pose proof Hv as Hv'. apply validate_ok in Hv' as (_ & _ & Hm).
      unfold raw_duration. rewrite Ht. exact Hm.
    + eapply raw_status_valid; eassumption.
Qed.

Lemma accepted_segments_are_well_formed_witness :
  (0 < 1)%Z /\ owns_trip sample_db 1 1 /\ good_segments <> []
  /\ ~ rejected_segments good_segments
  /\ Forall (fun raw =>
               exists s e,
                 raw_times raw = Some (s, e)
                 /\ valid_time s /\ valid_time e
                 /\ (time_minutes s < time_minutes e)%Z
                 /\ raw_duration raw = (time_minutes e - time_minutes s)%Z
                 /\ (raw_duration raw mod 15 = 0)%Z
                 /\ raw_status raw ∈ Logs.VALID_STATUSES) good_segments.
Proof.
  apply (accepted_segments_are_well_formed 1 1 1 None (Some "ok") good_segments
           None 100 sample_db good_upsert.2 5 good_log).
  exact good_upsert_ok.
Defined.

(** X14: after a successful upsert the log read back under the returned id
    is the returned log, and its four minute totals are the durations of the
    supplied segments added up by status (a segment without status under
    OFF_DUTY); together they are the total of all durations, which is at
    most 1439 minutes. *)
Theorem stored_totals_match_segments
        (user trip_id day : Z) (log_date : option Z) (notes : option string)
        (segments : list (gmap string Logs.PyVal)) (dist : option Q) (today : Z)
        (db db' : Models.DB) (log_id : Z) (log : Models.DriverLog) :
  Logs.upsert_driver_log user trip_id day log_date notes segments dist today db
  = (Ok (log_id, log), db') ->
  Models.driver_logs db' !! log_id = Some log
  /\ Models.total_off_duty_minutes log
     = raw_minutes_with_status Models.STATUS_OFF_DUTY segments
  /\ Models.total_sleeper_minutes log
     = raw_minutes_with_status Models.STATUS_SLEEPER segments
  /\ Models.total_driving_minutes log
     = raw_minutes_with_status Models.STATUS_DRIVING segments
  /\ Models.total_on_duty_minutes log
     = raw_minutes_with_status Models.STATUS_ON_DUTY segments
  /\ (Models.total_off_duty_minutes log + Models.total_sleeper_minutes log
      + Models.total_driving_minutes log + Models.total_on_duty_minutes log
      = foldr (fun r acc => raw_duration r + acc) 0 segments)%Z
  /\ (foldr (fun r acc => raw_duration r + acc) 0 segments <= 1439)%Z.
Proof.
  intros Hup.
  apply upsert_ok_inv in Hup
    as (_ & _ & parsed & totals & cursor & existing & N & _ & A & _ & _
        & _ & _ & _ & _ & Hoff & Hsl & Hdr & Hon & _ & ->).
  pose proof (_normalise_segments_rows _ _ N) as Hrows.
  assert (Htot : forall st, st ∈ Logs.VALID_STATUSES ->
            default 0%Z (totals !! st) = raw_minutes_with_status st segments).
  { intros st Hst.
    rewrite (accumulate_totals _ _ _ _ _ _ A st), (initial_totals_lookup st Hst).
    cbn. destruct (rows_minutes _ _ st Hrows) as [-> _]. lia. }
  assert (Hvalid : Forall (fun raw => raw_status raw ∈ Logs.VALID_STATUSES) segments).
  { clear -Hrows. induction Hrows as [|raw seg raws segs (_ & Hv & Hs & _) _ IH];
      constructor; [eapply raw_status_valid; eassumption | exact IH]. }
  rewrite Hoff, Hsl, Hdr, Hon.
  rewrite !Htot by (unfold Logs.VALID_STATUSES; set_solver).
  split.
  { cbn [Models.driver_logs Models.with_duty_segments Models.with_driver_logs].
    apply lookup_insert_eq. }
  repeat (split; [reflexivity|]).
  split; [now apply four_statuses_cover|].
  destruct (rows_minutes _ _ Models.STATUS_OFF_DUTY Hrows) as [_ ->].
  pose proof (checked_segments_within_day _ _ _ _ N A) as Hc.
  apply accumulate_cursor in A. lia.
Qed.

Lemma stored_totals_match_segments_witness :
  Models.driver_logs good_upsert.2 !! 5%Z = Some good_log
  /\ Models.total_off_duty_minutes good_log
     = raw_minutes_with_status Models.STATUS_OFF_DUTY good_segments
  /\ Models.total_sleeper_minutes good_log
     = raw_minutes_with_status Models.STATUS_SLEEPER good_segments
  /\ Models.total_driving_minutes good_log
     = raw_minutes_with_status Models.STATUS_DRIVING good_segments
  /\ Models.total_on_duty_minutes good_log
     = raw_minutes_with_status Models.STATUS_ON_DUTY good_segments
  /\ (Models.total_off_duty_minutes good_log + Models.total_sleeper_minutes good_log
      + Models.total_driving_minutes good_log + Models.total_on_duty_minutes good_log
      = foldr (fun r acc => raw_duration r + acc) 0 good_segments)%Z
  /\ (foldr (fun r acc => raw_duration r + acc) 0 good_segments <= 1439)%Z.
Proof.
  apply (stored_totals_match_segments 1 1 1 None (Some "ok") good_segments
           None 100 sample_db good_upsert.2 5 good_log).
  exact good_upsert_ok.
Defined.

(** X15: [upsert_driver_log] never raises "Daily duty segments exceed 24
    hours": segments that parse, end after they start and do not overlap
    cover at most 1439 minutes, so the 24-hour check cannot fire. *)
Theorem day_total_check_never_fires
        (user trip_id day : Z) (log_date : option Z) (notes : option string)
        (segments : list (gmap string Logs.PyVal)) (dist : option Q) (today : Z)
        (db : Models.DB) :
  (Logs.upsert_driver_log user trip_id day log_date notes segments dist today db).1
  <> Raise (ValidationError "Daily duty segments exceed 24 hours").
Proof.
  unfold Logs.upsert_driver_log, Models.atomic, Logs.upsert_body.
  destruct (day <=? 0)%Z; [cbn; discriminate|].
  destruct (Models.trips db !! trip_id) as [trip|]; [|cbn; discriminate].
  case_bool_decide; [|cbn; discriminate].
  destruct (Logs._normalise_segments segments) as [parsed|e] eqn:N.
  2:{ cbn. intros [= ->]. now apply _normalise_segments_message in N. }
  destruct parsed as [|seg parsed]; [cbn; discriminate|].
  destruct (Logs.accumulate (seg :: parsed) Logs.initial_totals 0 None)
    as [[totals cursor]|e] eqn:A.
  2:{ cbn. intros [= ->]. now apply accumulate_message in A. }
  pose proof (checked_segments_within_day _ _ _ _ N A) as Hc.
  assert (E : (Logs.MINUTES_PER_DAY <? cursor)%Z = false).
  { apply Z.ltb_ge. unfold Logs.MINUTES_PER_DAY. lia. }
  rewrite E.
  destruct (Logs.find_log _ _ _) as [[k l]|]; cbn; discriminate.
Qed.

Section GetOrCreateFacts.

Import Models Logs.
Local Open Scope Z_scope.

Lemma second_upsert_ok :
  upsert_driver_log 1 1 1 None None [raw_segment "ON_DUTY" "01:00" "02:00"]
                    None 101 good_upsert.2
  = (Ok (5, second_log), second_upsert.2).
Proof. vm_compute. reflexivity. Qed.

Lemma rows_triples raws segs log_id :
  Forall2 (fun raw seg =>
             raw_times raw = Some (start_time seg, end_time seg)
             /\ validate seg = Ok tt
             /\ py_str (status seg) = raw_status raw
             /\ valid_time (start_time seg) /\ valid_time (end_time seg))
          raws segs ->
  map segment_triple (map (segment_row log_id) segs) = map raw_triple raws.
Proof.
  induction 1 as [|raw seg raws segs (Ht & _ & Hs & _) _ IH]; [reflexivity|].
  cbn [map]. rewrite IH. f_equal.
  unfold segment_triple, raw_triple, segment_row. rewrite Ht. cbn.
  now rewrite Hs.
Qed.

(** With one log per trip and day, the lookup of [get_or_create] finds
    exactly that log. *)
Lemma find_log_unique logs k l :
  logs !! k = Some l ->
  (forall k2 l2, logs !! k2 = Some l2 ->
     log_trip l2 = log_trip l -> log_day_number l2 = log_day_number l ->
     k2 = k) ->
  find_log logs (log_trip l) (log_day_number l) = Some (k, l).
Proof.
  intros Hk Huniq.
  destruct (find_log logs (log_trip l) (log_day_number l)) as [[k2 l2]|] eqn:F.
  - apply find_log_Some in F as (H2 & Ht & Hd).
    pose proof (Huniq _ _ H2 Ht Hd) as ->. congruence.
  - exfalso. eapply find_log_None; [exact F | exact Hk | split; reflexivity].
Qed.

Lemma upsert_log_key user trip_id day log_date notes segments dist today db
      log_id log db' :
  upsert_driver_log user trip_id day log_date notes segments dist today db
  = (Ok (log_id, log), db') ->
  log_trip log = trip_id /\ log_day_number log = day
  /\ driver_logs db' = <[log_id := log]> (driver_logs db)
  /\ (forall k l, driver_logs db !! k = Some l ->
        log_trip l = trip_id -> log_day_number l = day ->
        exists l', driver_logs db !! log_id = Some l'
                   /\ log_trip l' = trip_id /\ log_day_number l' = day)
  /\ (driver_logs db !! log_id = None
      \/ exists l', driver_logs db !! log_id = Some l'
                    /\ log_trip l' = trip_id /\ log_day_number l' = day).
Proof.
  intros Hup.
  apply upsert_ok_inv in Hup
    as (_ & _ & parsed & totals & cursor & existing & _ & _ & _ & _ & F
        & Ht & Hd & _ & _ & _ & _ & _ & _ & _ & ->).
  destruct F as [F | (F & -> & ->)].
  - apply find_log_Some in F as (Hk & Ht' & Hd').
    repeat split; try congruence.
    + intros k l _ _ _. eauto.
    + right. eauto.
  - repeat split; try assumption.
    + intros k l Hk Ht' Hd'. exfalso.
      eapply find_log_None; [exact F | exact Hk | now split].
    + left. apply new_pk_fresh.
Qed.

Lemma upsert_keeps_unique user trip_id day log_date notes segments dist today db
      log_id log db' :
  unique_trip_day db ->
  upsert_driver_log user trip_id day log_date notes segments dist today db
  = (Ok (log_id, log), db') ->
  unique_trip_day db'.
Proof.
  intros Huniq Hup.
  apply upsert_log_key in Hup as (Ht & Hd & Hlogs & Hfound & Hat).
  intros k1 k2 l1 l2 H1 H2 Htt Hdd. rewrite Hlogs in H1, H2.
  assert (Hold : forall k l, k <> log_id -> driver_logs db !! k = Some l ->
                   log_trip l = trip_id -> log_day_number l = day -> False).
  { intros k l Hne Hk Hkt Hkd.
    destruct (Hfound _ _ Hk Hkt Hkd) as (l' & Hl' & Ht' & Hd').
    apply Hne. eapply Huniq; [exact Hk | exact Hl' | congruence | congruence]. }
  destruct (decide (k1 = log_id)) as [-> | N1];
    destruct (decide (k2 = log_id)) as [-> | N2]; [reflexivity | | |].
  - rewrite lookup_insert_eq in H1. injection H1 as <-.
    rewrite lookup_insert_ne in H2 by congruence.
    exfalso. eapply (Hold k2 l2); [exact N2 | exact H2 | congruence | congruence].
  - rewrite lookup_insert_eq in H2. injection H2 as <-.
    rewrite lookup_insert_ne in H1 by congruence.
    exfalso. eapply (Hold k1 l1); [exact N1 | exact H1 | congruence | congruence].
  - rewrite lookup_insert_ne in H1, H2 by congruence.
    eapply Huniq; eassumption.
Qed.

(** A successful call, computed forwards from what its steps return. *)
Lemma upsert_ok_intro user trip_id day log_date notes segments dist today db
      trip parsed totals cursor k existing :
  0 < day ->
  trips db !! trip_id = Some trip -> trip_user trip = user ->
  _normalise_segments segments = Ok parsed -> parsed <> [] ->
  accumulate parsed initial_totals 0 None = Ok (totals, cursor) ->
  cursor <= 1440 ->
  find_log (driver_logs db) trip_id day = Some (k, existing) ->
  upsert_driver_log user trip_id day log_date notes segments dist today db
  = (Ok (k, mkDriverLog (log_trip existing) (log_day_number existing)
                        (default today log_date)
                        (default 0 (totals !! STATUS_OFF_DUTY))
                        (default 0 (totals !! STATUS_SLEEPER))
                        (default 0 (totals !! STATUS_DRIVING))
                        (default 0 (totals !! STATUS_ON_DUTY))
                        (default (total_distance_miles_log existing) dist)
                        (default "" notes)),
     with_duty_segments
       (with_driver_logs db
          (<[k := mkDriverLog (log_trip existing) (log_day_number existing)
                        (default today log_date)
                        (default 0 (totals !! STATUS_OFF_DUTY))
                        (default 0 (totals !! STATUS_SLEEPER))
                        (default 0 (totals !! STATUS_DRIVING))
                        (default 0 (totals !! STATUS_ON_DUTY))
                        (default (total_distance_miles_log existing) dist)
                        (default "" notes)]> (driver_logs db)))
       (bulk_create_segments (map (segment_row k) parsed)
          (filter (fun kv : Z * DutyStatusSegment => segment_log kv.2 <> k)
                  (duty_segments db)))).
Proof.
  intros Hday Htrip Huser N Hne A Hc F.
  unfold upsert_driver_log, atomic, upsert_body.
  assert (E1 : (day <=? 0) = false) by (apply Z.leb_gt; lia).
  assert (E2 : (MINUTES_PER_DAY <? cursor) = false)
    by (apply Z.ltb_ge; unfold MINUTES_PER_DAY; lia).
  rewrite E1, Htrip, (bool_decide_eq_true_2 _ Huser), N.
  destruct parsed as [|seg parsed]; [contradiction|].
  rewrite A, E2, F. reflexivity.
Qed.

End GetOrCreateFacts.

(** X16: a successful upsert replaces the segments of its log wholesale:
    afterwards the log has exactly the supplied segments (status, start and
    end; as a multiset), whatever it had before. The rows of other logs, the
    other logs themselves and the trip, route, stop and job tables are
    untouched. *)
Theorem upsert_replaces_segments
        (user trip_id day : Z) (log_date : option Z) (notes : option string)
        (segments : list (gmap string Logs.PyVal)) (dist : option Q) (today : Z)
        (db db' : Models.DB) (log_id : Z) (log : Models.DriverLog) :
  Logs.upsert_driver_log user trip_id day log_date notes segments dist today db
  = (Ok (log_id, log), db') ->
  map segment_triple (stored_segments db' log_id) ≡ₚ map raw_triple segments
  /\ same_other_segments log_id db db'
  /\ (forall k, k <> log_id ->
        Models.driver_logs db' !! k = Models.driver_logs db !! k)
  /\ same_trip_tables db db'.
Proof.
  intros Hup.
  apply upsert_ok_inv in Hup
    as (_ & _ & parsed & totals & cursor & existing & N & _ & _ & _ & _
        & _ & _ & _ & _ & _ & _ & _ & _ & _ & ->).
  pose proof (upsert_segments_after (Models.duty_segments db) log_id parsed)
    as [Hmine Hothers].
  split.
  { unfold stored_segments.
    cbn [Models.duty_segments Models.with_duty_segments].
    rewrite Hmine. erewrite rows_triples; [reflexivity|].
    now apply _normalise_segments_rows. }
  split; [exact Hothers|].
  split.
  { intros k Hne.
    cbn [Models.driver_logs Models.with_duty_segments Models.with_driver_logs].
    now apply lookup_insert_ne. }
  repeat split.
Qed.

Lemma upsert_replaces_segments_witness :
  map segment_triple (stored_segments second_upsert.2 5)
  ≡ₚ map raw_triple [raw_segment "ON_DUTY" "01:00" "02:00"]
  /\ same_other_segments 5 good_upsert.2 second_upsert.2
  /\ (forall k, k <> 5%Z ->
        Models.driver_logs second_upsert.2 !! k
        = Models.driver_logs good_upsert.2 !! k)
  /\ same_trip_tables good_upsert.2 second_upsert.2.
Proof.
  apply (upsert_replaces_segments 1 1 1 None None
           [raw_segment "ON_DUTY" "01:00" "02:00"] None 101
           good_upsert.2 second_upsert.2 5 second_log).
  exact second_upsert_ok.
Defined.

(** X17: [upsert_driver_log] keeps one log per trip and day. The returned
    log is for the requested trip and day; when the trip already has a log
    for that day the call updates that log under its id, and otherwise the
    log is stored under an id that was not in use. *)
Theorem upsert_keeps_one_log_per_day
        (user trip_id day : Z) (log_date : option Z) (notes : option string)
        (segments : list (gmap string Logs.PyVal)) (dist : option Q) (today : Z)
        (db db' : Models.DB) (log_id : Z) (log : Models.DriverLog) :
  unique_trip_day db ->
  Logs.upsert_driver_log user trip_id day log_date notes segments dist today db
  = (Ok (log_id, log), db') ->
  unique_trip_day db'
  /\ Models.log_trip log = trip_id /\ Models.log_day_number log = day
  /\ (forall k l, Models.driver_logs db !! k = Some l ->
        Models.log_trip l = trip_id -> Models.log_day_number l = day ->
        log_id = k)
  /\ ((forall k l, Models.driver_logs db !! k = Some l ->
         ~ (Models.log_trip l = trip_id /\ Models.log_day_number l = day)) ->
      Models.driver_logs db !! log_id = None).
Proof.
  intros Huniq Hup.
  split; [eapply upsert_keeps_unique; eassumption|].
  apply upsert_log_key in Hup as (Ht & Hd & _ & Hfound & Hat).
  split; [exact Ht|]. split; [exact Hd|]. split.
  - intros k l Hk Hkt Hkd.
    destruct (Hfound _ _ Hk Hkt Hkd) as (l' & Hl' & Ht' & Hd').
    symmetry. eapply Huniq; [exact Hk | exact Hl' | congruence | congruence].
  - intros Hnone. destruct Hat as [Hat | (l' & Hl' & Ht' & Hd')]; [exact Hat|].
    exfalso. eapply Hnone; [exact Hl' | now split].
Qed.

Lemma sample_db_unique : unique_trip_day sample_db.
Proof.
  intros k1 k2 l1 l2 H1 H2 _ _.
  unfold sample_db in H1, H2. cbn [Models.driver_logs] in H1, H2.
  apply lookup_singleton_Some in H1 as [<- _].
  apply lookup_singleton_Some in H2 as [<- _]. reflexivity.
Qed.

Lemma upsert_keeps_one_log_per_day_witness :
  unique_trip_day good_upsert.2
  /\ Models.log_trip good_log = 1%Z /\ Models.log_day_number good_log = 1%Z
  /\ (forall k l, Models.driver_logs sample_db !! k = Some l ->
        Models.log_trip l = 1%Z -> Models.log_day_number l = 1%Z ->
        5%Z = k)
  /\ ((forall k l, Models.driver_logs sample_db !! k = Some l ->
         ~ (Models.log_trip l = 1%Z /\ Models.log_day_number l = 1%Z)) ->
      Models.driver_logs sample_db !! 5%Z = None).
Proof.
  apply (upsert_keeps_one_log_per_day 1 1 1 None (Some "ok") good_segments
           None 100 sample_db good_upsert.2 5 good_log).
  - exact sample_db_unique.
  - exact good_upsert_ok.
Defined.

(** X18: repeating a successful upsert with the same arguments changes
    nothing a reader can see: the second call succeeds with the same id and
    the same log, the log table is the same, the log has the same segment
    rows, and the rows of other logs are the same. *)
Theorem upsert_twice_is_upsert_once
        (user trip_id day : Z) (log_date : option Z) (notes : option string)
        (segments : list (gmap string Logs.PyVal)) (dist : option Q) (today : Z)
        (db db' : Models.DB) (log_id : Z) (log : Models.DriverLog) :
  unique_trip_day db ->
  Logs.upsert_driver_log user trip_id day log_date notes segments dist today db
  = (Ok (log_id, log), db') ->
  exists db'',
    Logs.upsert_driver_log user trip_id day log_date notes segments dist today db'
    = (Ok (log_id, log), db'')
    /\ Models.driver_logs db'' = Models.driver_logs db'
    /\ stored_segments db'' log_id ≡ₚ stored_segments db' log_id
    /\ same_other_segments log_id db' db''
    /\ same_trip_tables db' db''.
Proof.
  intros Huniq Hup.
  pose proof (upsert_keeps_unique _ _ _ _ _ _ _ _ _ _ _ _ Huniq Hup) as Huniq'.
  pose proof (upsert_log_key _ _ _ _ _ _ _ _ _ _ _ _ Hup)
    as (Ht & Hd & Hlogs & _ & _).
  pose proof Hup as Hinv.
  apply upsert_ok_inv in Hinv
    as (Hday & (trip & Htrip & Huser) & parsed & totals & cursor & existing
        & N & Hne & A & Hc & _ & _ & _ & Hdate & Hnotes & Hoff & Hsl & Hdr
        & Hon & Hdist & Hdb).
  assert (Hfind : Logs.find_log (Models.driver_logs db') trip_id day
                  = Some (log_id, log)).
  { rewrite <- Ht, <- Hd. apply find_log_unique.
    - rewrite Hlogs. apply lookup_insert_eq.
    - intros k2 l2 H2 Ht2 Hd2. eapply Huniq'; [exact H2 | | exact Ht2 | exact Hd2].
      rewrite Hlogs. apply lookup_insert_eq. }
  assert (Htrip' : Models.trips db' !! trip_id = Some trip)
    by (rewrite Hdb; exact Htrip).
  pose proof (upsert_ok_intro user trip_id day log_date notes segments dist today
                db' trip parsed totals cursor log_id log
                Hday Htrip' Huser N Hne A Hc Hfind) as Hsecond.
  assert (Hlog : Models.mkDriverLog (Models.log_trip log)
                   (Models.log_day_number log) (default today log_date)
                   (default 0%Z (totals !! Models.STATUS_OFF_DUTY))
                   (default 0%Z (totals !! Models.STATUS_SLEEPER))
                   (default 0%Z (totals !! Models.STATUS_DRIVING))
                   (default 0%Z (totals !! Models.STATUS_ON_DUTY))
                   (default (Models.total_distance_miles_log log) dist)
                   (default "" notes) = log).
  { rewrite <- Hdate, <- Hnotes, <- Hoff, <- Hsl, <- Hdr, <- Hon.
    assert (Hd' : default (Models.total_distance_miles_log log) dist
                  = Models.total_distance_miles_log log).
    { rewrite Hdist. now destruct dist. }
    rewrite Hd'. now destruct log. }
  rewrite Hlog in Hsecond.
  eexists. split; [exact Hsecond|].
  pose proof (upsert_segments_after (Models.duty_segments db') log_id parsed)
    as [Hmine Hothers].
  pose proof (upsert_segments_after (Models.duty_segments db) log_id parsed)
    as [Hmine0 _].
  split.
  { cbn [Models.driver_logs Models.with_duty_segments Models.with_driver_logs].
    rewrite Hlogs. apply insert_insert_eq. }
  split.
  { unfold stored_segments at 1.
    cbn [Models.duty_segments Models.with_duty_segments].
    rewrite Hmine. unfold stored_segments. rewrite Hdb.
    cbn [Models.duty_segments Models.with_duty_segments].
    now rewrite Hmine0. }
  split; [exact Hothers|].
  repeat split.
Qed.

Lemma upsert_twice_is_upsert_once_witness :
  exists db'',
    Logs.upsert_driver_log 1 1 1 None (Some "ok") good_segments None 100
                           good_upsert.2
    = (Ok (5%Z, good_log), db'')
    /\ Models.driver_logs db'' = Models.driver_logs good_upsert.2
    /\ stored_segments db'' 5 ≡ₚ stored_segments good_upsert.2 5
    /\ same_other_segments 5 good_upsert.2 db''
    /\ same_trip_tables good_upsert.2 db''.
Proof.
  apply (upsert_twice_is_upsert_once 1 1 1 None (Some "ok") good_segments
           None 100 sample_db good_upsert.2 5 good_log).
  - exact sample_db_unique.
  - exact good_upsert_ok.
Defined.

Section DeleteFacts.

Import Models Logs.

Lemma good_delete_ok :
  delete_driver_log 1 5 good_upsert.2
  = (Ok true, (delete_driver_log 1 5 good_upsert.2).2).
Proof. vm_compute. reflexivity. Qed.

Lemma delete_ok_inv user log_id db db' :
  delete_driver_log user log_id db = (Ok true, db') ->
  (exists l t, driver_logs db !! log_id = Some l
               /\ trips db !! log_trip l = Some t /\ trip_user t = user)
  /\ db' = with_driver_logs
             (with_duty_segments db
                (filter (fun kv : Z * DutyStatusSegment => segment_log kv.2 <> log_id)
                        (duty_segments db)))
             (delete log_id (driver_logs db)).
Proof.
  unfold delete_driver_log, atomic, delete_body.
  destruct (driver_logs db !! log_id) as [l|] eqn:Hl; [|discriminate].
  destruct (trips db !! log_trip l) as [t|] eqn:Ht; [|discriminate].
  case_bool_decide as Hu; [discriminate|].
  intros [= <-]. split; [|reflexivity].
  exists l, t. repeat split; assumption.
Qed.

End DeleteFacts.

(** X19: a successful [delete_driver_log] is for a log on one of the
    caller's trips; it removes that log and all its segments and nothing
    else: other logs, the rows of other logs and the trip, route, stop and
    job tables are as before. Deleting the same log again returns False and
    changes nothing. *)
Theorem delete_removes_log_and_segments
        (user log_id : Z) (db db' : Models.DB) :
  Logs.delete_driver_log user log_id db = (Ok true, db') ->
  (exists l, Models.driver_logs db !! log_id = Some l
             /\ owns_trip db user (Models.log_trip l))
  /\ Models.driver_logs db' = delete log_id (Models.driver_logs db)
  /\ stored_segments db' log_id = []
  /\ same_other_segments log_id db db'
  /\ same_trip_tables db db'
  /\ Logs.delete_driver_log user log_id db' = (Ok false, db').
Proof.
  intros Hdel. apply delete_ok_inv in Hdel as [(l & t & Hl & Ht & Hu) ->].
  split; [exists l; split; [exact Hl | exists t; now split]|].
  split; [reflexivity|].
  split.
  { unfold stored_segments.
    cbn [Models.duty_segments Models.with_duty_segments Models.with_driver_logs].
    apply filter_none, kept_segments_values. }
  split.
  { intros k s Hne.
    cbn [Models.duty_segments Models.with_duty_segments Models.with_driver_logs].
    rewrite map_lookup_filter_Some. cbn. tauto. }
  split; [repeat split|].
  unfold Logs.delete_driver_log, Models.atomic, Logs.delete_body.
  cbn [Models.driver_logs Models.with_duty_segments Models.with_driver_logs].
  now rewrite lookup_delete_eq.
Qed.

Lemma delete_removes_log_and_segments_witness :
  (exists l, Models.driver_logs good_upsert.2 !! 5%Z = Some l
             /\ owns_trip good_upsert.2 1 (Models.log_trip l))
  /\ Models.driver_logs (Logs.delete_driver_log 1 5 good_upsert.2).2
     = delete 5%Z (Models.driver_logs good_upsert.2)
  /\ stored_segments (Logs.delete_driver_log 1 5 good_upsert.2).2 5 = []
  /\ same_other_segments 5 good_upsert.2 (Logs.delete_driver_log 1 5 good_upsert.2).2
  /\ same_trip_tables good_upsert.2 (Logs.delete_driver_log 1 5 good_upsert.2).2
  /\ Logs.delete_driver_log 1 5 (Logs.delete_driver_log 1 5 good_upsert.2).2
     = (Ok false, (Logs.delete_driver_log 1 5 good_upsert.2).2).
Proof.
  apply (delete_removes_log_and_segments 1 5 good_upsert.2
           (Logs.delete_driver_log 1 5 good_upsert.2).2).
  exact good_delete_ok.
Defined.

Section PlanSuccess.

Import Models TripPlanner.

Lemma plan_ok_inv env user start pickup dropoff cyc carrier db trip_id trip db' :
  plan_trip_for_user env (Some user) start pickup dropoff cyc carrier db
  = (Ok (trip_id, trip), db') ->
  exists rd,
    OpenRoute.plan_route env [start; pickup; dropoff] 5000 = Ok rd
    /\ trip_id = new_pk (trips db)
    /\ trip
       = mkTrip user start pickup dropoff
           (default "" (cf_tractor_number carrier))
           (default [] (cf_trailer_numbers carrier))
           (default [] (cf_carrier_names carrier))
           (default "" (cf_main_office_address carrier))
           (default "" (cf_home_terminal_address carrier))
           (default "" (cf_co_driver_name carrier))
           (default "" (cf_shipper_name carrier))
           (default "" (cf_commodity carrier))
           "PLANNED" cyc
           (OpenRoute.rd_total_distance_miles rd)
           (OpenRoute.rd_total_duration_hours rd)
           (Some (mkItinerary (planned_legs start pickup dropoff rd)
                    (OpenRoute.rd_total_distance_miles rd)
                    (OpenRoute.rd_total_duration_hours rd) []))
    /\ db'
       = mkDB (<[trip_id := trip]> (trips db))
              (<[new_pk (routes db) :=
                   mkRoute trip_id (OpenRoute.rd_polyline rd)
                           (OpenRoute.rd_total_distance_miles rd)
                           (OpenRoute.rd_total_duration_hours rd)]> (routes db))
              (bulk_create_stops (new_pk (routes db)) 1
                 [mkStopDefinition "START" start 0 0;
                  mkStopDefinition "PICKUP" pickup
                    (leg_metrics rd 0).1 (leg_metrics rd 0).2;
                  mkStopDefinition "DROPOFF" dropoff
                    (leg_metrics rd 1).1 (leg_metrics rd 1).2]
                 (stops db))
              (driver_logs db) (duty_segments db) (jobs db).
Proof.
  unfold plan_trip_for_user, atomic, plan_trip_body.
  destruct (OpenRoute.plan_route _ _ _) as [rd|e];
    [|destruct e; discriminate].
  cbn [_build_stop_definitions zip_with map build_legs Nat.sub].
  intros [= <- <- <-]. exists rd. split; [reflexivity|]. split; [reflexivity|].
  unfold planned_legs, leg_metrics, set_trip_totals, with_trips, with_routes,
    with_stops.
  cbn -[new_pk bulk_create_stops OpenRoute.rd_segments].
  rewrite insert_insert_eq.
  destruct (OpenRoute.rd_segments rd !! 0%nat), (OpenRoute.rd_segments rd !! 1%nat);
    split; reflexivity.
Qed.

Lemma bulk_create_stops_values route_id defs :
  forall index table,
    (map_to_list (bulk_create_stops route_id index defs table)).*2
    ≡ₚ imap (fun i definition =>
               mkStop route_id (sd_type definition) (sd_location definition) 0
                      (index + Z.of_nat i)
                      (sd_distance_from_previous definition)
                      (sd_duration_from_previous definition)) defs
       ++ (map_to_list table).*2.
Proof.
  induction defs as [|definition defs IH]; intros index table; [reflexivity|].
  cbn [bulk_create_stops]. rewrite IH, map_to_list_insert by apply new_pk_fresh.
  cbn [imap fmap list_fmap snd app]. rewrite Z.add_0_r.
  rewrite <- Permutation_middle. apply Permutation_skip.
  apply Permutation_app_tail.
  erewrite imap_ext; [reflexivity|].
  intros i x _. cbn. f_equal. lia.
Qed.

(** Whatever the outcome, planning leaves the existing rows alone. *)
Lemma plan_trip_extends env user start pickup dropoff cyc carrier db :
  let out :=
    plan_trip_for_user env user start pickup dropoff cyc carrier db in
  trips_extended (planned_for user) db out.2
  /\ (forall e, out.1 = Raise e -> out.2 = db).
Proof.
  cbv zeta.
  destruct (plan_trip_for_user env user start pickup dropoff cyc carrier db)
    as [[[trip_id trip]|e] db'] eqn:Hplan.
  - destruct user as [user|]; [|discriminate].
    apply plan_ok_inv in Hplan as (rd & _ & Hid & Htrip & ->).
    cbn [fst snd]. split; [|discriminate].
    assert (Hfresh : trips db !! trip_id = None)
      by (rewrite Hid; apply new_pk_fresh).
    unfold trips_extended. cbn [trips driver_logs duty_segments].
    split; [|split; [|split; reflexivity]].
    + intros k t Hk. rewrite lookup_insert_ne; [exact Hk | congruence].
    + intros k t Hk. destruct (decide (trip_id = k)) as [<- | Hne].
      * rewrite lookup_insert_eq in Hk. injection Hk as <-.
        right. split; [exact Hfresh|]. rewrite Htrip. now split.
      * rewrite lookup_insert_ne in Hk by exact Hne. now left.
  - assert (Hdb : db' = db).
    { unfold plan_trip_for_user, atomic in Hplan. destruct user as [user|].
      - destruct (plan_trip_body _ _ _ _ _ _ _ _) as [[r|e'] db1];
          [discriminate | now injection Hplan].
      - now injection Hplan. }
    subst db'. cbn [fst snd]. split; [|reflexivity].
    unfold trips_extended. repeat split; auto.
Qed.

Lemma trips_extended_one_active P db db' :
  (forall t, P t -> trip_status t = "PLANNED") ->
  trips_extended P db db' ->
  Mutations.one_active_trip_per_user db ->
  Mutations.one_active_trip_per_user db'.
Proof.
  intros HP (_ & Hnew & _) Hone k1 k2 t1 t2 H1 H2 Hu S1 S2.
  assert (Hold : forall k t, trips db' !! k = Some t ->
                   trip_status t = TRIP_STATUS_IN_PROGRESS ->
                   trips db !! k = Some t).
  { intros k t Hk Hs. destruct (Hnew _ _ Hk) as [Hin | [_ Hp]]; [exact Hin|].
    apply HP in Hp. rewrite Hp in Hs. discriminate Hs. }
  eapply Hone; eauto.
Qed.

Lemma trips_extended_trans P Q R db1 db2 db3 :
  (forall t, P t -> R t) -> (forall t, Q t -> R t) ->
  trips_extended P db1 db2 -> trips_extended Q db2 db3 ->
  trips_extended R db1 db3.
Proof.
  intros HP HQ (A1 & B1 & C1 & D1) (A2 & B2 & C2 & D2).
  split; [|split; [|split; congruence]].
  - auto.
  - intros k t Hk. destruct (B2 _ _ Hk) as [H2 | [H2 Hq]].
    + destruct (B1 _ _ H2) as [H1 | [H1 Hp]]; [now left | right; auto].
    + right. split; [|auto].
      destruct (trips db1 !! k) as [t1|] eqn:E; [|reflexivity].
      apply A1 in E. congruence.
Qed.

End PlanSuccess.

(** X20: what a successful [plan_trip_for_user] leaves behind.  The routing
    call succeeded; the trip is a new PLANNED row of the caller whose totals
    are the route's and whose summary has no alerts and exactly two legs,
    START to PICKUP and PICKUP to DROPOFF, numbered 1 and 2; one route row
    for the trip and three stop rows numbered 1 to 3 are added, the first
    stop at distance zero and each later stop with the metrics of its leg (a
    leg the provider gave no segment for has zeros); logs, segments and jobs
    are untouched. *)
Theorem planned_trip_has_two_legs_three_stops
        (env : OpenRoute.Env) (user : Z)
        (start pickup dropoff : Models.Location) (cyc : Q)
        (carrier : Models.CarrierFields) (db db' : Models.DB)
        (trip_id : Z) (trip : Models.Trip) :
  TripPlanner.plan_trip_for_user env (Some user) start pickup dropoff cyc
                                 carrier db
  = (Ok (trip_id, trip), db') ->
  exists rd route_id,
    OpenRoute.plan_route env [start; pickup; dropoff] 5000 = Ok rd
    /\ Models.trips db !! trip_id = None
    /\ Models.trips db' = <[trip_id := trip]> (Models.trips db)
    /\ Models.trip_user trip = user
    /\ Models.trip_status trip = "PLANNED"
    /\ Models.cycle_hours_used trip = cyc
    /\ Models.total_miles trip = OpenRoute.rd_total_distance_miles rd
    /\ Models.total_hours trip = OpenRoute.rd_total_duration_hours rd
    /\ Models.itinerary_summary trip
       = Some (Models.mkItinerary (planned_legs start pickup dropoff rd)
                 (OpenRoute.rd_total_distance_miles rd)
                 (OpenRoute.rd_total_duration_hours rd) [])
    /\ Models.routes db !! route_id = None
    /\ Models.routes db'
       = <[route_id := Models.mkRoute trip_id (OpenRoute.rd_polyline rd)
                         (OpenRoute.rd_total_distance_miles rd)
                         (OpenRoute.rd_total_duration_hours rd)]>
           (Models.routes db)
    /\ (map_to_list (Models.stops db')).*2
       ≡ₚ planned_stops route_id start pickup dropoff rd
          ++ (map_to_list (Models.stops db)).*2
    /\ Models.driver_logs db' = Models.driver_logs db
    /\ Models.duty_segments db' = Models.duty_segments db
    /\ Models.jobs db' = Models.jobs db.
Proof.
  intros Hplan. apply plan_ok_inv in Hplan as (rd & Hroute & Hid & Htrip & ->).
  exists rd, (Models.new_pk (Models.routes db)).
  cbn [Models.trips Models.routes Models.stops Models.driver_logs
       Models.duty_segments Models.jobs].
  split; [exact Hroute|].
  split; [rewrite Hid; apply new_pk_fresh|].
  split; [reflexivity|].
  rewrite Htrip. cbn [Models.trip_user Models.trip_status Models.cycle_hours_used
                      Models.total_miles Models.total_hours
                      Models.itinerary_summary].
  repeat (split; [reflexivity|]).
  split; [apply new_pk_fresh|].
  split; [reflexivity|].
  split; [|repeat split].
  rewrite bulk_create_stops_values. reflexivity.
Qed.

Lemma planned_sample_ok :
  TripPlanner.plan_trip_for_user env_up (Some 1%Z) sample_location
    sample_location sample_location 0 no_carrier_fields sample_db
  = (Ok (2%Z, planned_sample_trip), planned_sample.2).
Proof. vm_compute. reflexivity. Qed.

Lemma planned_trip_has_two_legs_three_stops_witness :
  exists rd route_id,
    OpenRoute.plan_route env_up [sample_location; sample_location; sample_location]
                         5000 = Ok rd
    /\ Models.trips sample_db !! 2%Z = None
    /\ Models.trips planned_sample.2
       = <[2%Z := planned_sample_trip]> (Models.trips sample_db)
    /\ Models.trip_user planned_sample_trip = 1%Z
    /\ Models.trip_status planned_sample_trip = "PLANNED"
    /\ Models.cycle_hours_used planned_sample_trip = 0%Q
    /\ Models.total_miles planned_sample_trip = OpenRoute.rd_total_distance_miles rd
    /\ Models.total_hours planned_sample_trip = OpenRoute.rd_total_duration_hours rd
    /\ Models.itinerary_summary planned_sample_trip
       = Some (Models.mkItinerary
                 (planned_legs sample_location sample_location sample_location rd)
                 (OpenRoute.rd_total_distance_miles rd)
                 (OpenRoute.rd_total_duration_hours rd) [])
    /\ Models.routes sample_db !! route_id = None
    /\ Models.routes planned_sample.2
       = <[route_id := Models.mkRoute 2 (OpenRoute.rd_polyline rd)
                         (OpenRoute.rd_total_distance_miles rd)
                         (OpenRoute.rd_total_duration_hours rd)]>
           (Models.routes sample_db)
    /\ (map_to_list (Models.stops planned_sample.2)).*2
       ≡ₚ planned_stops route_id sample_location sample_location sample_location rd
          ++ (map_to_list (Models.stops sample_db)).*2
    /\ Models.driver_logs planned_sample.2 = Models.driver_logs sample_db
    /\ Models.duty_segments planned_sample.2 = Models.duty_segments sample_db
    /\ Models.jobs planned_sample.2 = Models.jobs sample_db.
Proof.
  apply (planned_trip_has_two_legs_three_stops env_up 1 sample_location
           sample_location sample_location 0 no_carrier_fields sample_db
           planned_sample.2 2 planned_sample_trip).
  exact planned_sample_ok.
Defined.

(** X21: planning never disturbs what is there.  Whatever the outcome of
    [plan_trip_for_user], every existing trip is unchanged, a trip that was
    added is a PLANNED trip of the caller, the logs and their segments are
    the same, and a database with at most one IN_PROGRESS trip per user
    still has that property; when the call raises, the database is the one
    it started from. *)
Theorem planning_keeps_existing_trips
        (env : OpenRoute.Env) (user : option Z)
        (start pickup dropoff : Models.Location) (cyc : Q)
        (carrier : Models.CarrierFields) (db : Models.DB) :
  Mutations.one_active_trip_per_user db ->
  let out :=
    TripPlanner.plan_trip_for_user env user start pickup dropoff cyc carrier db in
  Mutations.one_active_trip_per_user out.2
  /\ trips_extended (planned_for user) db out.2
  /\ (forall e, out.1 = Raise e -> out.2 = db).
Proof.
  intros Hone. cbv zeta.
  destruct (plan_trip_extends env user start pickup dropoff cyc carrier db)
    as [Hext Hfail].
  split; [|split; assumption].
  eapply trips_extended_one_active; [|exact Hext|exact Hone].
  now intros t [Hs _].
Qed.

Lemma sample_db_one_active : Mutations.one_active_trip_per_user sample_db.
Proof.
  intros k1 k2 t1 t2 H1 H2 _ _ _.
  unfold sample_db in H1, H2. cbn [Models.trips] in H1, H2.
  apply lookup_singleton_Some in H1 as [<- _].
  apply lookup_singleton_Some in H2 as [<- _]. reflexivity.
Qed.

Lemma planning_keeps_existing_trips_witness :
  let out :=
    TripPlanner.plan_trip_for_user env_up (Some 1%Z) sample_location
      sample_location sample_location 0 no_carrier_fields sample_db in
  Mutations.one_active_trip_per_user out.2
  /\ trips_extended (planned_for (Some 1%Z)) sample_db out.2
  /\ (forall e, out.1 = Raise e -> out.2 = sample_db).
Proof.
  apply (planning_keeps_existing_trips env_up (Some 1%Z) sample_location
           sample_location sample_location 0 no_carrier_fields sample_db).
  exact sample_db_one_active.
Defined.

Section JobFacts.

Import Models TripPlanner.

Lemma substring_length_le (n : nat) (s : string) :
  String.length (String.substring 0 n s) <= n.
Proof.
  revert s. induction n as [|n IH]; intros [|a s]; cbn; try lia.
  specialize (IH s). lia.
Qed.

Lemma default_truthy_str (v : option string) :
  default "" (truthy_str v) = default "" v.
Proof. now destruct v as [[|a s]|]. Qed.

Lemma default_truthy_list (v : option (list string)) :
  default [] (truthy_list v) = default [] v.
Proof. now destruct v as [[|a s]|]. Qed.

(** The job that [enqueue_trip_job] stores plans the trip the synchronous
    call would plan. *)
Lemma enqueued_job_runs_plan env now user start pickup dropoff cyc carrier db db2 :
  _run_trip_job env
    (enqueue_trip_job now user start pickup dropoff cyc carrier db).1.2 db2
  = plan_trip_for_user env (Some user) start pickup dropoff cyc carrier db2.
Proof.
  unfold enqueue_trip_job, _run_trip_job.
  cbn [fst snd job_payload job_user jp_start_location jp_pickup_location
       jp_dropoff_location jp_cycle_hours_used jp_carrier from_option].
  unfold id, plan_trip_for_user, plan_trip_body.
  cbn [cf_tractor_number cf_trailer_numbers cf_carrier_names
       cf_main_office_address cf_home_terminal_address cf_co_driver_name
       cf_shipper_name cf_commodity].
  now rewrite !default_truthy_str, !default_truthy_list.
Qed.

(** One job, in full: the times it records, the row it stores, and what
    each of the two final statuses says about the trips. *)
Lemma run_and_mark_outcome env now job_id job db :
  let out := run_and_mark env now job_id job db in
  started_at out.1 = Some now /\ completed_at out.1 = Some now
  /\ job_user out.1 = job_user job /\ job_type out.1 = job_type job
  /\ (jobs db !! job_id = Some job -> jobs out.2 !! job_id = Some out.1)
  /\ trips_extended (planned_for (job_user job)) db out.2
  /\ ((job_status out.1 = STATUS_SUCCESS
       /\ exists trip_id trip,
            job_result out.1 = Some (pretty trip_id)
            /\ trips db !! trip_id = None
            /\ trips out.2 !! trip_id = Some trip
            /\ planned_for (job_user job) trip)
      \/ (job_status out.1 = STATUS_FAILED
          /\ job_result out.1 = job_result job
          /\ trips out.2 = trips db /\ routes out.2 = routes db
          /\ stops out.2 = stops db
          /\ String.length (error_message out.1) <= 2048)).
Proof.
  cbv zeta. unfold run_and_mark.
  set (db1 := save_job job_id (mark_running now) db).
  set (job1 := mark_running now job).
  pose proof (_run_trip_job_jobs env job1 db1) as Hjobs.
  assert (Hext : trips_extended (planned_for (job_user job)) db
                   (_run_trip_job env job1 db1).2
                 /\ (forall e, (_run_trip_job env job1 db1).1 = Raise e ->
                       (_run_trip_job env job1 db1).2 = db1)).
  { unfold _run_trip_job. cbn [job_user job1 mark_running].
    destruct (job_user job) as [u|] eqn:Hu.
    - apply (plan_trip_extends env (Some u) _ _ _ _ _ db1).
    - cbn [fst snd]. split; [|reflexivity]. unfold trips_extended.
      repeat split; auto. }
  destruct Hext as [Hext Hraise].
  assert (Hstored : forall f (db2 : DB),
            jobs db2 = jobs db1 ->
            jobs db !! job_id = Some job ->
            jobs (save_job job_id f db2) !! job_id = Some (f job1)).
  { intros f db2 E Hj. unfold save_job. cbn [jobs with_jobs].
    rewrite E. unfold db1, save_job. cbn [jobs with_jobs].
    now rewrite !lookup_alter_eq, Hj. }
  assert (Hsave : forall P f db2,
            trips_extended P db db2 ->
            trips_extended P db (save_job job_id f db2)).
  { intros P f db2 H. exact H. }
  destruct (_run_trip_job env job1 db1) as [[[trip_id trip]|e] db2] eqn:Hrun;
    cbn [fst snd] in *.
  - repeat (split; [reflexivity|]).
    split; [now apply Hstored|]. split; [now apply Hsave|].
    left. split; [reflexivity|].
    unfold _run_trip_job in Hrun. cbn [job_user job1 mark_running] in Hrun.
    destruct (job_user job) as [u|]; [|discriminate].
    apply plan_ok_inv in Hrun as (rd & _ & Hid & Htrip & ->).
    exists trip_id, trip. split; [reflexivity|].
    split; [rewrite Hid; apply new_pk_fresh|].
    split; [cbn; apply lookup_insert_eq|].
    rewrite Htrip. now split.
  - specialize (Hraise e eq_refl). subst db2.
    assert (Hfail : forall msg,
      started_at (mark_failed now msg job1) = Some now
      /\ completed_at (mark_failed now msg job1) = Some now
      /\ job_user (mark_failed now msg job1) = job_user job
      /\ job_type (mark_failed now msg job1) = job_type job
      /\ (jobs db !! job_id = Some job ->
          jobs (save_job job_id (mark_failed now msg) db1) !! job_id
          = Some (mark_failed now msg job1))
      /\ trips_extended (planned_for (job_user job)) db
           (save_job job_id (mark_failed now msg) db1)
      /\ ((job_status (mark_failed now msg job1) = STATUS_SUCCESS
           /\ exists trip_id trip,
                job_result (mark_failed now msg job1) = Some (pretty trip_id)
                /\ trips db !! trip_id = None
                /\ trips (save_job job_id (mark_failed now msg) db1) !! trip_id
                   = Some trip
                /\ planned_for (job_user job) trip)
          \/ (job_status (mark_failed now msg job1) = STATUS_FAILED
              /\ job_result (mark_failed now msg job1) = job_result job
              /\ trips (save_job job_id (mark_failed now msg) db1) = trips db
              /\ routes (save_job job_id (mark_failed now msg) db1) = routes db
              /\ stops (save_job job_id (mark_failed now msg) db1) = stops db
              /\ String.length (error_message (mark_failed now msg job1)) <= 2048))).
    { intros msg. repeat (split; [reflexivity|]).
      split; [now apply Hstored|]. split; [now apply Hsave|].
      right. repeat (split; [reflexivity|]).
      apply substring_length_le. }
    destruct e; apply Hfail.
Qed.

End JobFacts.

Section BatchFacts.

Import Models TripPlanner.

Lemma trips_extended_fresh P db0 db k :
  trips_extended P db0 db -> trips db !! k = None -> trips db0 !! k = None.
Proof.
  intros (Hold & _) Hk. destruct (trips db0 !! k) as [t|] eqn:E; [|reflexivity].
  apply Hold in E. congruence.
Qed.

Lemma job_settled_step P db0 db db1 job_id kj :
  trips_extended P db db1 ->
  (forall k, k <> job_id -> jobs db1 !! k = jobs db !! k) ->
  kj.1 <> job_id ->
  job_settled db0 db kj -> job_settled db0 db1 kj.
Proof.
  intros (Hold & _) Hjobs Hne (Hst & Hfin & Hs & Hf).
  split; [rewrite Hjobs; assumption|]. split; [exact Hfin|]. split; [|exact Hf].
  intros Hsucc. destruct (Hs Hsucc) as (trip_id & trip & A & B & C & D).
  exists trip_id, trip. auto.
Qed.

(** Every job of the loop ends settled, and the trips only grow by PLANNED
    trips of the users of the jobs. *)
Lemma process_jobs_settled env now (R : Trip -> Prop) db0 pending :
  forall processed db,
    NoDup pending.*1 ->
    (forall kj, kj ∈ pending -> jobs db !! kj.1 = Some kj.2) ->
    (forall kj t, kj ∈ pending -> planned_for (job_user kj.2) t -> R t) ->
    trips_extended R db0 db ->
    (forall kj, kj ∈ processed -> job_settled db0 db kj) ->
    (forall kj, kj ∈ processed -> kj.1 ∉ pending.*1) ->
    let out := process_jobs env now pending processed db in
    (forall kj, kj ∈ out.1 -> job_settled db0 out.2 kj)
    /\ trips_extended R db0 out.2.
Proof.
  induction pending as [|[job_id job] rest IH];
    intros processed db Hnd Hrows HR Hext Hproc Hfresh; cbv zeta.
  - cbn. split; assumption.
  - cbn [process_jobs].
    pose proof (run_and_mark_spec env now job_id job db) as (Hfin & Hother & _).
    pose proof (run_and_mark_outcome env now job_id job db)
      as (_ & _ & Huser & _ & Hstored & Hstep & Hcase).
    destruct (run_and_mark env now job_id job db) as [job' db1].
    cbn [fst snd] in Hfin, Hother, Huser, Hstored, Hstep, Hcase.
    cbn [fmap list_fmap fst] in Hnd. apply NoDup_cons in Hnd as [Hnotin Hnd].
    assert (Hjob : jobs db !! job_id = Some job)
      by (apply (Hrows (job_id, job)), list_elem_of_here).
    assert (Hext1 : trips_extended R db0 db1).
    { eapply (trips_extended_trans R (planned_for (job_user job)) R);
        [auto | | exact Hext | exact Hstep].
      intros t Ht. apply (HR (job_id, job)); [apply list_elem_of_here | exact Ht]. }
    apply IH; clear IH.
    + exact Hnd.
    + intros kj Hkj. rewrite Hother; [apply Hrows; now apply list_elem_of_further|].
      intros E. apply Hnotin. rewrite <- E.
      apply list_elem_of_fmap. exists kj. split; [reflexivity | exact Hkj].
    + intros kj t Hkj. apply HR. now apply list_elem_of_further.
    + exact Hext1.
    + intros kj Hkj. apply elem_of_app in Hkj as [Hkj | Hkj].
      * eapply job_settled_step; [exact Hstep | exact Hother | | now apply Hproc].
        intros E. apply (Hfresh kj Hkj). rewrite E. apply list_elem_of_here.
      * apply list_elem_of_singleton in Hkj as ->. cbn [fst snd].
        unfold job_settled. cbn [fst snd].
        split; [now apply Hstored|]. split; [exact Hfin|].
        destruct Hcase as [(Hs & trip_id & trip & A & B & C & D)
                          | (Hf & _ & _ & _ & _ & Hlen)].
        -- split; [|intros E; rewrite Hs in E; discriminate E].
           intros _. exists trip_id, trip. rewrite Huser.
           split; [exact A|].
           split; [exact (trips_extended_fresh R db0 db trip_id Hext B)|].
           split; [exact C | exact D].
        -- split; [intros E; rewrite Hf in E; discriminate E | intros _; exact Hlen].
    + intros kj Hkj. apply elem_of_app in Hkj as [Hkj | Hkj].
      * intros Hin. apply (Hfresh kj Hkj). now apply list_elem_of_further.
      * apply list_elem_of_singleton in Hkj as ->. exact Hnotin.
Qed.

Lemma trips_extended_refl P db : trips_extended P db db.
Proof. unfold trips_extended. repeat split; auto. Qed.

Lemma batch_settled env now limit db :
  let out := process_pending_trip_jobs env now limit db in
  (forall kj, kj ∈ out.1 -> job_settled db out.2 kj)
  /\ trips_extended (planned_for_one_of (pending_jobs limit db)) db out.2.
Proof.
  cbv zeta. unfold process_pending_trip_jobs.
  destruct (pending_jobs_spec limit db) as (Hnd & _ & _ & Hsel).
  apply process_jobs_settled.
  - exact Hnd.
  - intros [k j] Hkj. now apply Hsel in Hkj as [Hk _].
  - intros kj t Hkj Hp. exists kj. now split.
  - apply trips_extended_refl.
  - intros kj Hkj. now apply elem_of_nil in Hkj.
  - intros kj Hkj. now apply elem_of_nil in Hkj.
Qed.

Lemma queue_empty db :
  (forall k j, jobs db !! k = Some j ->
     ~ (job_type j = JOB_TYPE_PLAN_TRIP /\ job_status j = STATUS_PENDING)) ->
  queue db = [].
Proof.
  intros H. unfold queue. apply filter_none, Forall_forall.
  intros [k j] Hkj. apply elem_of_map_to_list in Hkj. now apply H in Hkj.
Qed.

Lemma finished_not_pending j : finished j -> job_status j <> STATUS_PENDING.
Proof. intros [H | H] E; rewrite H in E; discriminate E. Qed.

End BatchFacts.

(** X22: [run_job] runs unfinished jobs only.  An unknown id raises and
    changes nothing; a job whose status is neither PENDING nor RUNNING is
    returned as it is and nothing is planned again; a PENDING or RUNNING job
    is run once and returned finished, stamped with the current time and
    stored as returned, no other job changes, existing trips are untouched,
    a SUCCESS names a new PLANNED trip of the job's user and a FAILED leaves
    the trip, route and stop tables as they were. *)
Theorem run_job_runs_unfinished_jobs_only
        (env : OpenRoute.Env) (now job_id : Z) (db : Models.DB) :
  let out := TripPlanner.run_job env now job_id db in
  match Models.jobs db !! job_id with
  | None =>
      out = (Raise (OtherException "BackgroundJob matching query does not exist."),
             db)
  | Some j =>
      (Models.job_status j ∉ [Models.STATUS_PENDING; Models.STATUS_RUNNING] ->
       out = (Ok j, db))
      /\ (Models.job_status j ∈ [Models.STATUS_PENDING; Models.STATUS_RUNNING] ->
          exists j',
            out.1 = Ok j'
            /\ job_settled db out.2 (job_id, j')
            /\ Models.started_at j' = Some now
            /\ Models.completed_at j' = Some now
            /\ (forall k, k <> job_id ->
                  Models.jobs out.2 !! k = Models.jobs db !! k)
            /\ trips_extended (planned_for (Models.job_user j)) db out.2
            /\ (Models.job_status j' = Models.STATUS_FAILED ->
                Models.trips out.2 = Models.trips db
                /\ Models.routes out.2 = Models.routes db
                /\ Models.stops out.2 = Models.stops db))
  end.
Proof.
  cbv zeta. unfold TripPlanner.run_job.
  destruct (Models.jobs db !! job_id) as [j|] eqn:Hj; [|reflexivity].
  split.
  - intros Hn. now rewrite bool_decide_eq_true_2 by exact Hn.
  - intros Hin. rewrite bool_decide_eq_false_2 by (intros Hn; now apply Hn).
    pose proof (run_and_mark_spec env now job_id j db) as (Hfin & Hother & _).
    pose proof (run_and_mark_outcome env now job_id j db)
      as (Hst & Hct & Huser & _ & Hstored & Hstep & Hcase).
    destruct (TripPlanner.run_and_mark env now job_id j db) as [j' db1].
    cbn [fst snd] in *. exists j'.
    split; [reflexivity|]. split.
    { unfold job_settled. cbn [fst snd].
      split; [now apply Hstored|]. split; [exact Hfin|].
      destruct Hcase as [(Hs & trip_id & trip & A & B & C & D)
                        | (Hf & _ & _ & _ & _ & Hlen)].
      - split; [|intros E; rewrite Hs in E; discriminate E].
        intros _. exists trip_id, trip. now rewrite Huser.
      - split; [intros E; rewrite Hf in E; discriminate E | intros _; exact Hlen]. }
    split; [exact Hst|]. split; [exact Hct|]. split; [exact Hother|].
    split; [exact Hstep|].
    intros Hf. destruct Hcase as [(Hs & _) | (_ & _ & A & B & C & _)].
    + rewrite Hs in Hf. discriminate Hf.
    + auto.
Qed.

(** X23: what a batch returns agrees with what it stored.  Every returned
    job is stored as returned and is finished; a SUCCESS carries the id of a
    trip that the batch added, and that trip is a PLANNED trip of the job's
    user; a FAILED carries an error message of at most 2048 characters.
    Every existing trip is unchanged, every added trip is a PLANNED trip of
    the user of a selected job, logs and segments are the same, and a job
    that was not selected is unchanged. *)
Theorem batch_results_match_database
        (env : OpenRoute.Env) (now : Z) (limit : nat) (db : Models.DB) :
  let selected := TripPlanner.pending_jobs limit db in
  let out := TripPlanner.process_pending_trip_jobs env now limit db in
  (forall kj, kj ∈ out.1 -> job_settled db out.2 kj)
  /\ trips_extended (planned_for_one_of selected) db out.2
  /\ (forall k, k ∉ selected.*1 ->
        Models.jobs out.2 !! k = Models.jobs db !! k).
Proof.
  cbv zeta. destruct (batch_settled env now limit db) as [Hset Hext].
  split; [exact Hset|]. split; [exact Hext|].
  unfold TripPlanner.process_pending_trip_jobs.
  destruct (pending_jobs_spec limit db) as (Hnd & _).
  pose proof (process_jobs_spec env now (TripPlanner.pending_jobs limit db)
                [] db Hnd) as Hrun.
  cbv zeta in Hrun. now destruct Hrun as (_ & _ & Hout & _).
Qed.

(** X24: the asynchronous path keeps the rule of one active trip: a batch
    run on a database with at most one IN_PROGRESS trip per user leaves a
    database with at most one IN_PROGRESS trip per user. *)
Theorem batch_keeps_one_active_trip
        (env : OpenRoute.Env) (now : Z) (limit : nat) (db : Models.DB) :
  Mutations.one_active_trip_per_user db ->
  Mutations.one_active_trip_per_user
    (TripPlanner.process_pending_trip_jobs env now limit db).2.
Proof.
  intros Hone. destruct (batch_settled env now limit db) as [_ Hext].
  eapply trips_extended_one_active; [|exact Hext|exact Hone].
  now intros t (kj & _ & Hs & _).
Qed.

Lemma two_trips_db_one_active : Mutations.one_active_trip_per_user two_trips_db.
Proof.
  intros k1 k2 t1 t2 H1 H2 _ S1 S2.
  unfold two_trips_db in H1, H2. cbn [Models.trips] in H1, H2.
  apply lookup_insert_Some in H1 as [[<- <-] | [N1 H1]];
    apply lookup_insert_Some in H2 as [[<- <-] | [N2 H2]];
    try reflexivity.
  - apply lookup_singleton_Some in H2 as [<- <-]. discriminate S2.
  - apply lookup_singleton_Some in H1 as [<- <-]. discriminate S1.
  - apply lookup_singleton_Some in H1 as [<- _].
    apply lookup_singleton_Some in H2 as [<- _]. reflexivity.
Qed.

Lemma busy_db_one_active : Mutations.one_active_trip_per_user busy_db.
Proof. exact two_trips_db_one_active. Qed.

Lemma batch_keeps_one_active_trip_witness :
  Mutations.one_active_trip_per_user
    (TripPlanner.process_pending_trip_jobs env_up 50 10 busy_db).2.
Proof.
  apply (batch_keeps_one_active_trip env_up 50 10 busy_db).
  exact busy_db_one_active.
Defined.

(** X25: a batch with room for the whole queue empties it: when the limit
    is at least the number of PENDING PLAN_TRIP jobs, none is left
    afterwards, and a further batch selects nothing, returns no job and
    changes nothing. *)
Theorem batch_drains_queue
        (env : OpenRoute.Env) (now : Z) (limit : nat) (db : Models.DB) :
  length (queue db) <= limit ->
  let out := TripPlanner.process_pending_trip_jobs env now limit db in
  queue out.2 = []
  /\ forall env' now' limit',
       TripPlanner.process_pending_trip_jobs env' now' limit' out.2
       = ([], out.2).
Proof.
  intros Hlen. cbv zeta.
  assert (Hq : queue (TripPlanner.process_pending_trip_jobs env now limit db).2
               = []).
  { apply queue_empty. intros k j Hk [Ht Hs].
    unfold TripPlanner.process_pending_trip_jobs in Hk.
    destruct (pending_jobs_spec limit db) as (Hnd & _ & _ & Hsel).
    pose proof (process_jobs_spec env now (TripPlanner.pending_jobs limit db)
                  [] db Hnd) as Hrun.
    cbv zeta in Hrun. destruct Hrun as (_ & _ & Hout & Hin).
    destruct (decide (k ∈ (TripPlanner.pending_jobs limit db).*1)) as [Hsel' | Hno].
    - pose proof Hsel' as Hkj.
      apply list_elem_of_fmap in Hkj as ([k' j0] & -> & Hkj).
      apply Hsel in Hkj as (Hj0 & _). cbn [fst] in *.
      destruct (Hin _ _ Hsel' Hj0) as (j' & Hj' & Hfin).
      rewrite Hj' in Hk. injection Hk as <-.
      now apply finished_not_pending in Hfin.
    - rewrite (Hout _ Hno) in Hk. apply Hno.
      apply list_elem_of_fmap. exists (k, j). split; [reflexivity|].
      apply pending_jobs_all; [exact Hlen|].
      apply list_elem_of_filter. split; [now split|].
      now apply elem_of_map_to_list. }
  split; [exact Hq|].
  intros env' now' limit'.
  unfold TripPlanner.process_pending_trip_jobs at 1.
  unfold TripPlanner.pending_jobs. fold (queue (TripPlanner.process_pending_trip_jobs env now limit db).2).
  rewrite Hq. now destruct limit'.
Qed.

Lemma batch_drains_queue_witness :
  let out := TripPlanner.process_pending_trip_jobs env_up 50 10 busy_db in
  queue out.2 = []
  /\ forall env' now' limit',
       TripPlanner.process_pending_trip_jobs env' now' limit' out.2
       = ([], out.2).
Proof.
  apply (batch_drains_queue env_up 50 10 busy_db).
  vm_compute. lia.
Defined.

(** X26: [enqueue_trip_job] plans nothing itself: it stores one PENDING
    PLAN_TRIP job of the caller under an id that was not in use and leaves
    every other table alone.  Running that job plans exactly the trip the
    synchronous call would plan with the same arguments, and a batch with
    room for the queue leaves the job settled. *)
Theorem enqueued_job_plans_the_same_trip
        (now user : Z) (start pickup dropoff : Models.Location) (cyc : Q)
        (carrier : Models.CarrierFields) (db : Models.DB) :
  let job_id :=
    (TripPlanner.enqueue_trip_job now user start pickup dropoff cyc carrier db).1.1 in
  let job :=
    (TripPlanner.enqueue_trip_job now user start pickup dropoff cyc carrier db).1.2 in
  let db1 :=
    (TripPlanner.enqueue_trip_job now user start pickup dropoff cyc carrier db).2 in
  Models.jobs db !! job_id = None
  /\ Models.jobs db1 = <[job_id := job]> (Models.jobs db)
  /\ Models.job_status job = Models.STATUS_PENDING
  /\ Models.job_type job = Models.JOB_TYPE_PLAN_TRIP
  /\ Models.job_user job = Some user
  /\ Models.created_at job = now
  /\ same_trip_tables_but_jobs db db1
  /\ (forall env db2,
        TripPlanner._run_trip_job env job db2
        = TripPlanner.plan_trip_for_user env (Some user) start pickup dropoff
                                         cyc carrier db2)
  /\ (forall env now' limit,
        length (queue db) < limit ->
        let out := TripPlanner.process_pending_trip_jobs env now' limit db1 in
        exists j', (job_id, j') ∈ out.1 /\ job_settled db1 out.2 (job_id, j')).
Proof.
  cbv zeta.
  split; [apply new_pk_fresh|]. split; [reflexivity|].
  do 4 (split; [reflexivity|]).
  split; [repeat split|].
  split; [intros env db2; apply enqueued_job_runs_plan|].
  intros env now' limit Hlen.
  set (job_id := (TripPlanner.enqueue_trip_job now user start pickup dropoff
                    cyc carrier db).1.1).
  set (job := (TripPlanner.enqueue_trip_job now user start pickup dropoff
                 cyc carrier db).1.2).
  set (db1 := (TripPlanner.enqueue_trip_job now user start pickup dropoff
                 cyc carrier db).2).
  assert (Hq : queue db1 ≡ₚ (job_id, job) :: queue db).
  { unfold queue, db1, TripPlanner.enqueue_trip_job.
    cbn [snd Models.jobs Models.with_jobs].
    rewrite map_to_list_insert by apply new_pk_fresh.
    rewrite filter_cons, decide_True by (now split). reflexivity. }
  assert (Hsel : (job_id, job) ∈ TripPlanner.pending_jobs limit db1).
  { apply pending_jobs_all.
    - rewrite Hq. cbn [length]. lia.
    - rewrite Hq. apply list_elem_of_here. }
  destruct (batch_settled env now' limit db1) as [Hset _].
  unfold TripPlanner.process_pending_trip_jobs in *.
  destruct (pending_jobs_spec limit db1) as (Hnd & _).
  pose proof (process_jobs_spec env now' (TripPlanner.pending_jobs limit db1)
                [] db1 Hnd) as Hrun.
  cbv zeta in Hrun. destruct Hrun as (Hids & _).
  assert (Hin : job_id ∈ (TripPlanner.process_jobs env now'
                            (TripPlanner.pending_jobs limit db1) [] db1).1.*1).
  { rewrite Hids. cbn [fmap list_fmap app].
    apply list_elem_of_fmap. exists (job_id, job). now split. }
  apply list_elem_of_fmap in Hin as ([k j'] & Hk & Hin). cbn [fst] in Hk.
  subst k. exists j'. split; [exact Hin | now apply Hset].
Qed.

Section SerialiseFacts.

Import Models Logs TripMutations.

Lemma serialised_status segment :
  raw_status (serialise_segment segment) = py_str (get segment "status").
Proof.
  unfold raw_status, serialise_segment. now rewrite lookup_insert_eq.
Qed.

Lemma none_is_no_status : "None" ∉ VALID_STATUSES.
Proof.
  unfold VALID_STATUSES. intros H.
  repeat (apply elem_of_cons in H as [H | H]; [discriminate H|]).
  now apply elem_of_nil in H.
Qed.

Lemma graphql_upsert_ok :
  upsert_driver_log 1 1 1 None None (_serialise_segments graphql_segments)
                    None 100 sample_db
  = (Ok (5%Z, mkDriverLog 1 1 100 90 0 60 0 0 ""),
     (upsert_driver_log 1 1 1 None None (_serialise_segments graphql_segments)
                        None 100 sample_db).2).
Proof. vm_compute. reflexivity. Qed.

End SerialiseFacts.

(** X27: behind [_serialise_segments] the OFF_DUTY default of the log
    service is out of reach: the serialised dictionary always has a
    "status" key, holding None when the segment had none, so an upsert of
    serialised segments succeeds only if every segment names one of the four
    duty statuses itself. *)
Theorem serialised_segments_need_a_status
        (user trip_id day : Z) (log_date : option Z) (notes : option string)
        (segments : list (gmap string Logs.PyVal)) (dist : option Q) (today : Z)
        (db db' : Models.DB) (log_id : Z) (log : Models.DriverLog) :
  Logs.upsert_driver_log user trip_id day log_date notes
    (TripMutations._serialise_segments segments) dist today db
  = (Ok (log_id, log), db') ->
  Forall (fun segment =>
            exists s, segment !! "status" = Some (Logs.PyStr s)
                      /\ s ∈ Logs.VALID_STATUSES
                      /\ raw_status (TripMutations.serialise_segment segment) = s)
         segments.
Proof.
  intros Hup.
  apply upsert_ok_inv in Hup
    as (_ & _ & parsed & totals & cursor & existing & N & _).
  apply _normalise_segments_rows in N. revert parsed N.
  unfold TripMutations._serialise_segments.
  induction segments as [|segment segments IH]; intros parsed N; [constructor|].
  cbn [map] in N. apply Forall2_cons_inv_l in N
    as (seg & segs & (_ & Hv & Hs & _) & N & ->).
  constructor; [|eapply IH; exact N].
  pose proof (raw_status_valid _ _ Hv Hs) as Hvalid.
  rewrite serialised_status in Hvalid |- *.
  unfold TripMutations.get in *.
  destruct (segment !! "status") as [[|s]|]; cbn in Hvalid |- *.
  - now apply none_is_no_status in Hvalid.
  - exists s. auto.
  - now apply none_is_no_status in Hvalid.
Qed.

Lemma serialised_segments_need_a_status_witness :
  Forall (fun segment =>
            exists s, segment !! "status" = Some (Logs.PyStr s)
                      /\ s ∈ Logs.VALID_STATUSES
                      /\ raw_status (TripMutations.serialise_segment segment) = s)
         graphql_segments.
Proof.
  apply (serialised_segments_need_a_status 1 1 1 None None graphql_segments
           None 100 sample_db
           (Logs.upsert_driver_log 1 1 1 None None
              (TripMutations._serialise_segments graphql_segments)
              None 100 sample_db).2
           5 (Models.mkDriverLog 1 1 100 90 0 60 0 0 "")).
  exact graphql_upsert_ok.
Defined.

Section DeleteTripFacts.

Import Models TripMutations.

Lemma delete_trip_one_active trip_id db :
  Mutations.one_active_trip_per_user db ->
  Mutations.one_active_trip_per_user (delete_trip trip_id db).
Proof.
  intros Hone k1 k2 t1 t2 H1 H2. cbn [trips delete_trip] in H1, H2.
  apply lookup_delete_Some in H1 as [_ H1].
  apply lookup_delete_Some in H2 as [_ H2].
  now apply Hone.
Qed.

(** Stops that fail the filter leave no trace in the filtered table. *)
Lemma bulk_create_stops_filtered (P : Z * Stop -> Prop)
      `{!forall x, Decision (P x)} route_id defs :
  (forall k s, stop_route s = route_id -> ~ P (k, s)) ->
  forall index table,
    filter P (TripPlanner.bulk_create_stops route_id index defs table)
    = filter P table.
Proof.
  intros Hnew. induction defs as [|definition defs IH]; intros index table;
    [reflexivity|].
  cbn [TripPlanner.bulk_create_stops]. rewrite IH.
  apply map_filter_insert_not'.
  - now apply Hnew.
  - intros y Hy. now rewrite new_pk_fresh in Hy.
Qed.

Lemma planned_db_delete env user start pickup dropoff cyc carrier db
      trip_id trip db1 :
  refs_ok db ->
  TripPlanner.plan_trip_for_user env (Some user) start pickup dropoff cyc
                                 carrier db
  = (Ok (trip_id, trip), db1) ->
  trips db1 !! trip_id = Some trip
  /\ trip_user trip = user /\ trip_status trip = TRIP_STATUS_PLANNED
  /\ delete_trip trip_id db1 = db.
Proof.
  intros (Hroutes & Hlogs & Hstops) Hplan.
  apply plan_ok_inv in Hplan as (rd & _ & Hid & Htrip & ->).
  assert (Hfresh : trips db !! trip_id = None)
    by (rewrite Hid; apply new_pk_fresh).
  split; [cbn; apply lookup_insert_eq|].
  split; [now rewrite Htrip|]. split; [now rewrite Htrip|].
  assert (Hother : forall k, is_Some (trips db !! k) -> k <> trip_id).
  { intros k [t Hk] ->. congruence. }
  unfold delete_trip.
  cbn [trips routes stops driver_logs duty_segments jobs].
  transitivity (mkDB (trips db) (routes db) (stops db) (driver_logs db)
                     (duty_segments db) (jobs db)); [|now destruct db].
  assert (Hroute : forall k r, routes db !! k = Some r ->
                     k <> new_pk (routes db)).
  { intros k r Hk ->. now rewrite new_pk_fresh in Hk. }
  f_equal.
  - now apply delete_insert_id.
  - rewrite map_filter_insert_not'.
    + apply map_filter_id. intros k r Hk. cbn. eapply Hother, Hroutes, Hk.
    + cbn. intros H. now apply H.
    + intros y Hy. now rewrite new_pk_fresh in Hy.
  - rewrite bulk_create_stops_filtered.
    + apply map_filter_id. intros k s Hk. cbn [snd].
      destruct (Hstops _ _ Hk) as [r Hr].
      unfold stop_of_trip. cbn [routes].
      rewrite lookup_insert_ne by (symmetry; eapply Hroute, Hr).
      rewrite Hr. eapply Hother, Hroutes, Hr.
    + intros k s Hs H. apply H. cbn [snd]. unfold stop_of_trip.
      cbn [routes]. now rewrite Hs, lookup_insert_eq.
  - apply map_filter_id. intros k l Hk. cbn. eapply Hother, Hlogs, Hk.
  - apply map_filter_id. intros k s Hk. cbn [snd].
    unfold segment_of_trip. cbn [driver_logs].
    destruct (driver_logs db !! segment_log s) as [l|] eqn:Hl; [|tauto].
    eapply Hother, Hlogs, Hl.
Qed.

Lemma sample_db_refs_ok : refs_ok sample_db.
Proof.
  unfold refs_ok, sample_db. cbn [trips routes stops driver_logs].
  split; [|split].
  - intros k r H. now rewrite lookup_empty in H.
  - intros k l H. apply lookup_singleton_Some in H as [_ <-]. cbn.
    rewrite lookup_singleton_eq. eauto.
  - intros k s H. now rewrite lookup_empty in H.
Qed.

Lemma plan_optional_kwargs env user start pickup dropoff cyc carrier db :
  TripPlanner.plan_trip_for_user env user start pickup dropoff cyc
                                 (optional_kwargs carrier) db
  = TripPlanner.plan_trip_for_user env user start pickup dropoff cyc carrier db.
Proof.
  unfold TripPlanner.plan_trip_for_user, TripPlanner.plan_trip_body,
    optional_kwargs.
  cbn [cf_tractor_number cf_trailer_numbers cf_carrier_names
       cf_main_office_address cf_home_terminal_address cf_co_driver_name
       cf_shipper_name cf_commodity].
  now rewrite !default_truthy_str, !default_truthy_list.
Qed.

End DeleteTripFacts.

(** X28: [DeleteTrip.mutate] deletes PLANNED trips of the caller and
    nothing else.  It succeeds exactly when the trip exists, is the
    caller's and is PLANNED; a refusal changes nothing, and a trip that does
    not exist and a trip of another user are refused with the same "Trip not
    found".  On success the trip is gone together with its routes, their
    stops, its logs and their segments, the rows of other trips and the jobs
    stay, and at most one IN_PROGRESS trip per user remains true. *)
Theorem delete_trip_removes_planned_own_trips
        (user trip_id : Z) (db : Models.DB) :
  let out := TripMutations.delete_trip_mutate user trip_id db in
  (TripMutations.delete_trip_success out.1 = true
   <-> exists t, Models.trips db !! trip_id = Some t
                 /\ Models.trip_user t = user
                 /\ Models.trip_status t = Models.TRIP_STATUS_PLANNED)
  /\ (TripMutations.delete_trip_success out.1 = false ->
      out.2 = db
      /\ (~ owns_trip db user trip_id ->
          TripMutations.delete_trip_errors out.1 = ["Trip not found"]))
  /\ (TripMutations.delete_trip_success out.1 = true ->
      Models.trips out.2 = delete trip_id (Models.trips db)
      /\ (forall k r, Models.routes out.2 !! k = Some r
            <-> Models.routes db !! k = Some r
                /\ Models.route_trip r <> trip_id)
      /\ (forall k s, Models.stops out.2 !! k = Some s
            <-> Models.stops db !! k = Some s
                /\ ~ TripMutations.stop_of_trip db trip_id s)
      /\ (forall k l, Models.driver_logs out.2 !! k = Some l
            <-> Models.driver_logs db !! k = Some l
                /\ Models.log_trip l <> trip_id)
      /\ (forall k s, Models.duty_segments out.2 !! k = Some s
            <-> Models.duty_segments db !! k = Some s
                /\ ~ TripMutations.segment_of_trip db trip_id s)
      /\ Models.jobs out.2 = Models.jobs db)
  /\ (Mutations.one_active_trip_per_user db ->
      Mutations.one_active_trip_per_user out.2).
Proof.
  cbv zeta. unfold TripMutations.delete_trip_mutate, owns_trip.
  destruct (Models.trips db !! trip_id) as [t|] eqn:Ht.
  2:{ cbn [fst snd TripMutations.delete_trip_success
           TripMutations.delete_trip_errors].
      split; [split; [discriminate | intros (t & Hn & _); discriminate Hn]|].
      split; [auto|]. split; [discriminate | auto]. }
  case_bool_decide as Hu.
  2:{ cbn [fst snd TripMutations.delete_trip_success
           TripMutations.delete_trip_errors].
      split; [split; [discriminate|]|].
      { intros (t' & [= <-] & Hu' & _). contradiction. }
      split; [auto|]. split; [discriminate | auto]. }
  case_bool_decide as Hs.
  - cbn [fst snd TripMutations.delete_trip_success
         TripMutations.delete_trip_errors].
    split; [split; [discriminate|]|].
    { intros (t' & [= <-] & _ & Hs'). contradiction. }
    split; [|split; [discriminate | auto]].
    intros _. split; [reflexivity|]. intros Hno. exfalso. apply Hno. eauto.
  - cbn [fst snd TripMutations.delete_trip_success
         TripMutations.delete_trip_errors].
    assert (Hp : Models.trip_status t = Models.TRIP_STATUS_PLANNED).
    { destruct (decide (Models.trip_status t = Models.TRIP_STATUS_PLANNED));
        [assumption | contradiction]. }
    split; [split; [eauto | reflexivity]|].
    split; [discriminate|].
    split; [|intros Hone; now apply delete_trip_one_active].
    intros _. unfold TripMutations.delete_trip.
    cbn [Models.trips Models.routes Models.stops Models.driver_logs
         Models.duty_segments Models.jobs].
    split; [reflexivity|].
    split; [intros k r; apply map_lookup_filter_Some|].
    split; [intros k s; apply map_lookup_filter_Some|].
    split; [intros k l; apply map_lookup_filter_Some|].
    split; [intros k s; apply map_lookup_filter_Some | reflexivity].
Qed.

(** X29: deleting a trip that was just planned undoes the planning: on a
    database whose foreign keys point at existing rows, a successful
    [plan_trip_for_user] followed by [DeleteTrip.mutate] of the new trip
    succeeds and gives back the database from before the planning. *)
Theorem deleting_a_fresh_plan_restores_the_database
        (env : OpenRoute.Env) (user : Z)
        (start pickup dropoff : Models.Location) (cyc : Q)
        (carrier : Models.CarrierFields) (db db1 : Models.DB)
        (trip_id : Z) (trip : Models.Trip) :
  refs_ok db ->
  TripPlanner.plan_trip_for_user env (Some user) start pickup dropoff cyc
                                 carrier db
  = (Ok (trip_id, trip), db1) ->
  TripMutations.delete_trip_mutate user trip_id db1
  = (TripMutations.mkDeleteTrip true [], db).
Proof.
  intros Hrefs Hplan.
  destruct (planned_db_delete _ _ _ _ _ _ _ _ _ _ _ Hrefs Hplan)
    as (Ht & Hu & Hs & Hdb).
  unfold TripMutations.delete_trip_mutate.
  rewrite Ht, (bool_decide_eq_true_2 _ Hu).
  rewrite bool_decide_eq_false_2 by (intros H; now apply H).
  now rewrite Hdb.
Qed.

Lemma deleting_a_fresh_plan_restores_the_database_witness :
  TripMutations.delete_trip_mutate 1 2 planned_sample.2
  = (TripMutations.mkDeleteTrip true [], sample_db).
Proof.
  apply (deleting_a_fresh_plan_restores_the_database env_up 1 sample_location
           sample_location sample_location 0 no_carrier_fields sample_db
           planned_sample.2 2 planned_sample_trip).
  - exact sample_db_refs_ok.
  - exact planned_sample_ok.
Defined.

(** X30: the two paths of [PlanTrip.mutate].  An asynchronous request plans
    nothing: it succeeds with one new PENDING job and no trip, only the job
    table grows, and the job, when run, plans exactly the trip the
    synchronous request would plan.  A synchronous request creates no job;
    its success carries a trip that is stored, belongs to the caller and is
    PLANNED, and its failure carries a single error message and leaves the
    database as it was. *)
Theorem plan_trip_mutation_outcomes
        (env : OpenRoute.Env) (now user : Z)
        (input : TripMutations.PlanTripInput) (db : Models.DB) :
  let out := TripMutations.plan_trip_mutate env now user input db in
  (TripMutations.run_async input = true ->
   TripMutations.plan_success out.1 = true
   /\ TripMutations.plan_trip out.1 = None
   /\ TripMutations.plan_errors out.1 = []
   /\ same_trip_tables_but_jobs db out.2
   /\ exists job_id job,
        TripMutations.plan_job out.1 = Some (job_id, job)
        /\ Models.jobs db !! job_id = None
        /\ Models.jobs out.2 = <[job_id := job]> (Models.jobs db)
        /\ Models.job_status job = Models.STATUS_PENDING
        /\ Models.job_user job = Some user
        /\ forall env' db2,
             TripPlanner._run_trip_job env' job db2
             = TripPlanner.plan_trip_for_user env' (Some user)
                 (TripMutations.in_start_location input)
                 (TripMutations.in_pickup_location input)
                 (TripMutations.in_dropoff_location input)
                 (TripMutations.in_cycle_hours_used input)
                 (TripMutations.in_carrier input) db2)
  /\ (TripMutations.run_async input = false ->
      TripMutations.plan_job out.1 = None
      /\ Models.jobs out.2 = Models.jobs db
      /\ (TripMutations.plan_success out.1 = true ->
          TripMutations.plan_errors out.1 = []
          /\ exists trip_id trip,
               TripMutations.plan_trip out.1 = Some (trip_id, trip)
               /\ Models.trips db !! trip_id = None
               /\ Models.trips out.2 !! trip_id = Some trip
               /\ Models.trip_user trip = user
               /\ Models.trip_status trip = Models.TRIP_STATUS_PLANNED)
      /\ (TripMutations.plan_success out.1 = false ->
          TripMutations.plan_trip out.1 = None
          /\ length (TripMutations.plan_errors out.1) = 1
          /\ out.2 = db)).
Proof.
  cbv zeta. unfold TripMutations.plan_trip_mutate. split; intros Hasync;
    rewrite Hasync.
  - cbn [fst snd TripMutations.plan_success TripMutations.plan_trip
         TripMutations.plan_errors TripMutations.plan_job].
    do 3 (split; [reflexivity|]).
    split; [repeat split|].
    eexists _, _. split; [reflexivity|].
    split; [apply new_pk_fresh|]. split; [reflexivity|].
    split; [reflexivity|]. split; [reflexivity|].
    intros env' db2.
    rewrite <- (plan_optional_kwargs env' (Some user) _ _ _ _
                  (TripMutations.in_carrier input) db2).
    apply (enqueued_job_runs_plan env' now user _ _ _ _
             (TripMutations.optional_kwargs (TripMutations.in_carrier input))
             db db2).
  - pose proof (plan_trip_for_user_jobs env (Some user)
                  (TripMutations.in_start_location input)
                  (TripMutations.in_pickup_location input)
                  (TripMutations.in_dropoff_location input)
                  (TripMutations.in_cycle_hours_used input)
                  (TripMutations.in_carrier input) db) as Hjobs.
    pose proof (plan_trip_extends env (Some user)
                  (TripMutations.in_start_location input)
                  (TripMutations.in_pickup_location input)
                  (TripMutations.in_dropoff_location input)
                  (TripMutations.in_cycle_hours_used input)
                  (TripMutations.in_carrier input) db) as [_ Hraise].
    cbv zeta in Hraise.
    destruct (TripPlanner.plan_trip_for_user env (Some user) _ _ _ _ _ db)
      as [[[trip_id trip]|e] db1] eqn:Hplan; cbn [fst snd] in Hjobs, Hraise.
    + cbn [fst snd TripMutations.plan_success TripMutations.plan_trip
           TripMutations.plan_errors TripMutations.plan_job].
      split; [reflexivity|]. split; [exact Hjobs|].
      split; [|discriminate].
      intros _. split; [reflexivity|]. exists trip_id, trip.
      split; [reflexivity|].
      apply plan_ok_inv in Hplan as (rd & _ & Hid & Htrip & ->).
      split; [rewrite Hid; apply new_pk_fresh|].
      split; [cbn; apply lookup_insert_eq|].
      rewrite Htrip. now split.
    + specialize (Hraise e eq_refl). subst db1.
      destruct e;
        cbn [fst snd TripMutations.plan_success TripMutations.plan_trip
             TripMutations.plan_errors TripMutations.plan_job];
        (split; [reflexivity|]); (split; [reflexivity|]);
        (split; [discriminate|]); intros _; repeat split.
Qed.

(** ** A segment without a status *)

Section AbsentStatusFacts.

Import Models Logs.
Local Open Scope Z_scope.

Lemma raw_minutes_middle st before raw after :
  raw_minutes_with_status st (before ++ raw :: after)
  = (if decide (raw_status raw = st) then raw_duration raw else 0)
    + raw_minutes_with_status st (before ++ after).
Proof.
  unfold raw_minutes_with_status.
  induction before as [|r before IH]; cbn [app foldr]; [reflexivity|].
  rewrite IH. lia.
Qed.

Lemma accepted_rows_positive raws segs :
  Forall2 (fun raw seg =>
             raw_times raw = Some (start_time seg, end_time seg)
             /\ validate seg = Ok tt
             /\ py_str (status seg) = raw_status raw
             /\ valid_time (start_time seg) /\ valid_time (end_time seg))
          raws segs ->
  Forall (fun raw => 0 < raw_duration raw) raws.
Proof.
  intros H. pose proof (rows_ordered _ _ H) as Ho.
  induction H as [|raw seg raws segs (Ht & _) _ IH]; constructor.
  - apply Forall_cons in Ho as [(_ & _ & Hlt) _].
    unfold raw_duration. rewrite Ht, duration_is_difference. lia.
  - apply IH. now apply Forall_cons in Ho as [_ Ho].
Qed.

Lemma absent_status_raw_status raw :
  raw !! "status" = None -> raw_status raw = STATUS_OFF_DUTY.
Proof. intros H. unfold raw_status. now rewrite H. Qed.

(** What a successful upsert stores for a segment without a status. *)
Lemma absent_status_stored raw user trip_id day log_date notes before after
      dist today db db' log_id log :
  raw !! "status" = None ->
  upsert_driver_log user trip_id day log_date notes (before ++ raw :: after)
                    dist today db
  = (Ok (log_id, log), db') ->
  driver_logs db' !! log_id = Some log
  /\ 0 < raw_duration raw
  /\ total_off_duty_minutes log
     = raw_duration raw
       + raw_minutes_with_status STATUS_OFF_DUTY (before ++ after)
  /\ total_sleeper_minutes log
     = raw_minutes_with_status STATUS_SLEEPER (before ++ after)
  /\ total_driving_minutes log
     = raw_minutes_with_status STATUS_DRIVING (before ++ after)
  /\ total_on_duty_minutes log
     = raw_minutes_with_status STATUS_ON_DUTY (before ++ after)
  /\ exists row,
       row ∈ stored_segments db' log_id
       /\ segment_status row = STATUS_OFF_DUTY
       /\ raw_times raw = Some (segment_start_time row, segment_end_time row).
Proof.
  intros Hnone Hup.
  apply upsert_ok_inv in Hup
    as (_ & _ & parsed & totals & cursor & existing & N & _ & A & _ & _
        & _ & _ & _ & _ & Hoff & Hsl & Hdr & Hon & _ & ->).
  pose proof (_normalise_segments_rows _ _ N) as Hrows.
  pose proof (absent_status_raw_status raw Hnone) as Hst.
  assert (Htot : forall st, st ∈ VALID_STATUSES ->
            default 0 (totals !! st)
            = raw_minutes_with_status st (before ++ raw :: after)).
  { intros st Hin.
    rewrite (accumulate_totals _ _ _ _ _ _ A st), (initial_totals_lookup st Hin).
    cbn. destruct (rows_minutes _ _ st Hrows) as [-> _]. lia. }
  split.
  { cbn [driver_logs with_duty_segments with_driver_logs].
    apply lookup_insert_eq. }
  split.
  { pose proof (accepted_rows_positive _ _ Hrows) as Hpos.
    apply Forall_app in Hpos as [_ Hpos].
    now apply Forall_cons in Hpos as [Hpos _]. }
  rewrite Hoff, Hsl, Hdr, Hon.
  rewrite !Htot by (unfold VALID_STATUSES; set_solver).
  rewrite !raw_minutes_middle, Hst.
  split; [now rewrite decide_True by reflexivity|].
  split; [now rewrite decide_False by discriminate|].
  split; [now rewrite decide_False by discriminate|].
  split; [now rewrite decide_False by discriminate|].
  apply Forall2_app_inv_l in Hrows as (segs1 & segs2 & _ & Hrows & ->).
  apply Forall2_cons_inv_l in Hrows as (seg & segs3 & (Ht & _ & Hs & _) & _ & ->).
  exists (segment_row log_id seg). split; [|split].
  - unfold stored_segments.
    cbn [duty_segments with_duty_segments with_driver_logs].
    destruct (upsert_segments_after (duty_segments db) log_id
                (segs1 ++ seg :: segs3)) as [Hmine _].
    rewrite Hmine. apply list_elem_of_fmap.
    exists seg. split; [reflexivity|].
    apply elem_of_app. right. apply list_elem_of_here.
  - cbn. now rewrite Hs.
  - exact Ht.
Qed.

End AbsentStatusFacts.

(** C10: a raw segment without a "status" key is normalised exactly as the
    same segment with status OFF_DUTY, so [upsert_driver_log] treats the two
    alike wherever the segment stands in the list.  When the upsert
    succeeds, the segment is stored with status OFF_DUTY and its minutes,
    which are more than zero, are in the off-duty total of the stored log
    and in none of the three other totals.  The error "Unsupported duty
    status" is raised only for a status that is present and unknown, and it
    is raised for every such status once the two times parse. *)
Theorem absent_status_is_off_duty (raw : gmap string Logs.PyVal) :
  (raw !! "status" = None ->
   Logs.normalise_segment raw
   = Logs.normalise_segment (<["status" := Logs.PyStr Models.STATUS_OFF_DUTY]> raw)
   /\ (forall user trip_id day_number log_date notes before after dist today db,
         Logs.upsert_driver_log user trip_id day_number log_date notes
           (before ++ raw :: after) dist today db
         = Logs.upsert_driver_log user trip_id day_number log_date notes
             (before ++ <["status" := Logs.PyStr Models.STATUS_OFF_DUTY]> raw
                     :: after) dist today db)
   /\ (forall seg,
         Logs.normalise_segment raw = Ok seg ->
         Logs.status seg = Logs.PyStr Models.STATUS_OFF_DUTY
         /\ forall totals minutes,
             Logs.add_total totals (Logs.status seg) minutes
             = alter (Z.add minutes) Models.STATUS_OFF_DUTY totals)
   /\ (forall user trip_id day_number log_date notes before after dist today
              db db' log_id log,
         Logs.upsert_driver_log user trip_id day_number log_date notes
           (before ++ raw :: after) dist today db
         = (Ok (log_id, log), db') ->
         Models.driver_logs db' !! log_id = Some log
         /\ (0 < raw_duration raw)%Z
         /\ Models.total_off_duty_minutes log
            = (raw_duration raw
               + raw_minutes_with_status Models.STATUS_OFF_DUTY
                   (before ++ after))%Z
         /\ Models.total_sleeper_minutes log
            = raw_minutes_with_status Models.STATUS_SLEEPER (before ++ after)
         /\ Models.total_driving_minutes log
            = raw_minutes_with_status Models.STATUS_DRIVING (before ++ after)
         /\ Models.total_on_duty_minutes log
            = raw_minutes_with_status Models.STATUS_ON_DUTY (before ++ after)
         /\ exists row,
              row ∈ stored_segments db' log_id
              /\ Models.segment_status row = Models.STATUS_OFF_DUTY
              /\ raw_times raw
                 = Some (Models.segment_start_time row,
                         Models.segment_end_time row)))
  /\ (forall s,
        Logs.normalise_segment raw
        = Raise (ValidationError ("Unsupported duty status '" +:+ s +:+ "'")) ->
        exists v, raw !! "status" = Some v /\ Logs.status_valid v = false)
  /\ (forall v,
        raw !! "status" = Some v -> Logs.status_valid v = false ->
        is_Some (raw_times raw) ->
        Logs.normalise_segment raw
        = Raise (ValidationError
                   ("Unsupported duty status '" +:+ Logs.py_str v +:+ "'"))).
Proof.
  split; [|split].
  - intros Hnone.
    pose proof (normalise_segment_default_status raw Hnone) as Heq.
    split; [exact Heq|]. split; [|split].
    + intros. unfold Logs.upsert_driver_log, Logs.upsert_body.
      now rewrite (_normalise_segments_middle _ _ _ _ Heq).
    + intros seg Hseg.
      apply normalise_segment_ok in Hseg as (_ & _ & Hst).
      rewrite Hnone in Hst. cbn in Hst.
      split; [exact Hst|]. intros totals minutes.
      unfold Logs.add_total. now rewrite Hst.
    + intros user trip_id day_number log_date notes before after dist today
             db db' log_id log Hup.
      exact (absent_status_stored raw user trip_id day_number log_date notes
               before after dist today db db' log_id log Hnone Hup).
  - apply normalise_segment_status_error.
  - apply normalise_segment_unknown_status.
Qed.

Lemma absent_status_is_off_duty_witness :
  Logs.normalise_segment segment_without_status
  = Logs.normalise_segment
      (<["status" := Logs.PyStr Models.STATUS_OFF_DUTY]> segment_without_status)
  /\ Models.total_off_duty_minutes (Models.mkDriverLog 1 1 100 120 0 0 0 0 "")
     = (raw_duration segment_without_status
        + raw_minutes_with_status Models.STATUS_OFF_DUTY ([] ++ []))%Z.
Proof.
  destruct (proj1 (absent_status_is_off_duty segment_without_status) eq_refl)
    as (Hsame & _ & _ & Hstored).
  split; [exact Hsame|].
  refine (proj1 (proj2 (proj2
            (Hstored 1%Z 1%Z 1%Z None None [] [] None 100%Z sample_db
               (Logs.upsert_driver_log 1 1 1 None None [segment_without_status]
                                       None 100 sample_db).2
               5%Z (Models.mkDriverLog 1 1 100 120 0 0 0 0 "") _)))).
  vm_compute. reflexivity.
Defined.
